(** * AITester: signal construction, simulation, statistics and ranking

    A shallow embedding of the strategy evaluation pipeline of the
    repository (src/strategy_backtest.py, src/build_dashboard.py,
    src/top_performers_analysis.py, verify_methodology.py) and the
    properties its specification states about it, followed by further
    properties of the same code: file names, displayed values, trade
    statistics, curves, the summary table, dashboards and the verification
    script.

    Conventions of the embedding.
    - A price or a metric is a rational number ([Q]); a missing value
      (pandas NaN, Python None) is [None].  Rounding of binary floating
      point is not part of the model.
    - A timestamp is a day number ([Z], the proleptic ordinal of the date).
    - A pandas Series over a fixed index is the list of its values in index
      order; all series handed to one builder share one index.
    - A Python dict with string keys is a [gmap string _].
    - Third-party indicator functions (pandas_ta, vectorbt) are fields of
      an interface class; the code of this repository is written against
      that interface. *)

From Stdlib Require Import QArith Qabs Qround Lqa ZArith List Ascii Lia Permutation Sorted.
From stdpp Require Import gmap strings list sorting.

Local Open Scope Z_scope.

(** ** Series and element-wise operations with missing values *)

Module Series.

Abbreviation t A := (list (option A)) (only parsing).

(** [s.shift(1)]: every value moves one position later, the first position
    becomes missing, the index (hence the length) is unchanged. *)
Definition shift1 {A} (s : t A) : t A := take (length s) (None :: s).

(** Element-wise [a > b] on floats: false as soon as one side is missing. *)
Definition gt1 (a b : option Q) : bool :=
  match a, b with
  | Some x, Some y => if Qlt_le_dec y x then true else false
  | _, _ => false
  end.

Definition lt1 (a b : option Q) : bool := gt1 b a.

(** Element-wise [a == k] against an integer constant. *)
Definition eqz1 (k : Z) (a : option Z) : bool :=
  match a with
  | Some x => Z.eqb x k
  | None => false
  end.

Definition gt (a b : t Q) : list bool := zip_with gt1 a b.
Definition lt (a b : t Q) : list bool := zip_with lt1 a b.
Definition eqz (a : t Z) (k : Z) : list bool := (eqz1 k) <$> a.

(** Element-wise [&] of two boolean series. *)
Definition band (a b : list bool) : list bool := zip_with andb a b.

(** [.fillna(False)] on the result of a comparison: a comparison already
    yields a plain boolean at every position, nothing is left to fill. *)
Definition fillna_False (a : list bool) : list bool := a.

End Series.

(** ** Third-party indicators

    [pandas_ta] and [vectorbt] are libraries, not code of this repository.
    The builders below only rely on each indicator returning one value
    (possibly missing) per position of the index it was given.  A call that
    returns no series at all (a history shorter than the window of the
    indicator) is outside the model. *)

Class Indicators := {
  (** [ta.donchian(high, low, close, upper_length, lower_length)["DCU_.."]] *)
  ta_donchian_upper :
    Series.t Q → Series.t Q → Series.t Q → nat → nat → Series.t Q;
  (** [ta.supertrend(high, low, close, length, multiplier)]: the bandline
      column [SUPERT_..] and the direction column [SUPERTd_..] *)
  ta_supertrend :
    Series.t Q → Series.t Q → Series.t Q → nat → Q → Series.t Q * Series.t Z;
  (** [ta.ema(close, length)] *)
  ta_ema : Series.t Q → nat → Series.t Q;
  (** [IndicatorFactory.from_pandas_ta("atr").run(high, low, close, length).atrr] *)
  ta_atr : Series.t Q → Series.t Q → Series.t Q → nat → Series.t Q;
  (** [vbt.MA.run(x, window, ewm=True).ma] *)
  vbt_MA_ewm : Series.t Q → nat → Series.t Q;

  ta_donchian_upper_length h l c n m :
    length (ta_donchian_upper h l c n m) = length c;
  ta_supertrend_length_line h l c n k :
    length (ta_supertrend h l c n k).1 = length c;
  ta_supertrend_length_dir h l c n k :
    length (ta_supertrend h l c n k).2 = length c;
  ta_ema_length c n : length (ta_ema c n) = length c;
  ta_atr_length h l c n : length (ta_atr h l c n) = length c;
  vbt_MA_ewm_length x n : length (vbt_MA_ewm x n) = length x
}.

(** ** Signal Builder: weekly trend (build_weekly_trend_strategy, signals) *)

Section TrendSignals.
Context `{Indicators}.
Variables close high low : Series.t Q.

Definition trend_upper : Series.t Q := ta_donchian_upper high low close 10 10.
Definition trend_st_line : Series.t Q := (ta_supertrend high low close 20 1%Q).1.
Definition trend_st_dir : Series.t Z := (ta_supertrend high low close 20 1%Q).2.
Definition trend_ema21 : Series.t Q := ta_ema close 21.
Definition trend_ema50 : Series.t Q := ta_ema close 50.

Definition trend_entries : list bool :=
  Series.fillna_False
    (Series.band
       (Series.band (Series.gt close (Series.shift1 trend_upper))
                    (Series.eqz trend_st_dir 1))
       (Series.gt trend_ema21 trend_ema50)).

Definition trend_exits : list bool :=
  Series.fillna_False
    (Series.band (Series.lt close trend_st_line)
                 (Series.eqz trend_st_dir (-1))).
End TrendSignals.

(** ** Signal Builder: daily volatility regimes *)

(** Modelled from the spec: crossover and crossunder ([crossed_above] and
    [crossed_below] belong to vectorbt, which is not under src/).  "Fast
    value was <= slow value at t-1 and fast value > slow value at t (and the
    mirrored condition for crossunder)"; a comparison with a missing value
    is false, and there is no crossing at the first position. *)
Definition le1 (a b : option Q) : bool :=
  match a, b with
  | Some x, Some y => if Qlt_le_dec y x then false else true
  | _, _ => false
  end.

Fixpoint crossed_from (pa pb : option Q) (a b : Series.t Q) : list bool :=
  match a, b with
  | x :: a', y :: b' => (le1 pa pb && Series.gt1 x y) :: crossed_from x y a' b'
  | _, _ => []
  end.

Definition crossed_above (a b : Series.t Q) : list bool := crossed_from None None a b.
Definition crossed_below (a b : Series.t Q) : list bool := crossed_above b a.

(** [series.reindex(index, method="ffill")] for a series on the increasing
    index [widx]: at day [d], the value stored at the last label [<= d],
    missing when no label is [<= d]. *)
Fixpoint asof {A} (rows : list (Z * option A)) (d : Z) (acc : option A) : option A :=
  match rows with
  | [] => acc
  | (k, v) :: rows' => if k <=? d then asof rows' d v else acc
  end.

Definition reindex_ffill {A} (widx : list Z) (w : Series.t A) (didx : list Z) : Series.t A :=
  (fun d => asof (zip widx w) d None) <$> didx.

(** [.fillna(0)] *)
Definition fillna_0 (s : Series.t Z) : list Z := default 0 <$> s.

(** [atr_pct = (atr / close) * 100].  A zero close gives no value. *)
Definition pct_of (a c : option Q) : option Q :=
  match a, c with
  | Some x, Some y => if Qeq_bool y 0 then None else Some ((x / y) * 100)%Q
  | _, _ => None
  end.

(** The four signal series of the two daily simulations. *)
Record DailySignals := {
  hv_entries : list bool;   (* High_Vol entries: entries & (st_daily == -1) *)
  hv_exits : list bool;     (* High_Vol exits:   exits *)
  lv_entries : list bool;   (* Low_Vol entries:  exits & (st_daily == -1) *)
  lv_exits : list bool      (* Low_Vol exits:    entries *)
}.

(** Lines 323-347 of build_daily_volatility_strategies: the signal series
    handed to the two simulations, from the two smoothed volatility series
    and the weekly direction. *)
(** [st_daily]: the weekly direction carried forward onto the daily index,
    0 before the first weekly label. *)
Definition st_daily (widx : list Z) (weekly_supertrend_dir : Series.t Z)
    (didx : list Z) : list Z :=
  fillna_0 (reindex_ffill widx weekly_supertrend_dir didx).

Definition daily_volatility_signals
    (fast slow : Series.t Q) (widx : list Z) (weekly_supertrend_dir : Series.t Z)
    (didx : list Z) : DailySignals :=
  let entries := crossed_above fast slow in
  let exits := crossed_below fast slow in
  let bearish := (fun d => Z.eqb d (-1)) <$> st_daily widx weekly_supertrend_dir didx in
  {| hv_entries := Series.band entries bearish;
     hv_exits := exits;
     lv_entries := Series.band exits bearish;
     lv_exits := entries |}.

(** ** Configuration constants (strategy_backtest.py, CONFIG) *)

Definition INITIAL_CASH : Q := 10000.
Definition COMMISSION : Q := 2 # 1000.
Definition SIZE_PERCENT : Q := 1.

Definition METRICS : list string :=
  ["total_return"; "max_dd"; "sharpe_ratio"; "sortino_ratio"; "calmar_ratio"]%string.

Definition EXTENDED_METRICS : list string :=
  ["total_return"; "annualized_return"; "max_dd"; "sharpe_ratio";
   "sortino_ratio"; "calmar_ratio"; "total_trades"; "win_rate";
   "avg_winning_trade"; "avg_losing_trade"; "profit_factor";
   "best_return"; "worst_return"]%string.

(** ** Portfolio Simulator *)

(** The keyword arguments a call site passes to the simulator; an argument
    that is not passed is [None] and takes the library default. *)
Record Kwargs := {
  init_cash : Q;
  freq : string;
  size : option Q;
  size_type : option string;
  fees : option Q
}.

(** vectorbt's default commission when [fees] is not passed. *)
Definition vbt_default_fees : Q := 0.

Definition effective_fees (kw : Kwargs) : Q := default vbt_default_fees (fees kw).

(** One line of [pf.trades.records_readable]. *)
Record TradeRow := {
  Size : Q;
  Entry_Timestamp : Z;
  Avg_Entry_Price : Q;
  Entry_Fees : Q;
  Exit_Timestamp : Z;
  Avg_Exit_Price : Q;
  Exit_Fees : Q;
  PnL : Q;
  Return : Q;
  Status_Closed : bool
}.

Record TradesFrame := {
  tf_columns : list string;
  tf_rows : list TradeRow
}.

Definition vbt_trade_columns : list string :=
  ["Exit Trade Id"; "Column"; "Size"; "Entry Timestamp"; "Avg Entry Price";
   "Entry Fees"; "Exit Timestamp"; "Avg Exit Price"; "Exit Fees"; "PnL";
   "Return"; "Direction"; "Status"; "Position Id"]%string.

(** A portfolio object as the scripts observe it.  An observation that can
    raise in Python is an [option]: [None] stands for the exception. *)
Record Portfolio := {
  pf_kwargs : Kwargs;
  pf_wrapper_index : list Z;                         (* pf.wrapper.index *)
  pf_value : list Q;                                 (* pf.value() *)
  pf_trades : option (option TradesFrame);           (* pf.trades.records_readable *)
  pf_stats : list string → option (gmap string (option Q))
                                                     (* pf.stats(metrics=..).to_dict() *)
}.

(** The statistics engine of the simulator library (Sharpe, Sortino, ...):
    from the simulated run to the requested metrics, or an exception. *)
Class StatsEngine := {
  vbt_stats : Kwargs → list Z → list Q → list TradeRow →
              list string → option (gmap string (option Q))
}.

Record OpenPos := {
  op_ts : Z;
  op_price : Q;
  op_size : Q;
  op_fees : Q
}.

Record SimState := {
  st_cash : Q;
  st_pos : option OpenPos;
  st_closed : list TradeRow;      (* closed trades, oldest first *)
  st_values : list Q;             (* equity at each bar so far *)
  st_last : option (Z * Q)        (* last bar with a price *)
}.

Definition Qmin' (a b : Q) : Q := if Qlt_le_dec a b then a else b.

(** Value of a buy order: the requested share of the available cash, cut
    so that value plus commission never exceeds the cash. *)
Definition order_value (kw : Kwargs) (cash p : Q) : Q :=
  let want :=
    match size_type kw, size kw with
    | Some "percent"%string, Some s => (s * cash)%Q
    | _, Some s => (s * p)%Q
    | _, None => cash
    end in
  Qmin' want (cash / (1 + effective_fees kw))%Q.

Definition buy (kw : Kwargs) (ts : Z) (p : Q) (st : SimState) : SimState :=
  let v := order_value kw (st_cash st) p in
  let fee := (v * effective_fees kw)%Q in
  {| st_cash := (st_cash st - v - fee)%Q;
     st_pos := Some {| op_ts := ts; op_price := p; op_size := (v / p)%Q; op_fees := fee |};
     st_closed := st_closed st;
     st_values := st_values st;
     st_last := st_last st |}.

Definition close_row (op : OpenPos) (ts : Z) (p fee : Q) (closed : bool) : TradeRow :=
  let cost := (op_size op * op_price op)%Q in
  let pnl := (op_size op * p - fee - cost - op_fees op)%Q in
  {| Size := op_size op;
     Entry_Timestamp := op_ts op;
     Avg_Entry_Price := op_price op;
     Entry_Fees := op_fees op;
     Exit_Timestamp := ts;
     Avg_Exit_Price := p;
     Exit_Fees := fee;
     PnL := pnl;
     Return := (pnl / cost)%Q;
     Status_Closed := closed |}.

Definition sell (kw : Kwargs) (ts : Z) (p : Q) (op : OpenPos) (st : SimState) : SimState :=
  let proceeds := (op_size op * p)%Q in
  let fee := (proceeds * effective_fees kw)%Q in
  {| st_cash := (st_cash st + proceeds - fee)%Q;
     st_pos := None;
     st_closed := st_closed st ++ [close_row op ts p fee true];
     st_values := st_values st;
     st_last := st_last st |}.

Definition equity (st : SimState) (p : Q) : Q :=
  match st_pos st with
  | Some op => (st_cash st + op_size op * p)%Q
  | None => st_cash st
  end.

Definition mark (ts : Z) (p : Q) (st : SimState) : SimState :=
  {| st_cash := st_cash st;
     st_pos := st_pos st;
     st_closed := st_closed st;
     st_values := st_values st ++ [equity st p];
     st_last := Some (ts, p) |}.

(** Modelled from the spec: the Portfolio Simulator of section 4.3
    ([vbt.Portfolio.from_signals] is library code, not under src/).
    FLAT -> LONG on an entry signal, LONG -> FLAT on an exit signal, a
    simultaneous entry and exit resolves to FLAT, no shorting, no
    pyramiding; a bar without a price changes nothing. *)
Definition sim_step (kw : Kwargs) (st : SimState) (bar : Z * option Q * (bool * bool)) : SimState :=
  let '(ts, price, (e, x)) := bar in
  match price with
  | None =>
      {| st_cash := st_cash st; st_pos := st_pos st; st_closed := st_closed st;
         st_values := st_values st ++ [default (st_cash st) (last (st_values st))];
         st_last := st_last st |}
  | Some p =>
      let st' :=
        match st_pos st with
        | Some op => if x then sell kw ts p op st else st
        | None => if x then st else if e then buy kw ts p st else st
        end in
      mark ts p st'
  end.

Definition sim_init (kw : Kwargs) : SimState :=
  {| st_cash := init_cash kw; st_pos := None; st_closed := []; st_values := [];
     st_last := None |}.

Definition sim_run (kw : Kwargs) (index : list Z) (close : Series.t Q)
    (entries exits : list bool) : SimState :=
  foldl (sim_step kw) (sim_init kw) (zip (zip index close) (zip entries exits)).

(** The trade log: closed trades, then the position still open at the end,
    valued at the last price without an exit fill. *)
Definition sim_trades (st : SimState) : list TradeRow :=
  st_closed st ++
  match st_pos st, st_last st with
  | Some op, Some (ts, p) => [close_row op ts p 0 false]
  | _, _ => []
  end.

Section Simulator.
Context `{StatsEngine}.

Definition from_signals (index : list Z) (close : Series.t Q)
    (entries exits : list bool) (kw : Kwargs) : Portfolio :=
  let st := sim_run kw index close entries exits in
  {| pf_kwargs := kw;
     pf_wrapper_index := index;
     pf_value := st_values st;
     pf_trades := Some (Some {| tf_columns := vbt_trade_columns; tf_rows := sim_trades st |});
     pf_stats := vbt_stats kw index (st_values st) (sim_trades st) |}.

(** [vbt.Portfolio.from_holding(close, init_cash, freq)]: buy with all the
    cash at the first bar and never sell. *)
Definition from_holding (index : list Z) (close : Series.t Q) (cash : Q) (fr : string) : Portfolio :=
  from_signals index close
    (match close with [] => [] | _ :: r => true :: ((λ _, false) <$> r) end)
    ((λ _, false) <$> close)
    {| init_cash := cash; freq := fr; size := None; size_type := None; fees := None |}.

End Simulator.

(** A trade whose two fills paid no commission, and a simulation state in
    which no fill so far paid any. *)
Definition free_row (r : TradeRow) : Prop :=
  (Entry_Fees r == 0)%Q ∧ (Exit_Fees r == 0)%Q.

Definition free_state (st : SimState) : Prop :=
  Forall free_row (st_closed st)
  ∧ ∀ op, st_pos st = Some op → (op_fees op == 0)%Q.

(** ** Market Data Fetcher *)

(** What the data provider returns: named columns over a date index, one
    list of cells per date. *)
Record DataFrame := {
  df_columns : list string;
  df_index : list Z;
  df_data : list (list (option Q))
}.

(** [df.empty]: an axis of length zero. *)
Definition df_empty (df : DataFrame) : bool :=
  match df_index df, df_columns df with
  | [], _ | _, [] => true
  | _, _ => false
  end.

Fixpoint index_of (name : string) (cols : list string) : option nat :=
  match cols with
  | [] => None
  | c :: cols' => if String.eqb c name then Some 0%nat else S <$> index_of name cols'
  end.

(** [df[name]]: the column, [None] (KeyError) when there is none. *)
Definition df_col (df : DataFrame) (name : string) : option (Series.t Q) :=
  i ← index_of name (df_columns df);
  Some ((λ row, default None (row !! i)) <$> df_data df).

(** [str.title] on ASCII: the first letter of every run of letters in upper
    case, the other letters of the run in lower case. *)
Definition is_lower (c : ascii) : bool :=
  let n := nat_of_ascii c in (97 <=? n)%nat && (n <=? 122)%nat.
Definition is_upper (c : ascii) : bool :=
  let n := nat_of_ascii c in (65 <=? n)%nat && (n <=? 90)%nat.
Definition to_upper (c : ascii) : ascii :=
  if is_lower c then ascii_of_nat (nat_of_ascii c - 32) else c.
Definition to_lower (c : ascii) : ascii :=
  if is_upper c then ascii_of_nat (nat_of_ascii c + 32) else c.

Fixpoint title_from (prev_cased : bool) (s : string) : string :=
  match s with
  | EmptyString => EmptyString
  | String c s' =>
      if is_lower c || is_upper c then
        String (if prev_cased then to_lower c else to_upper c) (title_from true s')
      else String c (title_from false s')
  end.

Definition title (s : string) : string := title_from false s.

(** [df.rename(columns={c: c.title() for c in df.columns})] *)
Definition rename_title (df : DataFrame) : DataFrame :=
  {| df_columns := title <$> df_columns df;
     df_index := df_index df;
     df_data := df_data df |}.

Definition required : list string := ["Open"; "High"; "Low"; "Close"; "Volume"]%string.

(** [required.issubset(df.columns)] *)
Definition has_required (df : DataFrame) : bool :=
  forallb (λ r, bool_decide (r ∈ df_columns df)) required.

(** One daily bar of the five required columns. *)
Record Bar := {
  b_date : Z;
  b_Open : option Q;
  b_High : option Q;
  b_Low : option Q;
  b_Close : option Q;
  b_Volume : option Q
}.

Definition cell (df : DataFrame) (name : string) (row : list (option Q)) : option Q :=
  i ← index_of name (df_columns df); default None (row !! i).

Definition bars (df : DataFrame) : list Bar :=
  zip_with (λ d row,
    {| b_date := d;
       b_Open := cell df "Open" row; b_High := cell df "High" row;
       b_Low := cell df "Low" row; b_Close := cell df "Close" row;
       b_Volume := cell df "Volume" row |})
    (df_index df) (df_data df).

(** The calendar week of a day, named by the Sunday that ends it (pandas
    frequency "W"); day numbers divisible by 7 are Sundays. *)
Definition week_end (d : Z) : Z := d + (- d) mod 7.

(** Aggregations of one group; all of them skip missing cells. *)
Definition present (l : list (option Q)) : list Q := omap id l.

Definition agg_first (l : list (option Q)) : option Q := head (present l).
Definition agg_last (l : list (option Q)) : option Q := last (present l).

Definition Qmax' (a b : Q) : Q := if Qlt_le_dec a b then b else a.

Definition agg_max (l : list (option Q)) : option Q :=
  match present l with
  | [] => None
  | x :: xs => Some (foldl Qmax' x xs)
  end.

Definition agg_min (l : list (option Q)) : option Q :=
  match present l with
  | [] => None
  | x :: xs => Some (foldl Qmin' x xs)
  end.

Definition agg_sum (l : list (option Q)) : option Q :=
  Some (foldl Qplus 0%Q (present l)).

Definition week_group (bs : list Bar) (w : Z) : list Bar :=
  filter (λ b, week_end (b_date b) = w) bs.

Definition agg_week (bs : list Bar) (w : Z) : Bar :=
  let g := week_group bs w in
  {| b_date := w;
     b_Open := agg_first (b_Open <$> g);
     b_High := agg_max (b_High <$> g);
     b_Low := agg_min (b_Low <$> g);
     b_Close := agg_last (b_Close <$> g);
     b_Volume := agg_sum (b_Volume <$> g) |}.

(** The bins of [resample("W")]: every week from the one holding the
    earliest date to the one holding the latest date. *)
Definition week_labels (dates : list Z) : list Z :=
  match dates with
  | [] => []
  | d :: ds =>
      let lo := week_end (foldl Z.min d ds) in
      let hi := week_end (foldl Z.max d ds) in
      (λ k : nat, lo + 7 * Z.of_nat k) <$> seq 0 (Z.to_nat ((hi - lo) / 7) + 1)
  end.

Definition resample_W_agg (bs : list Bar) : list Bar :=
  agg_week bs <$> week_labels (b_date <$> bs).

Definition bar_complete (b : Bar) : bool :=
  match b_Open b, b_High b, b_Low b, b_Close b, b_Volume b with
  | Some _, Some _, Some _, Some _, Some _ => true
  | _, _, _, _, _ => false
  end.

(** [.dropna()]: rows with a missing cell are removed. *)
Definition dropna (bs : list Bar) : list Bar := filter (λ b, bar_complete b = true) bs.

Section Fetcher.
Variable yf_download : string → DataFrame.

Definition download_weekly (ticker : string) : option (list Bar) :=
  let df := yf_download ticker in
  if df_empty df then None
  else
    let df := rename_title df in
    if negb (has_required df) then None
    else Some (dropna (resample_W_agg (bars df))).

End Fetcher.

(** ** Helper functions of strategy_backtest.py *)

(** A Python computation that returns or stops with an uncaught exception. *)
Inductive result (A : Type) : Type :=
  | Ok (a : A)
  | Raised (exn : string).
Arguments Ok {A} a.
Arguments Raised {A} exn.

Definition getportfolio_stats (pf : Portfolio) (metrics : list string)
    : gmap string (option Q) :=
  match pf_stats pf metrics with
  | Some s => s
  | None => list_to_map ((λ m, (m, None)) <$> metrics)
  end.

Definition tf_empty (df : TradesFrame) : bool :=
  match tf_rows df, tf_columns df with
  | [], _ | _, [] => true
  | _, _ => false
  end.

(** The datetime columns of a trade log and their cells. *)
Definition datetime_column (df : TradesFrame) (c : string) : option (list Z) :=
  if String.eqb c "Entry Timestamp" then Some (Entry_Timestamp <$> tf_rows df)
  else if String.eqb c "Exit Timestamp" then Some (Exit_Timestamp <$> tf_rows df)
  else None.

Definition list_min (l : list Z) : option Z :=
  match l with
  | [] => None
  | x :: xs => Some (foldl Z.min x xs)
  end.

(** [for c in df.columns: if is_datetime(df[c]): return df[c].min()] *)
Fixpoint first_datetime_min (df : TradesFrame) (cols : list string) : option Z :=
  match cols with
  | [] => None
  | c :: cols' =>
      match datetime_column df c with
      | Some cells => list_min cells
      | None => first_datetime_min df cols'
      end
  end.

Definition get_first_trade_date (pf : Portfolio) : option Z :=
  match pf_trades pf with
  | None => None                      (* except: return None *)
  | Some None => None                 (* df is None *)
  | Some (Some df) =>
      if tf_empty df then None else first_datetime_min df (tf_columns df)
  end.

(** [series.loc[start:]] for a label that is in the index: the part of the
    series from that label on.  Applied to the index itself. *)
Fixpoint loc_from (start : Z) (index : list Z) : list Z :=
  match index with
  | [] => []
  | d :: index' => if d =? start then index else loc_from start index'
  end.

(** The same slice applied to the values that go with the index. *)
Fixpoint loc_from_values {A} (start : Z) (index : list Z) (values : list A) : list A :=
  match index, values with
  | d :: index', v :: values' =>
      if d =? start then values else loc_from_values start index' values'
  | _, _ => []
  end.

(** ** Strategy builders and the per-ticker analysis *)

Record DailyBuild := {
  db_high_vol : Portfolio;
  db_low_vol : Portfolio;
  db_index : list Z;          (* close.index *)
  db_close : Series.t Q;      (* close *)
  db_entries : list bool;
  db_exits : list bool
}.

(** The local variables of one completed iteration of the main loop. *)
Record Analysis := {
  an_ticker : string;
  an_weekly : list Bar;
  an_pf_trend : Portfolio;
  an_daily : DailyBuild;
  an_first_dates : list Z;
  an_start : Z;
  an_benchmark : Portfolio
}.

(** One entry of [all_results]. *)
Record TickerResult := {
  tr_Ticker : string;
  tr_Trend : gmap string (option Q);
  tr_High_Vol : gmap string (option Q);
  tr_Low_Vol : gmap string (option Q);
  tr_Benchmark : gmap string (option Q)
}.

(** One row of results/strategy_metrics.csv. *)
Record Row := {
  Ticker : string;
  Strategy : string;
  metrics : gmap string (option Q)
}.

Definition TICKERS : list string :=
  ["NVDA"; "AMD"; "AVGO"; "QCOM"; "INTC"; "ARM";
   "MSFT"; "GOOGL"; "META"; "AAPL"; "AMZN"; "TSLA";
   "ORCL"; "CRM"; "NOW"; "SNOW";
   "PLTR"; "ADBE"; "PANW"; "CRWD"; "DDOG";
   "JPM"; "GS"; "MS"; "BAC"; "C";
   "UBER"; "ABNB"; "NFLX"; "SHOP"; "SQ";
   "SPY"; "QQQ"; "XLK"; "VGT"; "SOXX"; "IGV"; "WCLD"; "ARKK"; "BOTZ"; "IRBO"]%string.

Section Pipeline.
Context `{Indicators} `{StatsEngine}.
Variable yf_download : string → DataFrame.

Definition trend_kwargs : Kwargs :=
  {| init_cash := INITIAL_CASH; freq := "W"; size := Some SIZE_PERCENT;
     fees := Some COMMISSION; size_type := Some "percent"%string |}.

Definition high_vol_kwargs : Kwargs :=
  {| init_cash := INITIAL_CASH; freq := "1D"; fees := Some COMMISSION;
     size := Some SIZE_PERCENT; size_type := Some "percent"%string |}.

Definition low_vol_kwargs : Kwargs :=
  {| init_cash := INITIAL_CASH; freq := "1D"; size := Some SIZE_PERCENT;
     size_type := Some "percent"%string; fees := None |}.

Definition build_weekly_trend_strategy (index : list Z) (close high low : Series.t Q)
    : Portfolio * Series.t Z :=
  let entries := trend_entries close high low in
  let exits := trend_exits close high low in
  let pf := from_signals index close entries exits trend_kwargs in
  (pf, trend_st_dir close high low).

Definition build_daily_volatility_strategies
    (ticker : string) (widx : list Z) (weekly_supertrend_dir : Series.t Z)
    : result (option DailyBuild) :=
  let df := yf_download ticker in
  if df_empty df then Ok None
  else
    let df := rename_title df in
    match df_col df "Close", df_col df "High", df_col df "Low" with
    | Some close, Some high, Some low =>
        let atr := ta_atr high low close 20 in
        let atr_pct := zip_with pct_of atr close in
        let fast := vbt_MA_ewm atr_pct 6 in
        let slow := vbt_MA_ewm atr_pct 25 in
        let sg := daily_volatility_signals fast slow widx weekly_supertrend_dir (df_index df) in
        let high_vol :=
          from_signals (df_index df) close (hv_entries sg) (hv_exits sg) high_vol_kwargs in
        let low_vol :=
          from_signals (df_index df) close (lv_entries sg) (lv_exits sg) low_vol_kwargs in
        Ok (Some {| db_high_vol := high_vol; db_low_vol := low_vol;
                    db_index := df_index df; db_close := close;
                    db_entries := crossed_above fast slow;
                    db_exits := crossed_below fast slow |})
    | _, _, _ => Raised "KeyError"
    end.

(** "First trade date logic": the first trade dates that exist. *)
Definition first_dates_of (pf_trend high_vol low_vol : Portfolio) : list Z :=
  omap id [get_first_trade_date pf_trend;
           get_first_trade_date high_vol;
           get_first_trade_date low_vol].

(** The start date of the benchmark: the earliest first trade date, moved
    to the first date of the daily index on or after it when it is not a
    date of the index; [None] where the loop body says [continue]. *)
Definition sync_start (first_dates : list Z) (index : list Z) : option Z :=
  match list_min first_dates with
  | None => None                                   (* if not first_dates *)
  | Some start =>
      if bool_decide (start ∈ index) then Some start
      else head (filter (λ d, start ≤ d) index)    (* idxs[0], if any *)
  end.

(** The body of the main loop up to [all_results.append]: [Ok None] is a
    [continue]. *)
Definition analyze (ticker : string) : result (option Analysis) :=
  match download_weekly yf_download ticker with
  | None => Ok None
  | Some weekly =>
      let widx := b_date <$> weekly in
      let close_w := b_Close <$> weekly in
      let high_w := b_High <$> weekly in
      let low_w := b_Low <$> weekly in
      let '(pf_trend, weekly_dir) := build_weekly_trend_strategy widx close_w high_w low_w in
      match build_daily_volatility_strategies ticker widx weekly_dir with
      | Raised e => Raised e
      | Ok None => Ok None
      | Ok (Some db) =>
          let first_dates := first_dates_of pf_trend (db_high_vol db) (db_low_vol db) in
          match sync_start first_dates (db_index db) with
          | None => Ok None
          | Some start =>
              let bench_index := loc_from start (db_index db) in
              let bench_close := loc_from_values start (db_index db) (db_close db) in
              let benchmark := from_holding bench_index bench_close INITIAL_CASH "1D" in
              Ok (Some {| an_ticker := ticker; an_weekly := weekly;
                          an_pf_trend := pf_trend; an_daily := db;
                          an_first_dates := first_dates; an_start := start;
                          an_benchmark := benchmark |})
          end
      end
  end.

Definition entry_of (a : Analysis) : TickerResult :=
  {| tr_Ticker := an_ticker a;
     tr_Trend := getportfolio_stats (an_pf_trend a) METRICS;
     tr_High_Vol := getportfolio_stats (db_high_vol (an_daily a)) METRICS;
     tr_Low_Vol := getportfolio_stats (db_low_vol (an_daily a)) METRICS;
     tr_Benchmark := getportfolio_stats (an_benchmark a) METRICS |}.

(** [for ticker in TICKERS: ...], threading the append-only [all_results]. *)
Fixpoint main_loop (tickers : list string) (all_results : list TickerResult)
    : result (list TickerResult) :=
  match tickers with
  | [] => Ok all_results
  | ticker :: rest =>
      match analyze ticker with
      | Raised e => Raised e
      | Ok None => main_loop rest all_results
      | Ok (Some a) => main_loop rest (all_results ++ [entry_of a])
      end
  end.

(** The entries the loop appends, in the order of the ticker list. *)
Definition processed (tickers : list string) : list TickerResult :=
  omap (λ t, match analyze t with
             | Ok (Some a) => Some (entry_of a)
             | _ => None
             end) tickers.

(** The summary table: four rows for every entry of [all_results]. *)
Definition rows_of (r : TickerResult) : list Row :=
  [ {| Ticker := tr_Ticker r; Strategy := "Trend"; metrics := tr_Trend r |};
    {| Ticker := tr_Ticker r; Strategy := "High_Vol"; metrics := tr_High_Vol r |};
    {| Ticker := tr_Ticker r; Strategy := "Low_Vol"; metrics := tr_Low_Vol r |};
    {| Ticker := tr_Ticker r; Strategy := "Benchmark"; metrics := tr_Benchmark r |} ].

Definition summary_rows (all_results : list TickerResult) : list Row :=
  all_results ≫= rows_of.

(** The whole script: the rows written to results/strategy_metrics.csv. *)
Definition strategy_backtest (tickers : list string) : result (list Row) :=
  match main_loop tickers [] with
  | Ok all_results => Ok (summary_rows all_results)
  | Raised e => Raised e
  end.

End Pipeline.

(** ** Statistics Extractor (get_extended_stats) *)

(** [d.get(k, None)] on a dict of floats; a stored None and a missing key
    both give no value. *)
Definition dict_get (d : gmap string (option Q)) (k : string) : option Q :=
  default None (d !! k).

Definition all_None (keys : list string) : gmap string (option Q) :=
  list_to_map ((λ m, (m, None)) <$> keys).

Definition Qsum (l : list Q) : Q := foldr Qplus 0%Q l.
Definition Qmean (l : list Q) : Q := (Qsum l / inject_Z (Z.of_nat (length l)))%Q.
Definition Qlist_max (x : Q) (l : list Q) : Q := foldl Qmax' x l.
Definition Qlist_min (x : Q) (l : list Q) : Q := foldl Qmin' x l.

Definition Qpos (x : Q) : bool := if Qlt_le_dec 0 x then true else false.
Definition Qneg (x : Q) : bool := if Qlt_le_dec x 0 then true else false.

Definition has_column (df : TradesFrame) (c : string) : bool :=
  bool_decide (c ∈ tf_columns df).

(** The seven values computed by the "Trade statistics" block. *)
Record TradeStats := {
  ts_total_trades : option Q;
  ts_win_rate : option Q;
  ts_avg_winning_trade : option Q;
  ts_avg_losing_trade : option Q;
  ts_profit_factor : option Q;
  ts_best_return : option Q;
  ts_worst_return : option Q
}.

Definition no_trade_stats (total : option Q) : TradeStats :=
  {| ts_total_trades := total; ts_win_rate := None;
     ts_avg_winning_trade := None; ts_avg_losing_trade := None;
     ts_profit_factor := None; ts_best_return := None; ts_worst_return := None |}.

(** The keys written by the trade statistics block. *)
Definition trade_metrics : list string :=
  ["total_trades"; "win_rate"; "avg_winning_trade"; "avg_losing_trade";
   "profit_factor"; "best_return"; "worst_return"]%string.

Section ExtendedStats.
(** Python's [**] on floats. *)
Variable float_pow : Q → Q → Q.

(** The "annualized return" block; [None] of the outer option is an
    exception inside the block. *)
Definition annualized_block (pf : Portfolio) (total_ret : option Q) : option (option Q) :=
  match total_ret with
  | Some r =>
      match head (pf_wrapper_index pf), last (pf_wrapper_index pf) with
      | Some d0, Some d1 =>
          let years := (inject_Z (d1 - d0) / (36525 # 100))%Q in
          if Qpos years
          then Some (Some ((float_pow (1 + r / 100) (1 / years) - 1) * 100)%Q)
          else Some None
      | _, _ => None                                  (* idx[-1]: IndexError *)
      end
  | None => Some None
  end.

(** The "trade statistics" block; [None] is an exception inside the block. *)
Definition trade_block (pf : Portfolio) : option TradeStats :=
  match pf_trades pf with
  | None => None                                      (* the access raises *)
  | Some None => Some (no_trade_stats (Some 0%Q))
  | Some (Some trades) =>
      match tf_rows trades with
      | [] => Some (no_trade_stats (Some 0%Q))
      | t0 :: ts =>
          let n := inject_Z (Z.of_nat (length (tf_rows trades))) in
          if negb (has_column trades "PnL") then None  (* trades['PnL']: KeyError *)
          else
            let wins := filter (λ t, Qpos (PnL t) = true) (tf_rows trades) in
            let losses := filter (λ t, Qneg (PnL t) = true) (tf_rows trades) in
            let has_ret := has_column trades "Return" in
            let avg (l : list TradeRow) : option Q :=
              match l with
              | [] => None
              | _ => if has_ret then Some (Qmean (Return <$> l) * 100)%Q else None
              end in
            let total_wins := match wins with [] => 0%Q | _ => Qsum (PnL <$> wins) end in
            let total_losses :=
              match losses with [] => 0%Q | _ => Qabs (Qsum (PnL <$> losses)) end in
            Some {| ts_total_trades := Some n;
                    ts_win_rate :=
                      Some (inject_Z (Z.of_nat (length wins)) / n * 100)%Q;
                    ts_avg_winning_trade := avg wins;
                    ts_avg_losing_trade := avg losses;
                    ts_profit_factor :=
                      if Qpos total_losses then Some (total_wins / total_losses)%Q else None;
                    ts_best_return :=
                      if has_ret then Some (Qlist_max (Return t0) (Return <$> ts) * 100)%Q
                      else None;
                    ts_worst_return :=
                      if has_ret then Some (Qlist_min (Return t0) (Return <$> ts) * 100)%Q
                      else None |}
      end
  end.

Definition put_trade_stats (s : TradeStats) (stats : gmap string (option Q))
    : gmap string (option Q) :=
  <["worst_return" := ts_worst_return s]>
  (<["best_return" := ts_best_return s]>
  (<["profit_factor" := ts_profit_factor s]>
  (<["avg_losing_trade" := ts_avg_losing_trade s]>
  (<["avg_winning_trade" := ts_avg_winning_trade s]>
  (<["win_rate" := ts_win_rate s]>
  (<["total_trades" := ts_total_trades s]> stats)))))).

Definition get_extended_stats (pf : Portfolio) : gmap string (option Q) :=
  match pf_stats pf METRICS with
  | None => all_None EXTENDED_METRICS                (* except Exception *)
  | Some base_stats =>
      let stats : gmap string (option Q) :=
        <["calmar_ratio" := dict_get base_stats "Calmar Ratio"]>
        (<["sortino_ratio" := dict_get base_stats "Sortino Ratio"]>
        (<["sharpe_ratio" := dict_get base_stats "Sharpe Ratio"]>
        (<["max_dd" := dict_get base_stats "Max Drawdown [%]"]>
        (<["total_return" := dict_get base_stats "Total Return [%]"]> ∅)))) in
      let stats :=
        <["annualized_return" :=
            default None (annualized_block pf (dict_get stats "total_return"))]> stats in
      put_trade_stats (default (no_trade_stats None) (trade_block pf)) stats
  end.

End ExtendedStats.

(** ** Cross-Sectional Aggregator and rankings *)

(** results/strategy_metrics.csv as read back: the header and the rows.
    The cell of a row under a numeric header is [num r header]; an empty
    cell has no value. *)
Record Table := {
  columns : list string;
  rows : list Row
}.

Definition num (r : Row) (c : string) : option Q := default None (metrics r !! c).

Definition TR : string := "Total Return [%]".
Definition SR : string := "Sharpe Ratio".
Definition MDD : string := "Max Drawdown [%]".

Definition has_columns (cs : list string) (df : Table) : bool :=
  forallb (λ c, bool_decide (c ∈ columns df)) cs.

(** [df.dropna(subset=['Total Return [%]', 'Sharpe Ratio'])] *)
Definition dropna_subset (rs : list Row) : list Row :=
  filter (λ r, is_Some (num r TR) ∧ is_Some (num r SR)) rs.

Definition is_benchmark (r : Row) : bool := String.eqb (Strategy r) "Benchmark".

(** Arithmetic on cells: a missing operand gives a missing result. *)
Definition lift2 (f : Q → Q → Q) (a b : option Q) : option Q :=
  match a, b with
  | Some x, Some y => Some (f x y)
  | _, _ => None
  end.

(** Descending order on sort keys, missing keys last: [key_ge a b] when a
    row with key [a] may stand before a row with key [b]. *)
Definition key_ge (a b : option Q) : bool :=
  match a, b with
  | _, None => true
  | None, Some _ => false
  | Some x, Some y => if Qlt_le_dec x y then false else true
  end.

Fixpoint insert_desc {A} (key : A → option Q) (x : A) (l : list A) : list A :=
  match l with
  | [] => [x]
  | y :: l' => if key_ge (key x) (key y) then x :: l else y :: insert_desc key x l'
  end.

(** Modelled from the spec: the descending sort behind both rankings
    ("sort descending ...; ties are broken by input order (stable sort)");
    the sort itself is pandas code ([nlargest], [sort_values]), not under
    src/.  Rows without a key come last. *)
Definition sort_desc {A} (key : A → option Q) (l : list A) : list A :=
  foldr (insert_desc key) [] l.

(** [df.nlargest(n, column)] *)
Definition nlargest {A} (n : nat) (key : A → option Q) (l : list A) : list A :=
  take n (sort_desc key l).

(** [x] may stand before [y] in a descending ranking by [key]. *)
Definition ranks_before {A} (key : A → option Q) (x y : A) : Prop :=
  key_ge (key x) (key y) = true.

(** Two sort keys are tied: both present and equal as numbers. *)
Definition tied (v : Q) (k : option Q) : Prop :=
  match k with
  | Some x => (x == v)%Q
  | None => False
  end.

#[global] Instance tied_dec (v : Q) (k : option Q) : Decision (tied v k).
Proof.
  destruct k as [x|]; cbn; [|right; tauto].
  destruct (Qeq_dec x v); [left | right]; assumption.
Defined.

(** *** build_dashboard.py: the pure outperformer ranking *)

(** [benchmark_returns.get(ticker, 0)]: the default when the ticker has no
    Benchmark row; with several Benchmark rows the lookup is not a number
    and the comparison that uses it raises. *)
Definition benchmark_get (bench : list Row) (ticker : string) : option Q :=
  match filter (λ b, Ticker b = ticker) bench with
  | [] => Some 0%Q
  | [b] => num b TR
  | _ => None
  end.

Record DashRow := {
  dr_row : Row;
  dr_Beat_Market : string;          (* 'Yes' or 'No' *)
  dr_Market_Outperf : option Q
}.

Record RankedDashRow := {
  rd_Rank : nat;
  rd_row : DashRow
}.

Definition dash_return (d : DashRow) : option Q := num (dr_row d) TR.

Definition add_beat_market (bench : list Row) (r : Row) : result DashRow :=
  if is_benchmark r then
    Ok {| dr_row := r; dr_Beat_Market := "No"; dr_Market_Outperf := Some 0%Q |}
  else
    match benchmark_get bench (Ticker r) with
    | None => Raised "ValueError"
    | Some b =>
        Ok {| dr_row := r;
              dr_Beat_Market := if Series.gt1 (num r TR) (Some b) then "Yes" else "No";
              dr_Market_Outperf := lift2 Qminus (num r TR) (Some b) |}
    end.

Fixpoint apply_rows {A B} (f : A → result B) (l : list A) : result (list B) :=
  match l with
  | [] => Ok []
  | x :: l' =>
      match f x with
      | Raised e => Raised e
      | Ok y =>
          match apply_rows f l' with
          | Raised e => Raised e
          | Ok ys => Ok (y :: ys)
          end
      end
  end.

Definition outperformers (ds : list DashRow) : list DashRow :=
  filter (λ d, is_benchmark (dr_row d) = false ∧ dr_Beat_Market d = "Yes"%string) ds.

Definition add_rank {A B} (mk : nat → A → B) (l : list A) : list B :=
  imap (λ i x, mk (S i) x) l.

(** The table [top10] of build_dashboard.py. *)
Definition top10 (df : Table) : result (list RankedDashRow) :=
  if negb (has_columns ["Ticker"; "Strategy"; TR; SR] df) then Raised "KeyError"
  else
    let rs := dropna_subset (rows df) in
    let bench := filter (λ r, is_benchmark r = true) rs in
    match apply_rows (add_beat_market bench) rs with
    | Raised e => Raised e
    | Ok ds =>
        if negb (has_columns [MDD] df) then Raised "KeyError"
        else Ok (add_rank (λ i d, {| rd_Rank := i; rd_row := d |})
                   (nlargest 20 dash_return (outperformers ds)))
    end.

(** A strategy row beats its ticker's benchmark: its total return exceeds
    the benchmark return looked up for its ticker (0 when the ticker has no
    Benchmark row). *)
Definition beats_benchmark (bench : list Row) (r : Row) : Prop :=
  ∃ x b, num r TR = Some x ∧ benchmark_get bench (Ticker r) = Some b ∧ (b < x)%Q.

(** The rows the outperformer ranking chooses from. *)
Definition qualifies (bench : list Row) (r : Row) : bool :=
  negb (is_benchmark r)
  && match benchmark_get bench (Ticker r) with
     | Some b => Series.gt1 (num r TR) (Some b)
     | None => false
     end.

(** The input row of a line of [top10]. *)
Definition ranked_row (d : RankedDashRow) : Row := dr_row (rd_row d).

(** *** top_performers_analysis.py: the composite-score ranking *)

Record Merged := {
  mg_row : Row;
  Benchmark_Return : option Q;
  Benchmark_Sharpe : option Q;
  Beat_Market : bool;
  Outperformance : option Q
}.

Record Ranked := {
  rk_merged : Merged;
  Composite_Score : option Q;
  Rank : nat
}.

Definition mk_merged (r : Row) (bret bsh : option Q) : Merged :=
  {| mg_row := r; Benchmark_Return := bret; Benchmark_Sharpe := bsh;
     Beat_Market := Series.gt1 (num r TR) bret;
     Outperformance := lift2 Qminus (num r TR) bret |}.

(** [strategies_only.merge(benchmark_data, on='Ticker', how='left')]
    followed by the two derived columns: one line per matching Benchmark
    row, one line with missing benchmark cells when there is none. *)
Definition merge_left (bench : list Row) (r : Row) : list Merged :=
  match filter (λ b, Ticker b = Ticker r) bench with
  | [] => [mk_merged r None None]
  | bs => (λ b, mk_merged r (num b TR) (num b SR)) <$> bs
  end.

(** The filter of the "only the best" step. *)
Definition composite_filter (m : Merged) : bool :=
  Series.gt1 (num (mg_row m) SR) (Some (5 # 10))
  && Beat_Market m
  && Series.gt1 (num (mg_row m) TR) (Some 0%Q).

Definition neg1 (a : option Q) : option Q := Qopp <$> a.

Definition composite_score (m : Merged) : option Q :=
  let r := mg_row m in
  lift2 Qplus
    (lift2 Qplus
       (lift2 Qplus
          (lift2 Qmult (num r SR) (Some (4 # 10)))
          (lift2 Qmult (lift2 Qdiv (num r TR) (Some 100%Q)) (Some (3 # 10))))
       (lift2 Qmult (lift2 Qdiv (Outperformance m) (Some 100%Q)) (Some (2 # 10))))
    (lift2 Qmult (lift2 Qdiv (neg1 (num r MDD)) (Some 100%Q)) (Some (1 # 10))).

Definition display_cols : list string :=
  ["Rank"; "Ticker"; "Strategy"; "Total Return [%]"; "Sharpe Ratio";
   "Sortino Ratio"; "Max Drawdown [%]"; "Calmar Ratio";
   "Outperformance"; "Total Trades"; "Win Rate [%]"; "Composite_Score"]%string.

Definition top_n : nat := 25.

(** The frame [strategies_only] after line 23: the strategy rows joined to
    the Benchmark rows of their ticker, with the two derived columns. *)
Definition merged_frame (rs : list Row) : list Merged :=
  let strategies_only := filter (λ r, is_benchmark r = false) rs in
  let benchmark_data := filter (λ r, is_benchmark r = true) rs in
  strategies_only ≫= merge_left benchmark_data.

(** The frame [top_strategies] after line 45. *)
Definition top_strategies (df : Table) : result (list Ranked) :=
  if negb (has_columns ["Ticker"; "Strategy"; TR; SR] df) then Raised "KeyError"
  else
    let merged := merged_frame (dropna_subset (rows df)) in
    let kept := filter (λ m, composite_filter m = true) merged in
    if negb (has_columns [MDD] df) then Raised "KeyError"
    else
      let scored := (λ m, (m, composite_score m)) <$> kept in
      let sorted := sort_desc snd scored in
      Ok (add_rank (λ i ms, {| rk_merged := ms.1; Composite_Score := ms.2; Rank := i |})
            sorted).

(** The columns of [top_strategies]: those of the input and the added ones. *)
Definition top_strategies_columns (df : Table) : list string :=
  columns df ++ ["Benchmark_Return"; "Benchmark_Sharpe"; "Beat_Market";
                 "Outperformance"; "Composite_Score"; "Rank"]%string.

(** What the script leaves behind: the lines of the ranking table of
    top_performers.html and the lines of
    results/top_performers_detailed.csv. *)
Record TopPerformersOutput := {
  top_display : list Ranked;
  detailed_csv : list Ranked
}.

Definition top_performers_analysis (df : Table) : result TopPerformersOutput :=
  match top_strategies df with
  | Raised e => Raised e
  | Ok ts =>
      if negb (forallb (λ c, bool_decide (c ∈ top_strategies_columns df)) display_cols)
      then Raised "KeyError"
      else Ok {| top_display := take top_n ts; detailed_csv := ts |}
  end.

(** ** Output file names (strategy_backtest.py, safe_filename) *)

(** A Python str is the sequence of its code points; for a string of ASCII
    characters these are the character codes. *)
Definition codepoints (s : string) : list N :=
  N_of_ascii <$> String.list_ascii_of_string s.

Section SafeFilename.
(** [str.isalnum] on the code points above 127, which the class [\w] of a
    str pattern consults there. *)
Variable isalnum_unicode : N → bool.

(** [\w]: letters, digits and the underscore. *)
Definition re_word (c : N) : bool :=
  if (c <? 128)%N then
    ((48 <=? c) && (c <=? 57) || (65 <=? c) && (c <=? 90)
     || (97 <=? c) && (c <=? 122) || (c =? 95))%N
  else isalnum_unicode c.

(** The characters outside the negated class [[^\w\-_\. ]]. *)
Definition re_kept (c : N) : bool :=
  (re_word c || (c =? 45) || (c =? 95) || (c =? 46) || (c =? 32))%N.

(** [re.sub(r"[^\w\-_\. ]", "_", s)] *)
Definition safe_filename (s : list N) : list N :=
  (λ c, if re_kept c then c else 95%N) <$> s.

(** The characters that end as an underscore: the underscore itself and
    the characters the pattern replaces. *)
Definition becomes_underscore (c : N) : Prop := re_kept c = false ∨ c = 95%N.

(** The report of a ticker: [f"{safe_filename(ticker)}_analysis.html"]. *)
Definition analysis_file (ticker : list N) : list N :=
  safe_filename ticker ++ codepoints "_analysis.html".

End SafeFilename.

(** ** Display of a metric (strategy_backtest.py, format_stat_value) *)

Definition digit_char (n : Z) : ascii := ascii_of_nat (48 + Z.to_nat (n mod 10)).

(** The [w] lowest decimal digits of [n], most significant first. *)
Fixpoint low_digits (w : nat) (n : Z) : string :=
  match w with
  | O => ""
  | S w' => low_digits w' (n / 10) +:+ String (digit_char n) ""
  end.

(** The decimal numeral of a natural number, without leading zeros. *)
Fixpoint nat_digits (fuel : nat) (n : Z) : string :=
  match fuel with
  | O => ""
  | S fuel' =>
      if n <? 10 then String (digit_char n) ""
      else nat_digits fuel' (n / 10) +:+ String (digit_char n) ""
  end.

Definition str_nat (n : Z) : string := nat_digits (S (Z.to_nat (Z.log2 n))) n.

(** [str(n)] for an int. *)
Definition str_int (n : Z) : string :=
  if n <? 0 then "-" +:+ str_nat (- n) else str_nat n.

(** The integer nearest to [q], the even one of the two when [q] lies
    half-way. *)
Definition round_half_even (q : Q) : Z :=
  let f := Qfloor q in
  match (q - inject_Z f ?= 1 # 2)%Q with
  | Lt => f
  | Gt => f + 1
  | Eq => if Z.even f then f else f + 1
  end.

(** [f"{v:.<d>f}"]: the sign of [v], then [|v|] rounded to [d] decimals,
    written with at least one digit before the point and exactly [d] after
    it; no point when [d] is 0. *)
Definition format_fixed (d : nat) (v : Q) : string :=
  let n := round_half_even (Qabs v * inject_Z (10 ^ Z.of_nat d)) in
  (if Qlt_le_dec v 0 then "-" else "")
  +:+ str_nat (n / 10 ^ Z.of_nat d)
  +:+ match d with
      | O => ""
      | _ => "." +:+ low_digits d n
      end.

(** [int(v)] on a float: the fraction is dropped. *)
Definition int_of (v : Q) : Z := Z.quot (Qnum v) (Z.pos (Qden v)).

Definition percent_metrics : list string :=
  ["total_return"; "annualized_return"; "max_dd"; "win_rate";
   "avg_winning_trade"; "avg_losing_trade"; "best_return"; "worst_return"]%string.

Definition count_metrics : list string := ["total_trades"]%string.

Definition ratio_metrics : list string :=
  ["sharpe_ratio"; "sortino_ratio"; "calmar_ratio"; "profit_factor"]%string.

Definition format_stat_value (metric_name : string) (value : option Q) : string :=
  match value with
  | None => "N/A"
  | Some v =>
      if bool_decide (metric_name ∈ percent_metrics) then format_fixed 2 v +:+ "%"
      else if bool_decide (metric_name ∈ count_metrics) then str_int (int_of v)
      else if bool_decide (metric_name ∈ ratio_metrics) then format_fixed 3 v
      else format_fixed 2 v
  end.

(** The number a decimal numeral denotes: an optional minus sign, digits,
    and optionally a point followed by digits. *)
Definition is_digit (c : ascii) : bool :=
  let n := nat_of_ascii c in (48 <=? n)%nat && (n <=? 57)%nat.

Fixpoint digits_value (acc : Z) (s : string) : option Z :=
  match s with
  | EmptyString => Some acc
  | String c s' =>
      if is_digit c then digits_value (10 * acc + (Z.of_nat (nat_of_ascii c) - 48)) s'
      else None
  end.

Fixpoint split_dot (s : string) : string * option string :=
  match s with
  | EmptyString => (EmptyString, None)
  | String c s' =>
      if Ascii.eqb c "." then (EmptyString, Some s')
      else let '(a, b) := split_dot s' in (String c a, b)
  end.

Definition unsigned_value (s : string) : option Q :=
  match split_dot s with
  | (EmptyString, _) => None
  | (i, None) => inject_Z <$> digits_value 0 i
  | (i, Some f) =>
      ip ← digits_value 0 i;
      fp ← digits_value 0 f;
      Some (inject_Z ip + inject_Z fp / inject_Z (10 ^ Z.of_nat (String.length f)))%Q
  end.

Definition decimal_value (s : string) : option Q :=
  match s with
  | EmptyString => None
  | String c s' =>
      if Ascii.eqb c "-" then Qopp <$> unsigned_value s' else unsigned_value s
  end.

(** A numeral starts with a minus sign or a digit. *)
Definition numeral_head (s : string) : Prop :=
  ∃ c s', s = String c s' ∧ (c = "-"%char ∨ is_digit c = true).

(** The statistics table of a ticker's report: the label column and the
    column of one portfolio. *)
Definition metric_labels : gmap string string :=
  list_to_map
    [("total_return", "Total Return"); ("annualized_return", "Annual Return");
     ("max_dd", "Max Drawdown"); ("sharpe_ratio", "Sharpe Ratio");
     ("sortino_ratio", "Sortino Ratio"); ("calmar_ratio", "Calmar Ratio");
     ("total_trades", "Total Trades"); ("win_rate", "Win Rate");
     ("avg_winning_trade", "Avg Win"); ("avg_losing_trade", "Avg Loss");
     ("profit_factor", "Profit Factor"); ("best_return", "Best Trade");
     ("worst_return", "Worst Trade")]%string.

Definition table_metrics : list string :=
  (λ metric, default metric (metric_labels !! metric)) <$> EXTENDED_METRICS.

Definition table_column (extended : gmap string (option Q)) : list string :=
  (λ metric, format_stat_value metric (dict_get extended metric)) <$> EXTENDED_METRICS.

(** ** Curves of a report (strategy_backtest.py, the figure of the main loop) *)

(** [align_weekly_to_daily(series, daily_index, start)]: the weekly series
    carried forward onto the daily index and cut at [start]; the index and
    the values of the result. *)
Definition align_weekly_to_daily {A} (widx : list Z) (series : Series.t A)
    (daily_index : list Z) (start : Z) : list Z * Series.t A :=
  let aligned := reindex_ffill widx series daily_index in
  (loc_from start daily_index, loc_from_values start daily_index aligned).

(** [.ffill()]: a missing cell takes the last value before it. *)
Fixpoint ffill_from {A} (prev : option A) (s : Series.t A) : Series.t A :=
  match s with
  | [] => []
  | x :: s' =>
      let y := match x with Some _ => x | None => prev end in
      y :: ffill_from y s'
  end.

Definition ffill {A} (s : Series.t A) : Series.t A := ffill_from None s.

(** [.bfill()]: a missing cell takes the next value after it. *)
Fixpoint bfill {A} (s : Series.t A) : Series.t A :=
  match s with
  | [] => []
  | x :: s' =>
      let r := bfill s' in
      match x with
      | Some _ => x
      | None => default None (head r)
      end :: r
  end.

(** One column of [df_equity]: [.ffill().bfill()]. *)
Definition fill_gaps {A} (s : Series.t A) : Series.t A := bfill (ffill s).

(** The values present in a column. *)
Definition values_of {A} (s : Series.t A) : list A := omap id s.

(** ** Weekly bars: what the fetch preserves (strategy_backtest.py, download_weekly) *)

(** A bar whose five cells are present and whose prices are consistent:
    the low is the lowest and the high the highest of its four prices. *)
Definition ohlc_consistent (b : Bar) : Prop :=
  ∃ o h l c v,
    b_Open b = Some o ∧ b_High b = Some h ∧ b_Low b = Some l
    ∧ b_Close b = Some c ∧ b_Volume b = Some v
    ∧ (l <= o <= h)%Q ∧ (l <= c <= h)%Q.

(** [str.lower] on ASCII. *)
Fixpoint lower (s : string) : string :=
  match s with
  | EmptyString => EmptyString
  | String c s' => String (to_lower c) (lower s')
  end.

(** ** The summary table of a run (strategy_backtest.py, main loop) *)

(** The names under which the statistics engine reports the five base
    metrics (the keys read in get_extended_stats). *)
Definition METRIC_TITLES : list string :=
  ["Total Return [%]"; "Max Drawdown [%]"; "Sharpe Ratio"; "Sortino Ratio";
   "Calmar Ratio"]%string.

(** The order of the four rows of a ticker in the summary table. *)
Definition STRATEGY_ORDER : list string :=
  ["Trend"; "High_Vol"; "Low_Vol"; "Benchmark"]%string.

Section PipelineOutcome.
Context `{Indicators} `{StatsEngine}.
Variable yf_download : string → DataFrame.

(** The iteration of a ticker reaches [all_results.append]. *)
Definition has_results (ticker : string) : bool :=
  match analyze yf_download ticker with
  | Ok (Some _) => true
  | _ => false
  end.

End PipelineOutcome.

(** ** build_dashboard.py: the summary by strategy and the key findings *)

(** The order of str: by code points, position by position. *)
Definition str_le (a b : string) : Prop := String.leb a b = true.

#[global] Instance str_le_dec (a b : string) : Decision (str_le a b).
Proof. unfold str_le. apply _. Defined.

(** The keys of a group-by: each name once, ascending. *)
Definition sorted_keys (names : list string) : list string :=
  merge_sort str_le (remove_dups names).

(** The frame [df] after line 31: the cleaned rows with the columns
    Beat_Market and Market_Outperf. *)
Definition dash_frame (df : Table) : result (list DashRow) :=
  if negb (has_columns ["Ticker"; "Strategy"; TR; SR] df) then Raised "KeyError"
  else
    let rs := dropna_subset (rows df) in
    let bench := filter (λ r, is_benchmark r = true) rs in
    apply_rows (add_beat_market bench) rs.

(** The mean of the values present, missing when there is none. *)
Definition mean_of (l : list Q) : option Q :=
  match l with
  | [] => None
  | _ => Some (Qmean l)
  end.

(** An f-string field [{x:.<d>f}] for a cell that may be NaN. *)
Definition fmt_float (d : nat) (x : option Q) : string :=
  match x with
  | Some v => format_fixed d v
  | None => "nan"
  end.

Record SummaryRow := {
  sm_Strategy : string;
  sm_Wins : nat;
  sm_Avg_Return : option Q;
  sm_Avg_Sharpe : option Q;
  sm_Count : nat
}.

Record Dashboard := {
  dash_top10 : list RankedDashRow;
  dash_summary : list SummaryRow;
  dash_findings : list string
}.

Definition beat_yes (d : DashRow) : Prop := dr_Beat_Market d = "Yes"%string.

Section Dashboard.
(** [numpy.round(x, decimals)], behind [DataFrame.round]. *)
Variable np_round : nat → Q → Q.

(** The strategies of the non-Benchmark rows. *)
Definition strategies_of (ds : list DashRow) : list DashRow :=
  filter (λ d, is_benchmark (dr_row d) = false) ds.

(** The group keys of [groupby('Strategy')]. *)
Definition group_keys (ds : list DashRow) : list string :=
  sorted_keys ((λ d, Strategy (dr_row d)) <$> ds).

Definition strategy_group (ds : list DashRow) (s : string) : list DashRow :=
  filter (λ d, Strategy (dr_row d) = s) ds.

Definition summary_row (ds : list DashRow) (s : string) : SummaryRow :=
  let g := strategy_group ds s in
  {| sm_Strategy := s;
     sm_Wins := length (filter beat_yes g);
     sm_Avg_Return := np_round 2 <$> mean_of (omap (λ d, num (dr_row d) TR) g);
     sm_Avg_Sharpe := np_round 2 <$> mean_of (omap (λ d, num (dr_row d) SR) g);
     sm_Count := length g |}.

(** [strategy_summary] of lines 52-60. *)
Definition strategy_summary (ds : list DashRow) : list SummaryRow :=
  let strategies := strategies_of ds in
  summary_row strategies <$> group_keys strategies.

(** The win rate of the key findings. *)
Definition findings_win_rate (total_wins total_tested : nat) : Q :=
  if (0 <? total_tested)%nat
  then (inject_Z (Z.of_nat total_wins) / inject_Z (Z.of_nat total_tested) * 100)%Q
  else 0%Q.

(** The script from line 12 to the key findings; the values that reach the
    page. *)
Definition build_dashboard (df : Table) : result Dashboard :=
  match dash_frame df with
  | Raised e => Raised e
  | Ok ds =>
      match top10 df with
      | Raised e => Raised e
      | Ok top =>
          let summary := strategy_summary ds in
          let total_wins := length (filter beat_yes (strategies_of ds)) in
          let total_tested := length (strategies_of ds) in
          let win_rate := findings_win_rate total_wins total_tested in
          match top with
          | [] => Raised "IndexError"                          (* top10.iloc[0] *)
          | best_combo :: _ =>
              match filter (λ s, sm_Strategy s = "Trend"%string) summary with
              | [] => Raised "IndexError"                      (* .values[0] *)
              | trend :: _ =>
                  let trend_wins := sm_Wins trend in
                  let best := ranked_row best_combo in
                  Ok {| dash_top10 := top;
                        dash_summary := summary;
                        dash_findings :=
                          [ "[+] " +:+ format_fixed 0 win_rate
                            +:+ "% of strategy-stock combinations beat buy-and-hold ("
                            +:+ str_int (Z.of_nat total_wins) +:+ "/"
                            +:+ str_int (Z.of_nat total_tested) +:+ ")";
                            "[+] Best performer: " +:+ Ticker best +:+ " with "
                            +:+ Strategy best +:+ " strategy ("
                            +:+ fmt_float 1 (num best TR) +:+ "% return, "
                            +:+ fmt_float 2 (num best SR) +:+ " Sharpe)";
                            "[+] Trend strategy beat market on "
                            +:+ str_int (Z.of_nat trend_wins)
                            +:+ " stocks (most consistent)";
                            "[+] Analysis period: Jan 2022 - Nov 2024 (AI transformation era)"
                          ] |}
              end
          end
      end
  end.

End Dashboard.

(** ** top_performers_analysis.py: the two small panels *)

(** The input row of a ranked line. *)
Definition rk_row (k : Ranked) : Row := mg_row (rk_merged k).

Record CountRow := {
  sc_Strategy : string;
  sc_Ticker : nat;                 (* 'Ticker': 'count' *)
  sc_Sharpe : option Q;            (* 'Sharpe Ratio': 'mean' *)
  sc_Return : option Q             (* 'Total Return [%]': 'mean' *)
}.

(** [strategy_counts]: the first [top_n] lines grouped by strategy. *)
Definition strategy_counts (ts : list Ranked) : list CountRow :=
  let shown := take top_n ts in
  (λ s, let g := filter (λ k, Strategy (rk_row k) = s) shown in
        {| sc_Strategy := s;
           sc_Ticker := length g;
           sc_Sharpe := mean_of (omap (λ k, num (rk_row k) SR) g);
           sc_Return := mean_of (omap (λ k, num (rk_row k) TR) g) |})
    <$> sorted_keys ((λ k, Strategy (rk_row k)) <$> shown).

Record BestRow := {
  bs_Strategy : string;
  bs_Best_Stock : string;
  bs_Return : string;
  bs_Sharpe : string;
  bs_Rank : nat
}.

(** One turn of the loop over the three strategies: the first line of the
    ranking with that strategy, if there is one. *)
Definition best_of (ts : list Ranked) (strategy : string) : option BestRow :=
  match filter (λ k, Strategy (rk_row k) = strategy) ts with
  | [] => None
  | best :: _ =>
      Some {| bs_Strategy := strategy;
              bs_Best_Stock := Ticker (rk_row best);
              bs_Return := fmt_float 2 (num (rk_row best) TR) +:+ "%";
              bs_Sharpe := fmt_float 3 (num (rk_row best) SR);
              bs_Rank := Rank best |}
  end.

Definition best_per_strategy (ts : list Ranked) : list BestRow :=
  omap (best_of ts) ["Trend"; "High_Vol"; "Low_Vol"]%string.

(** ** verify_methodology.py: the independent check of the ranking *)

(** A strategy row with the three columns the script adds. *)
Record ManualRow := {
  mr_row : Row;
  mr_Benchmark_Return : option Q;
  mr_Manual_Beat_Market : bool;
  mr_Manual_Outperf : option Q
}.

Record RankedManual := {
  rm_Rank : nat;
  rm_row : ManualRow
}.

(** [strategies['Ticker'].map(benchmark_returns)] on a benchmark index
    without repeated tickers: the return of the ticker's Benchmark row,
    missing when there is none. *)
Definition benchmark_map (benchmarks : list Row) (ticker : string) : option Q :=
  match filter (λ b, Ticker b = ticker) benchmarks with
  | b :: _ => num b TR
  | [] => None
  end.

Definition manual_row (benchmarks : list Row) (r : Row) : ManualRow :=
  let br := benchmark_map benchmarks (Ticker r) in
  {| mr_row := r;
     mr_Benchmark_Return := br;
     mr_Manual_Beat_Market := Series.gt1 (num r TR) br;
     mr_Manual_Outperf := lift2 Qminus (num r TR) br |}.

(** [a >= b] on cells; false when one of them is missing. *)
Definition ge1 (a b : option Q) : bool :=
  match a, b with
  | Some x, Some y => if Qlt_le_dec x y then false else true
  | _, _ => false
  end.

(** [a <= 0] and [a < 0] on a cell. *)
Definition le0 (a : option Q) : bool :=
  match a with
  | Some x => if Qlt_le_dec 0 x then false else true
  | None => false
  end.

Definition lt0 (a : option Q) : bool := Series.gt1 (Some 0%Q) a.

(** [all(returns[i] >= returns[i+1] for i in range(len(returns)-1))] *)
Fixpoint is_sorted_desc (returns : list (option Q)) : bool :=
  match returns with
  | a :: (b :: _) as rest => ge1 a b && is_sorted_desc rest
  | _ => true
  end.

(** [.unique()]: each value once, in the order of first appearance. *)
Definition unique (l : list string) : list string :=
  reverse (remove_dups (reverse l)).

Definition three_strategies : list string := ["Trend"; "High_Vol"; "Low_Vol"]%string.

Record VerifyReport := {
  vr_total_rows : nat;
  vr_benchmarks : nat;
  vr_strategies : nat;
  vr_missing_benchmarks : list string;
  vr_outperformers : list ManualRow;
  vr_top20_manual : list RankedManual;
  vr_negative_in_top : list RankedManual;
  vr_not_beating : list RankedManual;
  vr_is_sorted : bool;
  vr_top20_check : list DashRow;
  vr_same_count : bool;
  vr_same_top : option bool
}.

(** The label [f"{Ticker}-{Strategy}"] of a line. *)
Definition combo_label (r : Row) : string := Ticker r +:+ "-" +:+ Strategy r.

(** The script, statement by statement; [Raised] is the exception that
    ends it. *)
Definition verify_methodology (df : Table) : result VerifyReport :=
  if negb (has_columns ["Ticker"; "Strategy"; TR; SR] df) then Raised "KeyError"
  else
    let benchmarks := filter (λ r, is_benchmark r = true) (rows df) in
    let strategies := filter (λ r, is_benchmark r = false) (rows df) in
    (* section 4: the lookup needs a benchmark index without repeats *)
    if negb (bool_decide (NoDup (Ticker <$> benchmarks))) then Raised "InvalidIndexError"
    else
      let manual := manual_row benchmarks <$> strategies in
      let missing_benchmarks :=
        unique ((λ m, Ticker (mr_row m))
                  <$> filter (λ m, mr_Benchmark_Return m = None) manual) in
      let winners := filter (λ m, mr_Manual_Beat_Market m = true) manual in
      (* section 5: len(outperformers)/len(strategies), then per strategy *)
      match strategies with
      | [] => Raised "ZeroDivisionError"
      | _ =>
          if existsb (λ s, bool_decide (filter (λ m, Strategy (mr_row m) = s) manual = []))
                     three_strategies
          then Raised "ZeroDivisionError"
          else if negb (has_columns [MDD] df) then Raised "KeyError"
          else
            (* section 6 *)
            let top20_manual :=
              add_rank (λ i m, {| rm_Rank := i; rm_row := m |})
                (nlargest 20 (λ m, num (mr_row m) TR) winners) in
            (* section 7 *)
            let negative_in_top :=
              filter (λ t, lt0 (num (mr_row (rm_row t)) TR) = true) top20_manual in
            let not_beating :=
              filter (λ t, le0 (mr_Manual_Outperf (rm_row t)) = true) top20_manual in
            let is_sorted :=
              is_sorted_desc ((λ t, num (mr_row (rm_row t)) TR) <$> top20_manual) in
            (* section 8: the logic of build_dashboard.py again *)
            match dash_frame df with
            | Raised e => Raised e
            | Ok ds =>
                let top20_check := nlargest 20 dash_return (outperformers ds) in
                let same_count :=
                  bool_decide (length top20_check = length top20_manual) in
                let same_top :=
                  match top20_check, top20_manual with
                  | c :: _, m :: _ =>
                      Some (bool_decide (combo_label (mr_row (rm_row m))
                                         = combo_label (dr_row c)))
                  | _, _ => None
                  end in
                (* section 10: count/len(top20_manual) *)
                match top20_manual with
                | [] => Raised "ZeroDivisionError"
                | _ =>
                    Ok {| vr_total_rows := length (rows df);
                          vr_benchmarks := length benchmarks;
                          vr_strategies := length strategies;
                          vr_missing_benchmarks := missing_benchmarks;
                          vr_outperformers := winners;
                          vr_top20_manual := top20_manual;
                          vr_negative_in_top := negative_in_top;
                          vr_not_beating := not_beating;
                          vr_is_sorted := is_sorted;
                          vr_top20_check := top20_check;
                          vr_same_count := same_count;
                          vr_same_top := same_top |}
                end
            end
      end.

(** ** A reference instance of the indicator interface

    Textbook versions of the indicators (rolling maximum, exponential
    averages seeded by a simple average, Wilder's average true range, the
    band-following direction).  The general properties below hold for every
    instance; this one is used to run the pipeline on explicit price
    histories. *)

Module Ref.

Definition warmup {A} (n : nat) (s : Series.t A) : Series.t A :=
  imap (λ i x, if (S i <? n)%nat then None else x) s.

Definition all_present (l : list (option Q)) : option (list Q) := mapM id l.

Definition window_max (l : list (option Q)) : option Q :=
  match all_present l with
  | Some (x :: xs) => Some (foldl Qmax' x xs)
  | _ => None
  end.

Definition rolling_max (n : nat) (h : Series.t Q) : Series.t Q :=
  imap (λ i _, if (S i <? n)%nat then None
               else window_max (take n (drop (S i - n) h))) h.

Fixpoint smooth_from (α : Q) (prev : option Q) (l : Series.t Q) : Series.t Q :=
  match l with
  | [] => []
  | x :: l' =>
      let y := match prev, x with
               | Some p, Some v => Some (Qred (α * v + (1 - α) * p))
               | None, v => v
               | p, None => p
               end in
      y :: smooth_from α y l'
  end.

(** Exponential average with smoothing factor [α], no value before the
    [n]-th position. *)
Definition smooth (α : Q) (n : nat) (s : Series.t Q) : Series.t Q :=
  warmup n (smooth_from α None s).

Definition ema (c : Series.t Q) (n : nat) : Series.t Q :=
  smooth (2 # Pos.of_nat (n + 1)) n c.

Definition Qabs' (x : Q) : Q := if Qlt_le_dec x 0 then (- x)%Q else x.

Fixpoint true_range (pc : option Q) (rows : list (option Q * option Q * option Q))
    : Series.t Q :=
  match rows with
  | [] => []
  | (h, l, c) :: rest =>
      let tr := match h, l, pc with
                | Some h, Some l, Some p =>
                    Some (Qmax' (h - l) (Qmax' (Qabs' (h - p)) (Qabs' (l - p))))%Q
                | Some h, Some l, None => Some (h - l)%Q
                | _, _, _ => None
                end in
      tr :: true_range c rest
  end.

Definition atr (h l c : Series.t Q) (n : nat) : Series.t Q :=
  resize (length c) None
    (smooth (1 # Pos.of_nat n) n (true_range None (zip (zip h l) c))).

Fixpoint st_loop (dir : Z) (pub plb : option Q)
    (rows : list (option Q * option Q * option Q)) : list (option Q * option Z) :=
  match rows with
  | [] => []
  | (c, ub, lb) :: rest =>
      let '(d, ub', lb') :=
        if Series.gt1 c pub then (1, ub, lb)
        else if Series.lt1 c plb then (-1, ub, lb)
        else (dir,
              if (dir <? 0) && Series.gt1 ub pub then pub else ub,
              if (0 <? dir) && Series.lt1 lb plb then plb else lb) in
      (if 0 <? d then lb' else ub', Some d) :: st_loop d ub' lb' rest
  end.

Definition supertrend (h l c : Series.t Q) (n : nat) (k : Q)
    : Series.t Q * Series.t Z :=
  let a := atr h l c n in
  let mid := zip_with (lift2 (λ x y, (x + y) / 2)%Q) h l in
  let ub := zip_with (lift2 (λ m x, m + k * x)%Q) mid a in
  let lb := zip_with (lift2 (λ m x, m - k * x)%Q) mid a in
  let out := st_loop 1 None None (zip (zip c ub) lb) in
  (resize (length c) None (fst <$> out), resize (length c) None (snd <$> out)).

End Ref.

Program Definition ref_indicators : Indicators := {|
  ta_donchian_upper h l c n m := resize (length c) None (Ref.rolling_max n h);
  ta_supertrend := Ref.supertrend;
  ta_ema := Ref.ema;
  ta_atr := Ref.atr;
  vbt_MA_ewm x n := Ref.ema x n
|}.
Next Obligation. intros. apply length_resize. Qed.
Next Obligation. intros. apply length_resize. Qed.
Next Obligation. intros. apply length_resize. Qed.
Next Obligation.
  intros. unfold Ref.ema, Ref.smooth, Ref.warmup. rewrite length_imap.
  generalize (@None Q). induction c as [|x c IH]; intros p; [reflexivity|].
  cbn. f_equal. apply IH.
Qed.
Next Obligation. intros. apply length_resize. Qed.
Next Obligation.
  intros. unfold Ref.ema, Ref.smooth, Ref.warmup. rewrite length_imap.
  generalize (@None Q). induction x as [|y x IH]; intros p; [reflexivity|].
  cbn. f_equal. apply IH.
Qed.

(** A statistics engine that reports the total return of the run and has
    no value for the risk ratios. *)
Definition ref_stats : StatsEngine := {|
  vbt_stats kw index values trades metrics :=
    Some {[ "Total Return [%]"%string :=
              (λ v, Qred ((v / init_cash kw - 1) * 100)%Q) <$> last values ]}
|}.

(** ** Explicit price histories *)

Module Examples.

(** [n] consecutive trading days (Monday to Friday) from the Monday [d0]. *)
Definition weekdays (d0 : Z) (n : nat) : list Z :=
  (λ k : nat, d0 + 7 * Z.of_nat (k / 5) + Z.of_nat (k mod 5)) <$> seq 0 n.

(** Monday 2022-01-03. *)
Definition day0 : Z := 738158.

(** A provider frame whose five columns all hold the price [price d] (the
    volume column holds 1000) on the trading days [idx]. *)
Definition frame_of (idx : list Z) (price : Z → Q) : DataFrame :=
  {| df_columns := ["Close"; "High"; "Low"; "Open"; "Volume"]%string;
     df_index := idx;
     df_data := (λ d, [Some (price d); Some (price d); Some (price d);
                       Some (price d); Some 1000%Q]) <$> idx |}.

Definition no_data : DataFrame :=
  {| df_columns := []; df_index := []; df_data := [] |}.

(** 300 trading days at the price 10. *)
Definition quiet : DataFrame := frame_of (weekdays day0 300) (λ _, 10%Q).

(** 49 weeks at 10, then 20: the weekly close breaks out in week 50. *)
Definition breakout : DataFrame :=
  frame_of (weekdays day0 251) (λ d, if d <? day0 + 7 * 49 then 10%Q else 20%Q).

(** 21 weeks at 20, five weeks at 10, one week at 5. *)
Definition slump : DataFrame :=
  frame_of (weekdays day0 135)
    (λ d, if d <? day0 + 7 * 21 then 20%Q
          else if d <? day0 + 7 * 26 then 10%Q else 5%Q).

(** Three days in two weeks under lower-case headers, the open of the
    third day missing; and the same frame without its volume column. *)
Definition small_frame : DataFrame :=
  {| df_columns := ["open"; "high"; "low"; "close"; "adj close"; "volume"]%string;
     df_index := [day0; day0 + 1; day0 + 7];
     df_data := [ [Some 1; Some 3; Some (1 # 2); Some 2; Some 2; Some 100];
                  [Some 2; Some 4; Some 1; Some 3; Some 3; Some 200];
                  [None; Some 5; Some 2; Some 4; Some 4; Some 300] ]%Q |}.

Definition no_volume : DataFrame :=
  {| df_columns := ["open"; "high"; "low"; "close"; "adj close"]%string;
     df_index := df_index small_frame;
     df_data := take 5 <$> df_data small_frame |}.

(** A provider that knows three tickers. *)
Definition provider (ticker : string) : DataFrame :=
  if String.eqb ticker "NVDA" then breakout
  else if String.eqb ticker "AMD" then quiet
  else if String.eqb ticker "INTC" then slump
  else no_data.

Definition run_analyze : string → result (option Analysis) :=
  @analyze ref_indicators ref_stats provider.

Definition run_backtest : list string → result (list Row) :=
  @strategy_backtest ref_indicators ref_stats provider.

Definition trade_log (pf : Portfolio) : list TradeRow :=
  match pf_trades pf with
  | Some (Some t) => tf_rows t
  | _ => []
  end.

(** The trade logs of the two volatility portfolios of an analysis. *)
Definition low_vol_log (r : result (option Analysis)) : list TradeRow :=
  match r with
  | Ok (Some a) => trade_log (db_low_vol (an_daily a))
  | _ => []
  end.

Definition high_vol_log (r : result (option Analysis)) : list TradeRow :=
  match r with
  | Ok (Some a) => trade_log (db_high_vol (an_daily a))
  | _ => []
  end.

Definition intc_low_vol : list TradeRow := low_vol_log (run_analyze "INTC").
Definition intc_high_vol : list TradeRow := high_vol_log (run_analyze "INTC").

Definition rows_of_run (r : result (list Row)) : list Row :=
  match r with
  | Ok rs => rs
  | Raised _ => []
  end.

(** The rows of the summary table for the whole universe. *)
Definition rows0 : list Row := rows_of_run (run_backtest TICKERS).

(** The cells of a trade that matter for the commission: entry and exit
    day, closed or still open, value of the entry fill, the two fees. *)
Definition fills (r : TradeRow) : Z * Z * bool * Q * Q * Q :=
  (Entry_Timestamp r, Exit_Timestamp r, Status_Closed r,
   Qred (Size r * Avg_Entry_Price r), Qred (Entry_Fees r), Qred (Exit_Fees r)).

(** A portfolio whose statistics call raises although its trade log, with
    one winning trade, can be read. *)
Definition one_trade : TradeRow :=
  {| Size := 100; Entry_Timestamp := 738158; Avg_Entry_Price := 10;
     Entry_Fees := 2; Exit_Timestamp := 738165; Avg_Exit_Price := 12;
     Exit_Fees := 2; PnL := 196; Return := 196 # 1000; Status_Closed := true |}.

Definition broken_stats : Portfolio :=
  {| pf_kwargs := {| init_cash := INITIAL_CASH; freq := "1D"; size := None;
                     size_type := None; fees := None |};
     pf_wrapper_index := [738158; 738165];
     pf_value := [10000; 10196]%Q;
     pf_trades := Some (Some {| tf_columns := vbt_trade_columns;
                                tf_rows := [one_trade] |});
     pf_stats := λ _, None |}.

(** A results table: two tickers, three strategies and a benchmark each,
    with the metric columns the renderers read. *)
Definition csv_row (t s : string) (tr sr mdd : Q) : Row :=
  {| Ticker := t; Strategy := s;
     metrics := list_to_map
       [(TR, Some tr); (SR, Some sr); (MDD, Some mdd);
        ("Sortino Ratio"%string, Some sr); ("Calmar Ratio"%string, Some sr);
        ("Total Trades"%string, Some 4%Q); ("Win Rate [%]"%string, Some 50%Q)] |}.

Definition metrics_table : Table :=
  {| columns := ["Ticker"; "Strategy"; TR; MDD; SR; "Sortino Ratio";
                 "Calmar Ratio"; "Total Trades"; "Win Rate [%]"]%string;
     rows := [ csv_row "INTC" "Trend" (-(48 # 10)) (1 # 10) (-10);
               csv_row "INTC" "High_Vol" (-7) (-(2 # 10)) (-12);
               csv_row "INTC" "Low_Vol" (-(57 # 10)) (-(1 # 10)) (-9);
               csv_row "INTC" "Benchmark" (-(57 # 10)) (-(1 # 10)) (-30);
               csv_row "NVDA" "Trend" 50 (12 # 10) (-20);
               csv_row "NVDA" "High_Vol" 10 (6 # 10) (-5);
               csv_row "NVDA" "Low_Vol" 50 (9 # 10) (-10);
               csv_row "NVDA" "Benchmark" 30 1 (-25) ] |}.

Definition ranking_of {A} (r : result (list A)) : list A :=
  match r with
  | Ok l => l
  | Raised _ => []
  end.

Definition top10_example : list RankedDashRow := ranking_of (top10 metrics_table).
Definition top_strategies_example : list Ranked :=
  ranking_of (top_strategies metrics_table).

Definition output_example : TopPerformersOutput :=
  {| top_display := take top_n top_strategies_example;
     detailed_csv := top_strategies_example |}.

Definition empty_portfolio : Portfolio :=
  {| pf_kwargs := {| init_cash := INITIAL_CASH; freq := "1D"; size := None;
                     size_type := None; fees := None |};
     pf_wrapper_index := []; pf_value := []; pf_trades := Some None;
     pf_stats := λ _, None |}.

Definition no_analysis : Analysis :=
  {| an_ticker := ""; an_weekly := []; an_pf_trend := empty_portfolio;
     an_daily := {| db_high_vol := empty_portfolio; db_low_vol := empty_portfolio;
                    db_index := []; db_close := []; db_entries := [];
                    db_exits := [] |};
     an_first_dates := []; an_start := 0; an_benchmark := empty_portfolio |}.

(** The analysis of a run that completed with results. *)
Definition analysis_of (r : result (option Analysis)) (d : Analysis) : Analysis :=
  match r with
  | Ok (Some a) => a
  | _ => d
  end.

Definition nvda : Analysis := analysis_of (run_analyze "NVDA") no_analysis.

Definition nvda_weekly : list Bar := an_weekly nvda.

(** A stand-in for the power function where its value does not matter. *)
Definition pow1 (x y : Q) : Q := x.

End Examples.

(** ** Explicit inputs for the reports and the dashboards *)

Module Samples.

(** [numpy.round(x, d)]: to [d] decimals, a half-way case to the even
    neighbour. *)
Definition round_dec (d : nat) (x : Q) : Q :=
  (inject_Z (round_half_even (x * inject_Z (10 ^ Z.of_nat d)))
   / inject_Z (10 ^ Z.of_nat d))%Q.

(** A trade log with a winning, a losing and a break-even trade. *)
Definition lost : TradeRow :=
  {| Size := 100; Entry_Timestamp := 738172; Avg_Entry_Price := 12;
     Entry_Fees := 2; Exit_Timestamp := 738179; Avg_Exit_Price := 11;
     Exit_Fees := 2; PnL := -104; Return := -(104 # 1200); Status_Closed := true |}.

Definition even : TradeRow :=
  {| Size := 100; Entry_Timestamp := 738186; Avg_Entry_Price := 11;
     Entry_Fees := 0; Exit_Timestamp := 738193; Avg_Exit_Price := 11;
     Exit_Fees := 0; PnL := 0; Return := 0; Status_Closed := true |}.

Definition mixed_trades : TradesFrame :=
  {| tf_columns := vbt_trade_columns;
     tf_rows := [Examples.one_trade; lost; even] |}.

Definition mixed_log : Portfolio :=
  {| pf_kwargs := {| init_cash := INITIAL_CASH; freq := "1D"; size := None;
                     size_type := None; fees := None |};
     pf_wrapper_index := [738158; 738193];
     pf_value := [10000; 10092]%Q;
     pf_trades := Some (Some mixed_trades);
     pf_stats := λ _, None |}.

Definition mixed_stats : TradeStats :=
  default (no_trade_stats None) (trade_block mixed_log).

(** Two weekly labels (Sundays) and three trading days around them. *)
Definition two_weeks : list Z := [738164; 738171].
Definition three_days : list Z := [738162; 738165; 738172].

(** The provider frame of "ARM" under upper-case headers. *)
Definition upper_frame : DataFrame :=
  {| df_columns := ["OPEN"; "HIGH"; "LOW"; "CLOSE"; "ADJ CLOSE"; "VOLUME"]%string;
     df_index := df_index Examples.small_frame;
     df_data := df_data Examples.small_frame |}.

(** The table written by the run over the universe: the columns are the
    keys of the row dicts. *)
Definition run_table : Table :=
  {| columns := ["Ticker"; "Strategy"; "Total Return [%]"]%string;
     rows := Examples.rows0 |}.

(** The frame of the dashboard and the report of the verification script
    for the results table of the examples. *)
Definition dash_rows : list DashRow :=
  Examples.ranking_of (dash_frame Examples.metrics_table).

Definition no_report : VerifyReport :=
  {| vr_total_rows := 0; vr_benchmarks := 0; vr_strategies := 0;
     vr_missing_benchmarks := []; vr_outperformers := []; vr_top20_manual := [];
     vr_negative_in_top := []; vr_not_beating := []; vr_is_sorted := true;
     vr_top20_check := []; vr_same_count := true; vr_same_top := None |}.

Definition report : VerifyReport :=
  match verify_methodology Examples.metrics_table with
  | Ok rep => rep
  | Raised _ => no_report
  end.

End Samples.

(** * Properties *)

(** ** Series *)

Module SeriesFacts.
Import Series.

Lemma shift1_length {A} (s : t A) : length (shift1 s) = length s.
Proof. unfold shift1. rewrite length_take. cbn [length]. lia. Qed.

Lemma shift1_lookup_0 {A} (s : t A) : s ≠ [] → shift1 s !! 0%nat = Some None.
Proof. destruct s; [congruence | reflexivity]. Qed.

Lemma shift1_lookup_S {A} (s : t A) (i : nat) :
  (S i < length s)%nat → shift1 s !! S i = s !! i.
Proof. intros Hi. unfold shift1. rewrite lookup_take_lt by exact Hi. reflexivity. Qed.

Lemma gt1_true (a b : option Q) :
  gt1 a b = true ↔ ∃ x y, a = Some x ∧ b = Some y ∧ (y < x)%Q.
Proof.
  unfold gt1. split.
  - destruct a as [x|], b as [y|]; try discriminate.
    destruct (Qlt_le_dec y x); [eauto | discriminate].
  - intros (x & y & -> & -> & H). destruct (Qlt_le_dec y x) as [|Hle]; [reflexivity|].
    exfalso. exact (Qlt_not_le _ _ H Hle).
Qed.

Lemma eqz1_true (k : Z) (a : option Z) : eqz1 k a = true ↔ a = Some k.
Proof.
  unfold eqz1. destruct a as [x|]; [|split; discriminate].
  rewrite Z.eqb_eq. split; congruence.
Qed.

End SeriesFacts.

(** ** Signal Builder: weekly trend *)

Section TrendFacts.
Context `{Indicators}.
Variables close high low : Series.t Q.

Lemma band_lookup_true (a b : list bool) (t : nat) :
  Series.band a b !! t = Some true ↔ a !! t = Some true ∧ b !! t = Some true.
Proof.
  unfold Series.band. rewrite lookup_zip_with_Some. split.
  - intros (x & y & Hxy & Hx & Hy). symmetry in Hxy.
    apply andb_true_iff in Hxy as [-> ->]. split; assumption.
  - intros [Ha Hb]. exists true, true. split; [reflexivity | split; assumption].
Qed.

Lemma gt_lookup_true (a b : Series.t Q) (t : nat) :
  Series.gt a b !! t = Some true ↔
  ∃ x y, a !! t = Some (Some x) ∧ b !! t = Some (Some y) ∧ (y < x)%Q.
Proof.
  unfold Series.gt. rewrite lookup_zip_with_Some. split.
  - intros (x & y & Hxy & Hx & Hy). symmetry in Hxy.
    apply SeriesFacts.gt1_true in Hxy as (u & v & -> & -> & Hlt). eauto.
  - intros (x & y & Hx & Hy & Hlt). exists (Some x), (Some y).
    split; [|split; assumption]. symmetry. apply SeriesFacts.gt1_true. eauto.
Qed.

Lemma lt_lookup_true (a b : Series.t Q) (t : nat) :
  Series.lt a b !! t = Some true ↔
  ∃ x y, a !! t = Some (Some x) ∧ b !! t = Some (Some y) ∧ (x < y)%Q.
Proof.
  unfold Series.lt. rewrite lookup_zip_with_Some. split.
  - intros (x & y & Hxy & Hx & Hy). symmetry in Hxy. unfold Series.lt1 in Hxy.
    apply SeriesFacts.gt1_true in Hxy as (u & v & -> & -> & Hlt). eauto.
  - intros (x & y & Hx & Hy & Hlt). exists (Some x), (Some y).
    split; [|split; assumption]. symmetry. apply SeriesFacts.gt1_true. eauto.
Qed.

Lemma eqz_lookup_true (a : Series.t Z) (k : Z) (t : nat) :
  Series.eqz a k !! t = Some true ↔ a !! t = Some (Some k).
Proof.
  unfold Series.eqz. rewrite list_lookup_fmap_Some. split.
  - intros (x & Hk & Hx). symmetry in Hk. apply SeriesFacts.eqz1_true in Hk.
    subst x. exact Hx.
  - intros Ha. exists (Some k). split; [|exact Ha].
    symmetry. apply SeriesFacts.eqz1_true. reflexivity.
Qed.

Lemma shift1_lookup_Some {A} (s : Series.t A) (t : nat) (u : A) :
  Series.shift1 s !! t = Some (Some u) ↔ ∃ t', t = S t' ∧ (t < length s)%nat ∧ s !! t' = Some (Some u).
Proof.
  split.
  - intros Hs. assert (Hlt : (t < length s)%nat).
    { rewrite <- (SeriesFacts.shift1_length s). eapply lookup_lt_Some. exact Hs. }
    destruct t as [|t'].
    + rewrite SeriesFacts.shift1_lookup_0 in Hs; [discriminate|].
      destruct s; [cbn in Hlt; lia | discriminate].
    + exists t'. rewrite SeriesFacts.shift1_lookup_S in Hs by exact Hlt. auto.
  - intros (t' & -> & Hlt & Hs). rewrite SeriesFacts.shift1_lookup_S by exact Hlt.
    exact Hs.
Qed.

Lemma trend_entries_length :
  length (trend_entries close high low) = length close.
Proof.
  unfold trend_entries, Series.fillna_False, Series.band, Series.gt, Series.eqz.
  rewrite !length_zip_with, length_fmap, SeriesFacts.shift1_length.
  unfold trend_upper, trend_st_dir, trend_ema21, trend_ema50.
  rewrite ta_donchian_upper_length, ta_supertrend_length_dir, !ta_ema_length. lia.
Qed.

Lemma trend_exits_length :
  length (trend_exits close high low) = length close.
Proof.
  unfold trend_exits, Series.fillna_False, Series.band, Series.lt, Series.eqz.
  rewrite !length_zip_with, length_fmap.
  unfold trend_st_line, trend_st_dir.
  rewrite ta_supertrend_length_line, ta_supertrend_length_dir. lia.
Qed.

(** C8.  The Trend entry signal at a timestamp is true exactly when the
    close exceeds the 10-period channel high of the previous timestamp, the
    20-period/1.0 trend direction is up (1) and the 21-period EMA exceeds
    the 50-period EMA; the exit signal is true exactly when the close is
    below the trend bandline and the direction is down (-1).  A missing
    operand makes the right-hand side fail, so the signal is false, and
    both signals have a boolean at every timestamp of the price series. *)
Theorem trend_signal_rule (t : nat) :
  (trend_entries close high low !! t = Some true ↔
     ∃ c u f s,
       close !! t = Some (Some c)
       ∧ (∃ t', t = S t' ∧ trend_upper close high low !! t' = Some (Some u))
       ∧ (u < c)%Q
       ∧ trend_st_dir close high low !! t = Some (Some 1)
       ∧ trend_ema21 close !! t = Some (Some f)
       ∧ trend_ema50 close !! t = Some (Some s)
       ∧ (s < f)%Q)
  ∧ (trend_exits close high low !! t = Some true ↔
     ∃ c b,
       close !! t = Some (Some c)
       ∧ trend_st_line close high low !! t = Some (Some b)
       ∧ (c < b)%Q
       ∧ trend_st_dir close high low !! t = Some (Some (-1)))
  ∧ ((t < length close)%nat →
     (∃ e, trend_entries close high low !! t = Some e)
     ∧ (∃ x, trend_exits close high low !! t = Some x)).
Proof.
  split; [|split].
  - unfold trend_entries, Series.fillna_False.
    rewrite !band_lookup_true, !gt_lookup_true, eqz_lookup_true. split.
    + intros [[(c & u & Hc & Hu & Hlt) Hd] (f & s & Hf & Hs & Hfs)].
      apply shift1_lookup_Some in Hu as (t' & -> & _ & Hu).
      exists c, u, f, s. eauto 10.
    + intros (c & u & f & s & Hc & (t' & -> & Hu) & Hlt & Hd & Hf & Hs & Hfs).
      split; [split|]; [|exact Hd|eauto].
      exists c, u. split; [exact Hc|]. split; [|exact Hlt].
      apply shift1_lookup_Some. exists t'. split; [reflexivity|]. split; [|exact Hu].
      unfold trend_upper. rewrite ta_donchian_upper_length.
      eapply lookup_lt_Some. exact Hc.
  - unfold trend_exits, Series.fillna_False.
    rewrite band_lookup_true, lt_lookup_true, eqz_lookup_true. split.
    + intros [(c & b & Hc & Hb & Hlt) Hd]. eauto 10.
    + intros (c & b & Hc & Hb & Hlt & Hd). eauto 10.
  - intros Ht. split; apply lookup_lt_is_Some.
    + rewrite trend_entries_length. exact Ht.
    + rewrite trend_exits_length. exact Ht.
Qed.

End TrendFacts.

(** ** Signal Builder: daily volatility regimes *)

Section DailyFacts.
Variables fast slow : Series.t Q.
Variables widx didx : list Z.
Variable weekly_supertrend_dir : Series.t Z.

Let sg := daily_volatility_signals fast slow widx weekly_supertrend_dir didx.

Lemma bearish_lookup_true (l : list Z) (t : nat) :
  ((λ d, Z.eqb d (-1)) <$> l) !! t = Some true ↔ l !! t = Some (-1).
Proof.
  rewrite list_lookup_fmap_Some. split.
  - intros (d & Hd & Ht). symmetry in Hd. apply Z.eqb_eq in Hd. subst d. exact Ht.
  - intros Ht. exists (-1). split; [reflexivity | exact Ht].
Qed.

(** C3 (as the code has it).  At every timestamp the Low-Vol entry signal is
    the High-Vol exit signal (the crossunder) gated by a bearish weekly
    direction, and the High-Vol entry signal is the Low-Vol exit signal
    (the crossover) gated in the same way; the two exit signals themselves
    are not gated.  Hence a High-Vol entry implies a Low-Vol exit and a
    Low-Vol entry implies a High-Vol exit. *)
Theorem volatility_signals_mirror (t : nat) :
  (lv_entries sg !! t = Some true ↔
     hv_exits sg !! t = Some true
     ∧ st_daily widx weekly_supertrend_dir didx !! t = Some (-1))
  ∧ (hv_entries sg !! t = Some true ↔
     lv_exits sg !! t = Some true
     ∧ st_daily widx weekly_supertrend_dir didx !! t = Some (-1))
  ∧ hv_exits sg = crossed_below fast slow
  ∧ lv_exits sg = crossed_above fast slow
  ∧ (hv_entries sg !! t = Some true → lv_exits sg !! t = Some true)
  ∧ (lv_entries sg !! t = Some true → hv_exits sg !! t = Some true).
Proof.
  subst sg. unfold daily_volatility_signals. cbn [lv_entries lv_exits hv_entries hv_exits].
  rewrite !band_lookup_true, !bearish_lookup_true.
  repeat split; tauto.
Qed.

End DailyFacts.

(** C3, the claim as stated fails: on a day where the fast volatility
    average crosses above the slow one while the weekly direction is up,
    the Low-Vol exit signal is set and the High-Vol entry signal is not. *)
Lemma volatility_signals_not_equal :
  let sg := daily_volatility_signals
              [Some 1%Q; Some 3%Q] [Some 2%Q; Some 2%Q] [7] [Some 1] [8; 9] in
  ¬ (lv_entries sg = hv_exits sg ∧ lv_exits sg = hv_entries sg).
Proof. vm_compute. intros [_ Heq]. discriminate Heq. Qed.

(** ** Portfolio Simulator: commission *)

Section Commission.
Variable kw : Kwargs.
Hypothesis no_fees : (effective_fees kw == 0)%Q.

Lemma free_state_step (st : SimState) (bar : Z * option Q * (bool * bool)) :
  free_state st → free_state (sim_step kw st bar).
Proof using no_fees.
  intros [Hc Hp]. destruct bar as [[ts [p|]] [e x]]; cbn [sim_step].
  2: { split; cbn; assumption. }
  destruct (st_pos st) as [op|] eqn:Hpos.
  - destruct x; [|split; cbn; [assumption | rewrite Hpos; exact Hp]].
    split; cbn.
    + apply Forall_app. split; [exact Hc|]. constructor; [|constructor].
      split; cbn; [apply Hp; reflexivity|]. rewrite no_fees. ring.
    + intros op' [=].
  - destruct x; [split; cbn; [assumption | rewrite Hpos; exact Hp]|].
    destruct e; [|split; cbn; [assumption | rewrite Hpos; exact Hp]].
    split; cbn; [assumption|]. intros op' [= <-]. cbn. rewrite no_fees. ring.
Qed.

Lemma free_state_run (bars : list (Z * option Q * (bool * bool))) (st : SimState) :
  free_state st → free_state (foldl (sim_step kw) st bars).
Proof using no_fees.
  revert st. induction bars as [|bar bars IH]; intros st Hst; [exact Hst|].
  cbn. apply IH, free_state_step, Hst.
Qed.

Lemma free_trades (index : list Z) (close : Series.t Q) (entries exits : list bool) :
  Forall free_row (sim_trades (sim_run kw index close entries exits)).
Proof using no_fees.
  unfold sim_run, sim_trades.
  destruct (free_state_run (zip (zip index close) (zip entries exits)) (sim_init kw))
    as [Hc Hp].
  { split; [constructor | intros op [=]]. }
  apply Forall_app. split; [exact Hc|].
  destruct (st_pos _) as [op|]; [|constructor].
  destruct (st_last _) as [[ts p]|]; [|constructor].
  constructor; [|constructor]. split; cbn; [apply Hp; reflexivity | reflexivity].
Qed.

End Commission.

(** C1, the defect.  The Low_Vol simulation is started without the [fees]
    argument that the Trend and High_Vol simulations pass, so it runs with
    the library default of zero: whatever the signals, every fill of a
    Low_Vol trade pays no commission.  On the price history of "INTC" (20,
    then 10, then 5) Low_Vol buys for 10000 and sells again, with both fees
    at zero, while High_Vol pays the 0.2 percent commission on its entry. *)
Theorem low_vol_fills_without_commission :
  fees low_vol_kwargs = None
  ∧ fees high_vol_kwargs = Some COMMISSION
  ∧ fees trend_kwargs = Some COMMISSION
  ∧ (∀ index close entries exits,
       Forall free_row
         (sim_trades (sim_run low_vol_kwargs index close entries exits)))
  ∧ Examples.fills <$> Examples.intc_low_vol
      = [(738330, 738340, true, 10000%Q, 0%Q, 0%Q)]
  ∧ Examples.fills <$> Examples.intc_high_vol
      = [(738340, 738344, false, (5000000 # 501)%Q, (10000 # 501)%Q, 0%Q)].
Proof.
  split; [reflexivity|]. split; [reflexivity|]. split; [reflexivity|].
  split; [intros; apply free_trades; reflexivity|].
  split; vm_compute; reflexivity.
Qed.

(** ** Market Data Fetcher *)

Lemma Qmax'_cases (a b : Q) :
  (Qmax' a b = a ∧ (b <= a)%Q) ∨ (Qmax' a b = b ∧ (a <= b)%Q).
Proof.
  unfold Qmax'. destruct (Qlt_le_dec a b) as [Hlt|Hle]; [right | left].
  - split; [reflexivity | apply Qlt_le_weak, Hlt].
  - split; [reflexivity | exact Hle].
Qed.

Lemma Qmin'_cases (a b : Q) :
  (Qmin' a b = a ∧ (a <= b)%Q) ∨ (Qmin' a b = b ∧ (b <= a)%Q).
Proof.
  unfold Qmin'. destruct (Qlt_le_dec a b) as [Hlt|Hle]; [left | right].
  - split; [reflexivity | apply Qlt_le_weak, Hlt].
  - split; [reflexivity | exact Hle].
Qed.

Lemma foldl_Qmax'_spec (xs : list Q) (x : Q) :
  foldl Qmax' x xs ∈ x :: xs ∧ ∀ y, y ∈ x :: xs → (y <= foldl Qmax' x xs)%Q.
Proof.
  revert x. induction xs as [|z xs IH]; intros x; cbn [foldl].
  - split; [left|]. intros y Hy. apply list_elem_of_singleton in Hy as ->. apply Qle_refl.
  - destruct (IH (Qmax' x z)) as [Hin Hmax]. split.
    + apply elem_of_cons in Hin as [Heq|Hin]; [|right; right; exact Hin].
      rewrite Heq. destruct (Qmax'_cases x z) as [[-> _]|[-> _]]; [left | right; left].
    + intros y Hy. assert (Hm : (Qmax' x z <= foldl Qmax' (Qmax' x z) xs)%Q).
      { apply Hmax. left. }
      apply elem_of_cons in Hy as [->|Hy]; [|apply elem_of_cons in Hy as [->|Hy]].
      * eapply Qle_trans; [|exact Hm].
        destruct (Qmax'_cases x z) as [[-> _]|[-> H]]; [apply Qle_refl | exact H].
      * eapply Qle_trans; [|exact Hm].
        destruct (Qmax'_cases x z) as [[-> H]|[-> _]]; [exact H | apply Qle_refl].
      * apply Hmax. right. exact Hy.
Qed.

Lemma foldl_Qmin'_spec (xs : list Q) (x : Q) :
  foldl Qmin' x xs ∈ x :: xs ∧ ∀ y, y ∈ x :: xs → (foldl Qmin' x xs <= y)%Q.
Proof.
  revert x. induction xs as [|z xs IH]; intros x; cbn [foldl].
  - split; [left|]. intros y Hy. apply list_elem_of_singleton in Hy as ->. apply Qle_refl.
  - destruct (IH (Qmin' x z)) as [Hin Hmin]. split.
    + apply elem_of_cons in Hin as [Heq|Hin]; [|right; right; exact Hin].
      rewrite Heq. destruct (Qmin'_cases x z) as [[-> _]|[-> _]]; [left | right; left].
    + intros y Hy. assert (Hm : (foldl Qmin' (Qmin' x z) xs <= Qmin' x z)%Q).
      { apply Hmin. left. }
      apply elem_of_cons in Hy as [->|Hy]; [|apply elem_of_cons in Hy as [->|Hy]].
      * eapply Qle_trans; [exact Hm|].
        destruct (Qmin'_cases x z) as [[-> _]|[-> H]]; [apply Qle_refl | exact H].
      * eapply Qle_trans; [exact Hm|].
        destruct (Qmin'_cases x z) as [[-> H]|[-> _]]; [exact H | apply Qle_refl].
      * apply Hmin. right. exact Hy.
Qed.

Lemma agg_max_spec (l : list (option Q)) (m : Q) :
  agg_max l = Some m → m ∈ present l ∧ ∀ y, y ∈ present l → (y <= m)%Q.
Proof.
  unfold agg_max. destruct (present l) as [|x xs]; [discriminate|].
  intros [= <-]. apply foldl_Qmax'_spec.
Qed.

Lemma agg_min_spec (l : list (option Q)) (m : Q) :
  agg_min l = Some m → m ∈ present l ∧ ∀ y, y ∈ present l → (m <= y)%Q.
Proof.
  unfold agg_min. destruct (present l) as [|x xs]; [discriminate|].
  intros [= <-]. apply foldl_Qmin'_spec.
Qed.

Lemma foldl_Qplus_sum (l : list Q) (a : Q) : (foldl Qplus a l == a + Qsum l)%Q.
Proof.
  revert a. induction l as [|x l IH]; intros a; cbn [foldl Qsum foldr].
  - symmetry. apply Qplus_0_r.
  - rewrite IH. symmetry. apply Qplus_assoc.
Qed.

(** The week named by the Sunday [w] runs from the Monday [w - 6] to [w]. *)
Lemma week_end_spec (d w : Z) : week_end d = w ↔ w - 6 ≤ d ≤ w ∧ w mod 7 = 0.
Proof.
  unfold week_end.
  split; [intros <-|intros [Hd Hw]]; Z.to_euclidean_division_equations; lia.
Qed.

Lemma foldl_Zmin_le (ds : list Z) (d : Z) : foldl Z.min d ds ≤ d.
Proof.
  revert d. induction ds as [|x ds IH]; intros d; cbn [foldl]; [lia|].
  specialize (IH (Z.min d x)). lia.
Qed.

Lemma foldl_Zmax_ge (ds : list Z) (d : Z) : d ≤ foldl Z.max d ds.
Proof.
  revert d. induction ds as [|x ds IH]; intros d; cbn [foldl]; [lia|].
  specialize (IH (Z.max d x)). lia.
Qed.

Lemma week_end_mono (a b : Z) : a ≤ b → week_end a ≤ week_end b.
Proof. unfold week_end. intros H. Z.to_euclidean_division_equations. lia. Qed.

(** The bins of the weekly resampling are the Sundays from the week of the
    earliest date to the week of the latest date. *)
Lemma week_labels_spec (d : Z) (ds : list Z) (w : Z) :
  w ∈ week_labels (d :: ds) ↔
  w mod 7 = 0 ∧ week_end (foldl Z.min d ds) ≤ w ≤ week_end (foldl Z.max d ds).
Proof.
  unfold week_labels.
  set (lo := week_end (foldl Z.min d ds)). set (hi := week_end (foldl Z.max d ds)).
  assert (Hlo : lo mod 7 = 0) by (apply (week_end_spec (foldl Z.min d ds) lo); reflexivity).
  assert (Hhi : hi mod 7 = 0) by (apply (week_end_spec (foldl Z.max d ds) hi); reflexivity).
  assert (Hle : lo ≤ hi).
  { apply week_end_mono. pose proof (foldl_Zmin_le ds d). pose proof (foldl_Zmax_ge ds d). lia. }
  rewrite list_elem_of_fmap. split.
  - intros (k & -> & Hk). apply elem_of_seq in Hk.
    revert Hk. Z.to_euclidean_division_equations. lia.
  - intros (Hw & Hlow & Hhigh). exists (Z.to_nat ((w - lo) / 7)). split.
    + revert Hw Hlo. Z.to_euclidean_division_equations. lia.
    + apply elem_of_seq. revert Hw Hlo Hhi. Z.to_euclidean_division_equations. lia.
Qed.

Lemma has_required_spec (df : DataFrame) :
  has_required df = true ↔ ∀ c, c ∈ required → c ∈ df_columns df.
Proof.
  unfold has_required. rewrite forallb_forall. split.
  - intros Hall c Hc. eapply bool_decide_eq_true_1. apply Hall.
    apply list_elem_of_In. exact Hc.
  - intros Hall c Hc. apply bool_decide_eq_true_2. apply Hall.
    apply list_elem_of_In. exact Hc.
Qed.

Lemma forallb_false {A} (f : A → bool) (l : list A) :
  forallb f l = false → ∃ x, In x l ∧ f x = false.
Proof.
  induction l as [|x l IH]; cbn; [discriminate|].
  destruct (f x) eqn:Hx; cbn.
  - intros H. destruct (IH H) as (y & Hy & Hf). eauto.
  - intros _. eauto.
Qed.

Lemma df_empty_spec (df : DataFrame) :
  df_empty df = true ↔ df_index df = [] ∨ df_columns df = [].
Proof.
  unfold df_empty. destruct (df_index df), (df_columns df); split;
    (reflexivity || (intros [H|H]; discriminate H) || discriminate || auto).
Qed.

Section FetcherFacts.
Variable yf_download : string → DataFrame.

(** C9.  The fetch has no data exactly when the provider frame is empty or
    one of Open, High, Low, Close, Volume is not among its (title-cased)
    column names.  Otherwise the weekly series holds, for the calendar
    weeks (Monday to Sunday) between the first and the last date, the rows
    without a missing cell of: Open = first, High = max, Low = min,
    Close = last, Volume = sum over the days of the week. *)
Theorem download_weekly_spec (ticker : string) :
  let df := yf_download ticker in
  let bs := bars (rename_title df) in
  (download_weekly yf_download ticker = None ↔
     (df_index df = [] ∨ df_columns df = [])
     ∨ ∃ c, c ∈ required ∧ c ∉ title <$> df_columns df)
  ∧ (∀ weekly, download_weekly yf_download ticker = Some weekly →
       ∀ b, b ∈ weekly ↔
         (∃ w, w ∈ week_labels (b_date <$> bs) ∧ b = agg_week bs w)
         ∧ (∃ o h l c v, b_Open b = Some o ∧ b_High b = Some h ∧ b_Low b = Some l
                         ∧ b_Close b = Some c ∧ b_Volume b = Some v))
  ∧ (∀ d ds w, b_date <$> bs = d :: ds →
       (w ∈ week_labels (b_date <$> bs) ↔
        w mod 7 = 0 ∧ week_end (foldl Z.min d ds) ≤ w ≤ week_end (foldl Z.max d ds)))
  ∧ (∀ w : Z,
       let g := week_group bs w in
       (∀ b, b ∈ g ↔ b ∈ bs ∧ w - 6 ≤ b_date b ≤ w ∧ w mod 7 = 0)
       ∧ b_date (agg_week bs w) = w
       ∧ b_Open (agg_week bs w) = head (present (b_Open <$> g))
       ∧ b_Close (agg_week bs w) = last (present (b_Close <$> g))
       ∧ (∀ m, b_High (agg_week bs w) = Some m →
            m ∈ present (b_High <$> g) ∧ ∀ y, y ∈ present (b_High <$> g) → (y <= m)%Q)
       ∧ (∀ m, b_Low (agg_week bs w) = Some m →
            m ∈ present (b_Low <$> g) ∧ ∀ y, y ∈ present (b_Low <$> g) → (m <= y)%Q)
       ∧ (∃ v, b_Volume (agg_week bs w) = Some v
               ∧ (v == Qsum (present (b_Volume <$> g)))%Q)).
Proof.
  intros df bs. split; [|split; [|split]].
  3: { intros d ds w ->. apply week_labels_spec. }
  - unfold download_weekly. fold df. destruct (df_empty df) eqn:He.
    + apply df_empty_spec in He. split; [auto | reflexivity].
    + destruct (has_required (rename_title df)) eqn:Hr; cbn [negb].
      * split; [discriminate|]. intros [H|(c & Hc & Hn)].
        -- apply df_empty_spec in H. congruence.
        -- exfalso. apply Hn. exact (proj1 (has_required_spec _) Hr c Hc).
      * split; [|reflexivity]. intros _. right.
        apply forallb_false in Hr as (c & Hc & Hn). exists c.
        split; [apply list_elem_of_In; exact Hc|].
        apply bool_decide_eq_false_1 in Hn. exact Hn.
  - intros weekly. unfold download_weekly. fold df.
    destruct (df_empty df); [discriminate|].
    destruct (has_required (rename_title df)); cbn [negb]; [|discriminate].
    intros [= <-] b. fold bs. unfold dropna, resample_W_agg.
    rewrite list_elem_of_filter, list_elem_of_fmap. split.
    + intros [Hc (w & -> & Hw)]. split; [eauto|].
      unfold bar_complete in Hc.
      destruct (b_Open _), (b_High _), (b_Low _), (b_Close _), (b_Volume _);
        try discriminate. eauto 10.
    + intros [(w & Hw & ->) (o & h & l & c & v & Ho & Hh & Hl & Hc & Hv)].
      split; [|eauto]. unfold bar_complete. rewrite Ho, Hh, Hl, Hc, Hv. reflexivity.
  - intros w g. split; [|split; [|split; [|split; [|split; [|split]]]]].
    + intros b. unfold g, week_group. rewrite list_elem_of_filter, week_end_spec. tauto.
    + reflexivity.
    + reflexivity.
    + reflexivity.
    + intros m. apply agg_max_spec.
    + intros m. apply agg_min_spec.
    + eexists. split; [reflexivity|]. rewrite foldl_Qplus_sum. apply Qplus_0_l.
Qed.

End FetcherFacts.

(** The first week of [small_frame] aggregates to one complete row; the
    second week has no open and is dropped; without a volume column there
    is no data. *)
Example download_weekly_small :
  download_weekly (λ _, Examples.small_frame) "ARM"
  = Some [ {| b_date := 738164; b_Open := Some 1%Q; b_High := Some 4%Q;
              b_Low := Some (1 # 2)%Q; b_Close := Some 3%Q;
              b_Volume := Some 300%Q |} ]
  ∧ download_weekly (λ _, Examples.no_volume) "ARM" = None.
Proof. split; vm_compute; reflexivity. Qed.

(** ** Main loop and summary table *)

Lemma list_min_None (l : list Z) : list_min l = None ↔ l = [].
Proof. destruct l; cbn; split; congruence. Qed.

Lemma list_min_spec (l : list Z) (m : Z) :
  list_min l = Some m → m ∈ l ∧ ∀ d, d ∈ l → m ≤ d.
Proof.
  destruct l as [|x xs]; [discriminate|]. intros [= <-].
  revert x. induction xs as [|y xs IH]; intros x; cbn [foldl].
  - split; [left|]. intros d Hd. apply list_elem_of_singleton in Hd. lia.
  - destruct (IH (Z.min x y)) as [Hin Hle]. split.
    + apply elem_of_cons in Hin as [Heq|Hin]; [|right; right; exact Hin].
      rewrite Heq. destruct (Z.min_spec x y) as [[_ ->]|[_ ->]]; [left | right; left].
    + intros d Hd. assert (Hm : foldl Z.min (Z.min x y) xs ≤ Z.min x y).
      { apply Hle. left. }
      apply elem_of_cons in Hd as [->|Hd]; [lia|].
      apply elem_of_cons in Hd as [->|Hd]; [lia|].
      apply IH. right. exact Hd.
Qed.

Lemma sync_start_None (first_dates index : list Z) :
  sync_start first_dates index = None ↔
  first_dates = [] ∨ ∃ m, list_min first_dates = Some m ∧ ∀ d, d ∈ index → d < m.
Proof.
  unfold sync_start. destruct (list_min first_dates) as [m|] eqn:Hm.
  - case_bool_decide as Hin.
    + split; [discriminate|]. intros [->|(m' & [= <-] & Hlt)]; [discriminate|].
      specialize (Hlt m Hin). lia.
    + rewrite head_None. split.
      * intros Hf. right. exists m. split; [reflexivity|]. intros d Hd.
        destruct (decide (m ≤ d)) as [Hle|Hgt]; [|lia].
        assert (d ∈ filter (λ d, m ≤ d) index) as Hc
          by (apply list_elem_of_filter; split; assumption).
        rewrite Hf in Hc. inversion Hc.
      * intros [->|(m' & [= <-] & Hlt)]; [discriminate|].
        destruct (filter (λ d, m ≤ d) index) as [|d l] eqn:Hf; [reflexivity|].
        assert (d ∈ filter (λ d, m ≤ d) index) as Hc by (rewrite Hf; left).
        apply list_elem_of_filter in Hc as [Hle Hd]. specialize (Hlt d Hd). lia.
  - apply list_min_None in Hm. split; [auto | reflexivity].
Qed.

Lemma sync_start_Some (first_dates index : list Z) (start : Z) :
  sync_start first_dates index = Some start →
  ∃ m, list_min first_dates = Some m
       ∧ m ≤ start ∧ start ∈ index
       ∧ ((m ∈ index ∧ start = m)
          ∨ ((m ∉ index) ∧ head (filter (λ d, m ≤ d) index) = Some start)).
Proof.
  unfold sync_start. destruct (list_min first_dates) as [m|]; [|discriminate].
  case_bool_decide as Hin.
  - intros [= <-]. exists m. split; [reflexivity|]. split; [lia|]. split; [exact Hin|].
    left. split; [exact Hin | reflexivity].
  - intros Hh. exists m. split; [reflexivity|].
    assert (start ∈ filter (λ d, m ≤ d) index) as Hc.
    { destruct (filter (λ d, m ≤ d) index) as [|d l]; [discriminate|].
      injection Hh as ->. left. }
    apply list_elem_of_filter in Hc as [Hle Hd].
    split; [exact Hle|]. split; [exact Hd|]. right. split; assumption.
Qed.

Lemma head_filter_sorted (index : list Z) (m start : Z) :
  StronglySorted Z.lt index →
  head (filter (λ d, m ≤ d) index) = Some start →
  ∀ d, d ∈ index → m ≤ d → start ≤ d.
Proof.
  induction 1 as [|x xs Hs IH Hx]; intros Hh d Hd Hmd; [inversion Hd|].
  destruct (decide (m ≤ x)) as [Hle|Hgt].
  - rewrite filter_cons_True in Hh by exact Hle. injection Hh as <-.
    apply elem_of_cons in Hd as [->|Hd]; [lia|].
    rewrite Forall_forall in Hx. specialize (Hx d Hd). lia.
  - rewrite filter_cons_False in Hh by exact Hgt.
    apply elem_of_cons in Hd as [->|Hd]; [lia|]. apply IH; assumption.
Qed.

Lemma loc_from_head (start : Z) (index : list Z) :
  start ∈ index → head (loc_from start index) = Some start.
Proof.
  induction index as [|d index IH]; intros Hin; [inversion Hin|].
  cbn [loc_from]. destruct (d =? start) eqn:Hd.
  - apply Z.eqb_eq in Hd. subst d. reflexivity.
  - apply Z.eqb_neq in Hd. apply elem_of_cons in Hin as [->|Hin]; [congruence|].
    apply IH, Hin.
Qed.

Lemma rows_of_counts (r : TickerResult) :
  length (filter (λ x, Strategy x = "Benchmark"%string) (rows_of r)) = 1%nat
  ∧ length (filter (λ x, Strategy x ≠ "Benchmark"%string) (rows_of r)) = 3%nat.
Proof. split; reflexivity. Qed.

Lemma rows_of_ticker (r : TickerResult) (T : string) :
  filter (λ x, Ticker x = T) (rows_of r) = if decide (tr_Ticker r = T) then rows_of r else [].
Proof.
  unfold rows_of. destruct (decide (tr_Ticker r = T)) as [He|Hn].
  - rewrite !filter_cons_True by exact He. reflexivity.
  - rewrite !filter_cons_False by exact Hn. reflexivity.
Qed.

Section PipelineFacts.
Context `{Indicators} `{StatsEngine}.
Variable yf_download : string → DataFrame.

Lemma analyze_ticker (T : string) (a : Analysis) :
  analyze yf_download T = Ok (Some a) → an_ticker a = T.
Proof.
  unfold analyze. destruct (download_weekly yf_download T) as [weekly|]; [|discriminate].
  destruct (build_weekly_trend_strategy _ _ _ _) as [pf_trend weekly_dir].
  destruct (build_daily_volatility_strategies _ _ _ _) as [[db|]|]; try discriminate.
  destruct (sync_start _ _); [|discriminate]. intros [= <-]. reflexivity.
Qed.

Lemma main_loop_ok (tickers : list string) (acc res : list TickerResult) :
  main_loop yf_download tickers acc = Ok res →
  res = acc ++ processed yf_download tickers.
Proof.
  revert acc. induction tickers as [|t tickers IH]; intros acc; cbn [main_loop].
  - intros [= <-]. unfold processed. cbn. rewrite app_nil_r. reflexivity.
  - unfold processed. cbn [omap list_omap].
    destruct (analyze yf_download t) as [[a|]|e]; [| |discriminate].
    + intros Hm. apply IH in Hm. rewrite Hm, <- app_assoc. reflexivity.
    + apply IH.
Qed.

Lemma processed_rows_for (tickers : list string) (T : string) :
  NoDup tickers →
  filter (λ r, Ticker r = T) (summary_rows (processed yf_download tickers))
  = if bool_decide (T ∈ tickers)
    then match analyze yf_download T with
         | Ok (Some a) => rows_of (entry_of a)
         | _ => []
         end
    else [].
Proof.
  induction tickers as [|t tickers IH]; intros Hnd.
  - reflexivity.
  - apply NoDup_cons in Hnd as [Hnt Hnd]. specialize (IH Hnd).
    assert (Hstep : processed yf_download (t :: tickers)
                    = match analyze yf_download t with
                      | Ok (Some a) => entry_of a :: processed yf_download tickers
                      | _ => processed yf_download tickers
                      end).
    { unfold processed. cbn [omap list_omap].
      destruct (analyze yf_download t) as [[a|]|e]; reflexivity. }
    rewrite Hstep. clear Hstep. unfold summary_rows in *.
    destruct (decide (T = t)) as [->|Hne].
    + rewrite bool_decide_eq_true_2 by left.
      rewrite bool_decide_eq_false_2 in IH by exact Hnt.
      destruct (analyze yf_download t) as [[a|]|e] eqn:Ha; try exact IH.
      rewrite bind_cons, filter_app, IH, app_nil_r, rows_of_ticker.
      cbn [entry_of tr_Ticker]. rewrite (analyze_ticker _ _ Ha).
      rewrite decide_True by reflexivity. reflexivity.
    + assert (bool_decide (T ∈ t :: tickers) = bool_decide (T ∈ tickers)) as ->.
      { apply bool_decide_ext. rewrite elem_of_cons. tauto. }
      destruct (analyze yf_download t) as [[a|]|e] eqn:Ha; try exact IH.
      rewrite bind_cons, filter_app, IH, rows_of_ticker.
      cbn [entry_of tr_Ticker]. rewrite (analyze_ticker _ _ Ha).
      rewrite decide_False by congruence. reflexivity.
Qed.

Lemma main_loop_no_raise (tickers : list string) (acc res : list TickerResult) :
  main_loop yf_download tickers acc = Ok res →
  ∀ T, T ∈ tickers → ∃ o, analyze yf_download T = Ok o.
Proof.
  revert acc. induction tickers as [|t tickers IH]; intros acc Hm T HT.
  - inversion HT.
  - cbn [main_loop] in Hm.
    destruct (analyze yf_download t) as [[a|]|e] eqn:Ha; [| |discriminate];
      (apply elem_of_cons in HT as [->|HT]; [eauto | eapply IH; eassumption]).
Qed.

(** C2 (as the code has it).  When the run completes, every ticker has
    either exactly one Benchmark row and exactly three other rows, or no row
    at all.  It has no row when it is not in the universe or its iteration
    ended in [continue]; that happens when the weekly fetch has no data,
    when the second download is empty, and also when the start date cannot
    be fixed: none of the three strategies opened a trade, or every date of
    the daily index lies before the earliest first trade date. *)
Theorem results_rows_per_ticker (tickers : list string) (rows : list Row) (T : string) :
  NoDup tickers →
  strategy_backtest yf_download tickers = Ok rows →
  let mine := filter (λ r, Ticker r = T) rows in
  (((T ∈ tickers ∧ ∃ a, analyze yf_download T = Ok (Some a))
    ∧ length (filter (λ r, Strategy r = "Benchmark"%string) mine) = 1%nat
    ∧ length (filter (λ r, Strategy r ≠ "Benchmark"%string) mine) = 3%nat)
   ∨ ((T ∉ tickers ∨ analyze yf_download T = Ok None) ∧ mine = []))
  ∧ (analyze yf_download T = Ok None ↔
     match download_weekly yf_download T with
     | None => True
     | Some weekly =>
         let widx := b_date <$> weekly in
         let '(pf_trend, weekly_dir) :=
           build_weekly_trend_strategy widx (b_Close <$> weekly)
             (b_High <$> weekly) (b_Low <$> weekly) in
         match build_daily_volatility_strategies yf_download T widx weekly_dir with
         | Raised _ => False
         | Ok None => True
         | Ok (Some db) =>
             let first_dates :=
               first_dates_of pf_trend (db_high_vol db) (db_low_vol db) in
             first_dates = []
             ∨ ∃ m, list_min first_dates = Some m ∧ ∀ d, d ∈ db_index db → d < m
         end
     end).
Proof.
  intros Hnd Hrun mine. split.
  - unfold strategy_backtest in Hrun.
    destruct (main_loop yf_download tickers []) as [res|e] eqn:Hm; [|discriminate].
    injection Hrun as <-. pose proof (main_loop_no_raise _ _ _ Hm) as Hok.
    apply main_loop_ok in Hm. cbn in Hm. subst res.
    subst mine. rewrite (processed_rows_for tickers T Hnd).
    case_bool_decide as HT; [|right; split; [left; exact HT | reflexivity]].
    destruct (Hok T HT) as [[a|] Ha]; rewrite Ha.
    + left. split; [split; [exact HT | eauto]|]. apply rows_of_counts.
    + right. split; [right; reflexivity | reflexivity].
  - unfold analyze. destruct (download_weekly yf_download T) as [weekly|]; [|tauto].
    cbv zeta. destruct (build_weekly_trend_strategy _ _ _ _) as [pf_trend weekly_dir].
    destruct (build_daily_volatility_strategies _ _ _ _) as [[db|]|e]; [| tauto |].
    + rewrite <- sync_start_None. destruct (sync_start _ _); split; congruence.
    + split; [discriminate | tauto].
Qed.

(** C4 (as the code has it).  For a ticker that produces results, the start
    date is fixed from the earliest first trade date [m] of the three
    strategies: it is [m] when [m] is a date of the daily index, otherwise
    the first date of the index on or after [m] (on an increasing index, the
    next trading date).  Only the Benchmark simulation starts there.  The
    Trend simulation runs over the whole weekly series and the High_Vol and
    Low_Vol simulations over the whole daily series. *)
Theorem start_date_synchronisation (T : string) (a : Analysis) :
  analyze yf_download T = Ok (Some a) →
  let idx := db_index (an_daily a) in
  (∃ m, list_min (an_first_dates a) = Some m
        ∧ m ∈ an_first_dates a ∧ (∀ d, d ∈ an_first_dates a → m ≤ d)
        ∧ m ≤ an_start a ∧ an_start a ∈ idx
        ∧ ((m ∈ idx ∧ an_start a = m)
           ∨ ((m ∉ idx) ∧ head (filter (λ d, m ≤ d) idx) = Some (an_start a)))
        ∧ (StronglySorted Z.lt idx → ∀ d, d ∈ idx → m ≤ d → an_start a ≤ d))
  ∧ an_first_dates a
    = first_dates_of (an_pf_trend a) (db_high_vol (an_daily a)) (db_low_vol (an_daily a))
  ∧ head (pf_wrapper_index (an_benchmark a)) = Some (an_start a)
  ∧ pf_wrapper_index (an_pf_trend a) = b_date <$> an_weekly a
  ∧ pf_wrapper_index (db_high_vol (an_daily a)) = idx
  ∧ pf_wrapper_index (db_low_vol (an_daily a)) = idx.
Proof.
  unfold analyze. destruct (download_weekly yf_download T) as [weekly|]; [|discriminate].
  unfold build_weekly_trend_strategy.
  destruct (build_daily_volatility_strategies _ _ _ _) as [[db|]|e] eqn:Hdb;
    try discriminate.
  destruct (sync_start _ _) as [start|] eqn:Hs; [|discriminate].
  intros [= <-].
  cbn [an_daily an_first_dates an_start an_benchmark an_pf_trend an_weekly].
  apply sync_start_Some in Hs as (m & Hm & Hle & Hin & Hcase).
  split; [|split; [reflexivity|split; [|split; [reflexivity|]]]].
  - exists m. destruct (list_min_spec _ _ Hm) as [Hmin Hall].
    repeat (split; [assumption|]).
    intros Hsorted d Hd Hmd. destruct Hcase as [[_ ->]|[_ Hh]]; [exact Hmd|].
    eapply head_filter_sorted; eassumption.
  - unfold from_holding, from_signals. cbn [pf_wrapper_index].
    apply loc_from_head, Hin.
  - unfold build_daily_volatility_strategies in Hdb.
    destruct (df_empty (yf_download T)); [discriminate|].
    destruct (df_col _ "Close") as [close|]; [|discriminate].
    destruct (df_col _ "High") as [high|]; [|discriminate].
    destruct (df_col _ "Low") as [low|]; [|discriminate].
    injection Hdb as <-. split; reflexivity.
Qed.

End PipelineFacts.

(** ** The pipeline on explicit price histories *)

Lemma TICKERS_NoDup : NoDup TICKERS.
Proof. apply (bool_decide_eq_true_1 (NoDup TICKERS)). vm_compute. reflexivity. Qed.

Lemma run_backtest_rows0 :
  @strategy_backtest ref_indicators ref_stats Examples.provider TICKERS
  = Ok Examples.rows0.
Proof. vm_compute. reflexivity. Qed.

(** C2, the claim as stated fails: the provider has 300 trading days of
    data for "AMD", all at the price 10, so both downloads succeed (60
    complete weekly rows); no strategy ever opens a trade, the iteration
    ends at [if not first_dates: continue], and the table has no row for
    "AMD". *)
Lemma fetched_ticker_without_rows :
  Examples.run_backtest TICKERS = Ok Examples.rows0
  ∧ "AMD"%string ∈ TICKERS
  ∧ length <$> download_weekly Examples.provider "AMD" = Some 60%nat
  ∧ df_empty (Examples.provider "AMD") = false
  ∧ filter (λ r, Ticker r = "AMD"%string) Examples.rows0 = [].
Proof.
  split; [exact run_backtest_rows0|].
  split; [apply (bool_decide_eq_true_1 _); vm_compute; reflexivity|].
  repeat split; vm_compute; reflexivity.
Qed.

Lemma results_rows_per_ticker_witness :
  NoDup TICKERS
  ∧ @strategy_backtest ref_indicators ref_stats Examples.provider TICKERS = Ok Examples.rows0
  ∧ let yf_download := Examples.provider in
    let T := "NVDA"%string in
    let mine := filter (λ r, Ticker r = T) Examples.rows0 in
    (((T ∈ TICKERS ∧ ∃ a, @analyze ref_indicators ref_stats yf_download T = Ok (Some a))
      ∧ length (filter (λ r, Strategy r = "Benchmark"%string) mine) = 1%nat
      ∧ length (filter (λ r, Strategy r ≠ "Benchmark"%string) mine) = 3%nat)
     ∨ ((T ∉ TICKERS ∨ @analyze ref_indicators ref_stats yf_download T = Ok None) ∧ mine = []))
    ∧ (@analyze ref_indicators ref_stats yf_download T = Ok None ↔
       match download_weekly yf_download T with
       | None => True
       | Some weekly =>
           let widx := b_date <$> weekly in
           let '(pf_trend, weekly_dir) :=
             @build_weekly_trend_strategy ref_indicators ref_stats
               widx (b_Close <$> weekly) (b_High <$> weekly) (b_Low <$> weekly) in
           match @build_daily_volatility_strategies ref_indicators ref_stats
                   yf_download T widx weekly_dir with
           | Raised _ => False
           | Ok None => True
           | Ok (Some db) =>
               let first_dates :=
                 first_dates_of pf_trend (db_high_vol db) (db_low_vol db) in
               first_dates = []
               ∨ ∃ m, list_min first_dates = Some m ∧ ∀ d, d ∈ db_index db → d < m
           end
       end).
Proof.
  split; [exact TICKERS_NoDup|]. split; [exact run_backtest_rows0|].
  exact (@results_rows_per_ticker ref_indicators ref_stats Examples.provider
           TICKERS Examples.rows0 "NVDA" TICKERS_NoDup run_backtest_rows0).
Defined.

(** C4, the claim as stated fails: for "NVDA" the only first trade is the
    Trend entry of Sunday 2022-12-18 (day 738507), the start date is the
    Monday after it (738508) and the Benchmark starts there, but the Trend
    simulation starts at the first weekly bar (738164) and the High_Vol and
    Low_Vol simulations start at the first trading day (738158). *)
Lemma strategies_start_before_benchmark :
  match Examples.run_analyze "NVDA" with
  | Ok (Some a) =>
      an_first_dates a = [738507]
      ∧ an_start a = 738508
      ∧ head (pf_wrapper_index (an_benchmark a)) = Some (an_start a)
      ∧ head (pf_wrapper_index (an_pf_trend a)) = Some 738164
      ∧ head (pf_wrapper_index (db_high_vol (an_daily a))) = Some 738158
      ∧ head (pf_wrapper_index (db_low_vol (an_daily a))) = Some 738158
      ∧ head (pf_wrapper_index (an_pf_trend a)) ≠ Some (an_start a)
      ∧ head (pf_wrapper_index (db_high_vol (an_daily a))) ≠ Some (an_start a)
      ∧ head (pf_wrapper_index (db_low_vol (an_daily a))) ≠ Some (an_start a)
  | _ => False
  end.
Proof. vm_compute. repeat split; discriminate. Qed.

(** The weekly series of "NVDA" has its only Trend entry at the fiftieth
    bar, the week of the breakout, and no exit. *)
Lemma nvda_entries :
  @trend_entries ref_indicators (b_Close <$> Examples.nvda_weekly)
    (b_High <$> Examples.nvda_weekly) (b_Low <$> Examples.nvda_weekly)
  = replicate 49 false ++ [true; false].
Proof. vm_compute. reflexivity. Qed.

Lemma nvda_exits :
  @trend_exits ref_indicators (b_Close <$> Examples.nvda_weekly)
    (b_High <$> Examples.nvda_weekly) (b_Low <$> Examples.nvda_weekly)
  = replicate 51 false.
Proof. vm_compute. reflexivity. Qed.

Example breakout_trend_signals :
  let close := b_Close <$> Examples.nvda_weekly in
  let high := b_High <$> Examples.nvda_weekly in
  let low := b_Low <$> Examples.nvda_weekly in
  length Examples.nvda_weekly = 51%nat
  ∧ (∀ t, @trend_entries ref_indicators close high low !! t = Some true ↔ t = 49%nat)
  ∧ (∀ t, @trend_exits ref_indicators close high low !! t ≠ Some true).
Proof.
  cbv zeta. split; [vm_compute; reflexivity|].
  rewrite nvda_entries, nvda_exits. split.
  - intros t. split.
    + intros Ht. destruct (decide (t < 49)%nat) as [Hlt|Hge].
      * rewrite lookup_app_l in Ht by (rewrite length_replicate; exact Hlt).
        apply lookup_replicate in Ht as [? _]. discriminate.
      * rewrite lookup_app_r in Ht by (rewrite length_replicate; lia).
        rewrite length_replicate in Ht.
        destruct (t - 49)%nat as [|[|k]] eqn:Hk; cbn in Ht; try discriminate. lia.
    + intros ->. reflexivity.
  - intros t Ht. apply lookup_replicate in Ht as [? _]. discriminate.
Qed.

(** ** Statistics Extractor *)

Lemma all_None_lookup (keys : list string) (m : string) :
  m ∈ keys → all_None keys !! m = Some None.
Proof.
  intros Hm. unfold all_None. apply elem_of_list_to_map_1'.
  - intros y Hy. apply list_elem_of_fmap in Hy as (k & [= _ ->] & _). reflexivity.
  - apply list_elem_of_fmap. exists m. split; [reflexivity | exact Hm].
Qed.

Lemma all_None_dom (keys : list string) (m : string) (v : option Q) :
  all_None keys !! m = Some v → m ∈ keys ∧ v = None.
Proof.
  intros Hm. apply elem_of_list_to_map_2 in Hm.
  apply list_elem_of_fmap in Hm as (k & [= -> ->] & Hk). split; [exact Hk | reflexivity].
Qed.

Section ExtendedStatsFacts.
Variable float_pow : Q → Q → Q.
Variable pf : Portfolio.

Let stats := get_extended_stats float_pow pf.

(** C5 (as the code has it).  The extractor never raises and writes an
    explicit entry for each of the thirteen metrics.  Exceptions are caught
    per block, not per metric: if the base statistics call raises, all
    thirteen metrics are missing; otherwise the five base metrics are the
    library values, the annualized return is missing when its own block
    fails or the elapsed time is not positive, and the seven trade metrics
    are missing together when the trade block raises.  Without trades the
    trade count is 0 and the six other trade metrics are missing.  A metric
    of a failed block is missing, never zero.  [getportfolio_stats] likewise
    returns the library values or, if the call raises, a missing value for
    every requested metric. *)
Theorem extended_stats_failure_handling :
  (∀ m, m ∈ EXTENDED_METRICS ↔ ∃ v, stats !! m = Some v)
  ∧ (pf_stats pf METRICS = None →
       ∀ m, m ∈ EXTENDED_METRICS → stats !! m = Some None)
  ∧ (∀ base, pf_stats pf METRICS = Some base →
       stats !! "total_return" = Some (dict_get base "Total Return [%]")
       ∧ stats !! "max_dd" = Some (dict_get base "Max Drawdown [%]")
       ∧ stats !! "sharpe_ratio" = Some (dict_get base "Sharpe Ratio")
       ∧ stats !! "sortino_ratio" = Some (dict_get base "Sortino Ratio")
       ∧ stats !! "calmar_ratio" = Some (dict_get base "Calmar Ratio")
       ∧ stats !! "annualized_return"
         = Some (default None
                   (annualized_block float_pow pf (dict_get base "Total Return [%]")))
       ∧ (trade_block pf = None →
            ∀ m, m ∈ trade_metrics → stats !! m = Some None)
       ∧ (∀ s, trade_block pf = Some s →
            stats !! "total_trades" = Some (ts_total_trades s)
            ∧ stats !! "win_rate" = Some (ts_win_rate s)
            ∧ stats !! "avg_winning_trade" = Some (ts_avg_winning_trade s)
            ∧ stats !! "avg_losing_trade" = Some (ts_avg_losing_trade s)
            ∧ stats !! "profit_factor" = Some (ts_profit_factor s)
            ∧ stats !! "best_return" = Some (ts_best_return s)
            ∧ stats !! "worst_return" = Some (ts_worst_return s)))
  ∧ (∀ r d0 d1, head (pf_wrapper_index pf) = Some d0 →
       last (pf_wrapper_index pf) = Some d1 → d1 ≤ d0 →
       annualized_block float_pow pf (Some r) = Some None)
  ∧ (∀ r, pf_wrapper_index pf = [] → annualized_block float_pow pf (Some r) = None)
  ∧ ((pf_trades pf = Some None
      ∨ ∃ t, pf_trades pf = Some (Some t) ∧ tf_rows t = []) →
       trade_block pf = Some (no_trade_stats (Some 0%Q)))
  ∧ (pf_trades pf = None → trade_block pf = None)
  ∧ (∀ metrics, pf_stats pf metrics = None →
       ∀ m, m ∈ metrics → getportfolio_stats pf metrics !! m = Some None)
  ∧ (∀ metrics s, pf_stats pf metrics = Some s → getportfolio_stats pf metrics = s).
Proof.
  subst stats. unfold get_extended_stats.
  split; [|split; [|split; [|split; [|split; [|split; [|split; [|split]]]]]]].
  - intros m. destruct (pf_stats pf METRICS) as [base|].
    + split.
      * intros Hm. unfold EXTENDED_METRICS in Hm.
        repeat (apply elem_of_cons in Hm as [->|Hm]);
          try (eexists; unfold put_trade_stats; by simplify_map_eq).
        inversion Hm.
      * intros [v Hv]. unfold put_trade_stats in Hv.
        repeat (apply lookup_insert_Some in Hv as [[<- _]|[_ Hv]];
                [unfold EXTENDED_METRICS; set_solver|]).
        rewrite lookup_empty in Hv. discriminate.
    + split.
      * intros Hm. exists None. apply all_None_lookup, Hm.
      * intros [v Hv]. apply all_None_dom in Hv as [Hm _]. exact Hm.
  - intros ->. intros m Hm. apply all_None_lookup, Hm.
  - intros base ->. unfold put_trade_stats.
    repeat (split; [by simplify_map_eq|]). split.
    + intros -> m Hm. unfold trade_metrics in Hm. cbn [default no_trade_stats
        ts_total_trades ts_win_rate ts_avg_winning_trade ts_avg_losing_trade
        ts_profit_factor ts_best_return ts_worst_return].
      repeat (apply elem_of_cons in Hm as [->|Hm]); try by simplify_map_eq.
      inversion Hm.
    + intros s ->. cbn [default]. repeat split; by simplify_map_eq.
  - intros r d0 d1 Hh Hl Hle. unfold annualized_block. rewrite Hh, Hl.
    unfold Qpos. destruct (Qlt_le_dec _ _) as [Hlt|_]; [|reflexivity].
    exfalso. revert Hlt. unfold Qlt, Qdiv, Qmult, Qinv, inject_Z. cbn. nia.
  - intros r Hi. unfold annualized_block. rewrite Hi. reflexivity.
  - unfold trade_block. intros [->|(t & -> & ->)]; reflexivity.
  - unfold trade_block. intros ->. reflexivity.
  - intros metrics Hs m Hm. unfold getportfolio_stats. rewrite Hs.
    apply all_None_lookup, Hm.
  - intros metrics s Hs. unfold getportfolio_stats. rewrite Hs. reflexivity.
Qed.

End ExtendedStatsFacts.

(** C5, the claim as stated fails: for a portfolio whose statistics call
    raises, the trade statistics block on its own computes one trade, a
    win rate of 100 and a best return of 19.6, but the extractor reports
    every metric, these three included, as missing. *)
Lemma failed_base_stats_erase_trade_metrics :
  let pf := Examples.broken_stats in
  let stats := get_extended_stats Examples.pow1 pf in
  (λ s, (ts_total_trades s, Qred <$> ts_win_rate s, Qred <$> ts_best_return s))
     <$> trade_block pf
  = Some (Some 1%Q, Some 100%Q, Some (98 # 5)%Q)
  ∧ stats !! "total_trades" = Some None
  ∧ stats !! "win_rate" = Some None
  ∧ stats !! "best_return" = Some None
  ∧ ¬ (∀ s, trade_block pf = Some s →
         stats !! "total_trades" = Some (ts_total_trades s)).
Proof.
  cbv zeta. split; [vm_compute; reflexivity|].
  split; [vm_compute; reflexivity|]. split; [vm_compute; reflexivity|].
  split; [vm_compute; reflexivity|].
  intros Hall.
  specialize (Hall _ eq_refl). vm_compute in Hall. discriminate Hall.
Qed.

(** ** Descending sort and top-n selection *)

Lemma key_ge_refl (a : option Q) : key_ge a a = true.
Proof.
  destruct a as [x|]; [|reflexivity]. cbn.
  destruct (Qlt_le_dec x x) as [H|_]; [|reflexivity].
  exfalso. exact (Qlt_irrefl _ H).
Qed.

Lemma key_ge_total (a b : option Q) : key_ge a b = false → key_ge b a = true.
Proof.
  destruct a as [x|], b as [y|]; cbn; try (discriminate || reflexivity).
  destruct (Qlt_le_dec x y) as [H|_]; [|discriminate]. intros _.
  destruct (Qlt_le_dec y x) as [H'|_]; [|reflexivity].
  exfalso. exact (Qlt_irrefl _ (Qlt_trans _ _ _ H H')).
Qed.

Lemma key_ge_trans (a b c : option Q) :
  key_ge a b = true → key_ge b c = true → key_ge a c = true.
Proof.
  destruct a as [x|], b as [y|], c as [z|]; cbn; try (discriminate || reflexivity).
  destruct (Qlt_le_dec x y) as [|Hyx]; [discriminate|].
  destruct (Qlt_le_dec y z) as [|Hzy]; [discriminate|]. intros _ _.
  destruct (Qlt_le_dec x z) as [Hxz|_]; [|reflexivity].
  exfalso. apply (Qlt_not_le _ _ Hxz). eapply Qle_trans; eassumption.
Qed.

Lemma key_ge_Some (x y : Q) : key_ge (Some x) (Some y) = true ↔ (y <= x)%Q.
Proof.
  cbn. destruct (Qlt_le_dec x y) as [H|H]; split; try (discriminate || auto).
  intros H'. exfalso. exact (Qlt_not_le _ _ H H').
Qed.

Lemma tied_key_ge (v : Q) (a b : option Q) : tied v a → tied v b → key_ge a b = true.
Proof.
  destruct a as [x|], b as [y|]; cbn; try tauto. intros Hx Hy.
  destruct (Qlt_le_dec x y) as [H|_]; [|reflexivity].
  exfalso. rewrite Hx, Hy in H. exact (Qlt_irrefl _ H).
Qed.

Section SortFacts.
Context {A : Type} (key : A → option Q).

Lemma insert_desc_perm (x : A) (l : list A) : insert_desc key x l ≡ₚ x :: l.
Proof.
  induction l as [|y l IH]; cbn [insert_desc]; [reflexivity|].
  destruct (key_ge (key x) (key y)); [reflexivity|].
  rewrite IH. apply Permutation_swap.
Qed.

Lemma sort_desc_perm (l : list A) : sort_desc key l ≡ₚ l.
Proof.
  induction l as [|x l IH]; [reflexivity|].
  unfold sort_desc in *. cbn [foldr]. rewrite insert_desc_perm, IH. reflexivity.
Qed.

Lemma insert_desc_sorted (x : A) (l : list A) :
  StronglySorted (ranks_before key) l →
  StronglySorted (ranks_before key) (insert_desc key x l).
Proof.
  induction 1 as [|y l Hs IH Hy]; cbn [insert_desc].
  - repeat constructor.
  - destruct (key_ge (key x) (key y)) eqn:Hxy.
    + constructor; [constructor; assumption|].
      constructor; [exact Hxy|].
      eapply Forall_impl; [exact Hy|]. intros z Hz.
      eapply key_ge_trans; eassumption.
    + constructor; [exact IH|].
      rewrite insert_desc_perm. constructor; [|exact Hy].
      apply key_ge_total, Hxy.
Qed.

Lemma sort_desc_sorted (l : list A) : StronglySorted (ranks_before key) (sort_desc key l).
Proof.
  induction l as [|x l IH]; [constructor|].
  unfold sort_desc in *. cbn [foldr]. apply insert_desc_sorted, IH.
Qed.

(** Stability: rows with tied keys keep their input order. *)
Lemma insert_desc_tied (v : Q) (x : A) (l : list A) :
  filter (λ y, tied v (key y)) (insert_desc key x l)
  = filter (λ y, tied v (key y)) (x :: l).
Proof.
  induction l as [|y l IH]; cbn [insert_desc]; [reflexivity|].
  destruct (key_ge (key x) (key y)) eqn:Hxy; [reflexivity|].
  destruct (decide (tied v (key y))) as [Hy|Hy].
  - destruct (decide (tied v (key x))) as [Hx|Hx].
    + rewrite (tied_key_ge v _ _ Hx Hy) in Hxy. discriminate.
    + rewrite (filter_cons_True _ y) by exact Hy. rewrite IH.
      rewrite !(filter_cons_False _ x) by exact Hx.
      rewrite (filter_cons_True _ y) by exact Hy. reflexivity.
  - rewrite (filter_cons_False _ y) by exact Hy. rewrite IH.
    destruct (decide (tied v (key x))) as [Hx|Hx].
    + rewrite !(filter_cons_True _ x) by exact Hx.
      rewrite (filter_cons_False _ y) by exact Hy. reflexivity.
    + rewrite !(filter_cons_False _ x) by exact Hx.
      rewrite (filter_cons_False _ y) by exact Hy. reflexivity.
Qed.

Lemma sort_desc_stable (v : Q) (l : list A) :
  filter (λ y, tied v (key y)) (sort_desc key l) = filter (λ y, tied v (key y)) l.
Proof.
  induction l as [|x l IH]; [reflexivity|].
  unfold sort_desc in *. cbn [foldr]. rewrite insert_desc_tied.
  destruct (decide (tied v (key x))) as [Hx|Hx].
  - rewrite !(filter_cons_True _ x) by exact Hx. rewrite IH. reflexivity.
  - rewrite !(filter_cons_False _ x) by exact Hx. exact IH.
Qed.

Lemma sorted_lookup (l : list A) (i j : nat) (x y : A) :
  StronglySorted (ranks_before key) l →
  (i ≤ j)%nat → l !! i = Some x → l !! j = Some y → ranks_before key x y.
Proof.
  intros Hs. revert i j. induction Hs as [|z l Hs IH Hz]; intros i j Hij Hi Hj.
  - discriminate.
  - destruct i as [|i], j as [|j]; cbn in Hi, Hj.
    + injection Hi as <-. injection Hj as <-. apply key_ge_refl.
    + injection Hi as <-. rewrite Forall_forall in Hz. apply Hz.
      eapply list_elem_of_lookup_2. exact Hj.
    + lia.
    + eapply IH; [|eassumption..]. lia.
Qed.

(** The top-n selection: its size, what it leaves out, its order and its
    treatment of ties. *)
Lemma nlargest_spec (n : nat) (l : list A) :
  let top := nlargest n key l in
  length top = Nat.min n (length l)
  ∧ (∃ rest, top ++ rest ≡ₚ l
             ∧ ∀ x y, x ∈ top → y ∈ rest → ranks_before key x y)
  ∧ (∀ i j x y, (i ≤ j)%nat → top !! i = Some x → top !! j = Some y →
                ranks_before key x y)
  ∧ (∀ v, filter (λ y, tied v (key y)) top `prefix_of` filter (λ y, tied v (key y)) l).
Proof.
  intros top. subst top. unfold nlargest.
  pose proof (sort_desc_sorted l) as Hs. pose proof (sort_desc_perm l) as Hp.
  split; [|split; [|split]].
  - rewrite length_take, Hp. reflexivity.
  - exists (drop n (sort_desc key l)). rewrite take_drop. split; [exact Hp|].
    intros x y Hx Hy. rewrite <- (take_drop n (sort_desc key l)) in Hs.
    eapply StronglySorted_app_1_elem_of; eassumption.
  - intros i j x y Hij Hi Hj. eapply (sorted_lookup (take n (sort_desc key l))).
    + rewrite <- (take_drop n (sort_desc key l)) in Hs.
      eapply StronglySorted_app_1_l. exact Hs.
    + exact Hij.
    + exact Hi.
    + exact Hj.
  - intros v. rewrite <- (sort_desc_stable v l).
    rewrite <- (take_drop n (sort_desc key l)) at 2.
    rewrite filter_app. apply prefix_app_r. reflexivity.
Qed.

End SortFacts.

(** ** build_dashboard.py: the pure outperformer ranking *)

Lemma fmap_insert_desc {A B} (f : A → B) (key : B → option Q) (x : A) (l : list A) :
  f <$> insert_desc (key ∘ f) x l = insert_desc key (f x) (f <$> l).
Proof.
  induction l as [|y l IH]; cbn [insert_desc fmap list_fmap]; [reflexivity|].
  unfold compose at 1 2. destruct (key_ge (key (f x)) (key (f y))); [reflexivity|].
  cbn [fmap list_fmap]. f_equal. exact IH.
Qed.

Lemma fmap_sort_desc {A B} (f : A → B) (key : B → option Q) (l : list A) :
  f <$> sort_desc (key ∘ f) l = sort_desc key (f <$> l).
Proof.
  induction l as [|x l IH]; [reflexivity|].
  unfold sort_desc in *. cbn [foldr fmap list_fmap].
  rewrite fmap_insert_desc. f_equal. exact IH.
Qed.

Lemma apply_rows_Ok {A B} (f : A → result B) (l : list A) (ys : list B) :
  apply_rows f l = Ok ys → Forall2 (λ x y, f x = Ok y) l ys.
Proof.
  revert ys. induction l as [|x l IH]; intros ys; cbn [apply_rows].
  - intros [= <-]. constructor.
  - destruct (f x) as [y|e] eqn:Hx; [|discriminate].
    destruct (apply_rows f l) as [ys'|e]; [|discriminate].
    intros [= <-]. constructor; [exact Hx | apply IH; reflexivity].
Qed.

Lemma add_beat_market_Ok (bench : list Row) (r : Row) (d : DashRow) :
  add_beat_market bench r = Ok d →
  dr_row d = r
  ∧ ((is_benchmark r = false ∧ dr_Beat_Market d = "Yes"%string)
     ↔ qualifies bench r = true).
Proof.
  unfold add_beat_market, qualifies. destruct (is_benchmark r) eqn:Hb.
  - intros [= <-]. cbn. split; [reflexivity|]. split; [intros [? _]|]; discriminate.
  - destruct (benchmark_get bench (Ticker r)) as [b|]; [|discriminate].
    intros [= <-]. cbn. split; [reflexivity|].
    destruct (Series.gt1 (num r TR) (Some b)); split; try (discriminate || auto).
    intros [_ ?]. discriminate.
Qed.

Lemma outperformers_rows (bench : list Row) (rs : list Row) (ds : list DashRow) :
  Forall2 (λ r d, add_beat_market bench r = Ok d) rs ds →
  dr_row <$> outperformers ds = filter (λ r, qualifies bench r = true) rs.
Proof.
  unfold outperformers. induction 1 as [|r d rs ds Hrd _ IH]; [reflexivity|].
  apply add_beat_market_Ok in Hrd as [Hrow Hq].
  rewrite <- Hrow in Hq at 1.
  destruct (decide (qualifies bench r = true)) as [Hqr|Hqr].
  - rewrite filter_cons_True by (apply Hq; exact Hqr).
    rewrite (filter_cons_True _ r) by exact Hqr.
    cbn [fmap list_fmap]. rewrite Hrow, IH. reflexivity.
  - rewrite filter_cons_False by (intros Hc; apply Hqr, Hq, Hc).
    rewrite (filter_cons_False _ r) by exact Hqr. exact IH.
Qed.

Lemma qualifies_spec (bench : list Row) (r : Row) :
  qualifies bench r = true ↔ is_benchmark r = false ∧ beats_benchmark bench r.
Proof.
  unfold qualifies, beats_benchmark. rewrite andb_true_iff, negb_true_iff.
  destruct (benchmark_get bench (Ticker r)) as [b|].
  - rewrite SeriesFacts.gt1_true. split.
    + intros [Hb (x & y & Hx & [= <-] & Hlt)]. eauto 10.
    + intros [Hb (x & y & Hx & [= <-] & Hlt)]. eauto 10.
  - split; [intros [_ ?]; discriminate|]. intros [_ (x & y & _ & ? & _)]. discriminate.
Qed.

Lemma add_rank_lookup {A B} (mk : nat → A → B) (l : list A) (i : nat) :
  add_rank mk l !! i = mk (S i) <$> l !! i.
Proof. unfold add_rank. rewrite list_lookup_imap. reflexivity. Qed.

Lemma ranked_row_add_rank (l : list DashRow) :
  ranked_row <$> add_rank (λ i d, {| rd_Rank := i; rd_row := d |}) l = dr_row <$> l.
Proof.
  apply list_eq. intros i.
  rewrite !list_lookup_fmap, add_rank_lookup. destruct (l !! i); reflexivity.
Qed.

Lemma top10_rows (df : Table) (t : list RankedDashRow) :
  top10 df = Ok t →
  let rs := dropna_subset (rows df) in
  let bench := filter (λ r, is_benchmark r = true) rs in
  ranked_row <$> t
  = nlargest 20 (λ r, num r TR) (filter (λ r, qualifies bench r = true) rs)
  ∧ (∀ d, d ∈ t → is_benchmark (ranked_row d) = false
                  ∧ dr_Beat_Market (rd_row d) = "Yes"%string)
  ∧ (∀ i d, t !! i = Some d → rd_Rank d = S i).
Proof.
  unfold top10. intros Ht. cbv zeta in *.
  set (rs := dropna_subset (rows df)) in *.
  set (bench := filter (λ r, is_benchmark r = true) rs) in *.
  destruct (has_columns _ df); cbn [negb] in Ht; [|discriminate].
  destruct (apply_rows (add_beat_market bench) rs) as [ds|e] eqn:Hds; [|discriminate].
  destruct (has_columns [MDD] df); cbn [negb] in Ht; [|discriminate].
  injection Ht as <-. apply apply_rows_Ok in Hds.
  split; [|split].
  - rewrite ranked_row_add_rank. unfold nlargest. rewrite fmap_take.
    change dash_return with ((λ r, num r TR) ∘ dr_row).
    rewrite fmap_sort_desc, (outperformers_rows bench rs ds Hds). reflexivity.
  - intros d Hd. unfold add_rank in Hd.
    apply elem_of_lookup_imap in Hd as (i & x & Hd & Hx). subst d.
    unfold ranked_row. cbn [rd_row].
    apply list_elem_of_lookup_2 in Hx. unfold nlargest in Hx.
    apply (subseteq_take 20) in Hx. rewrite sort_desc_perm in Hx.
    unfold outperformers in Hx. apply list_elem_of_filter in Hx as [Hx _]. exact Hx.
  - intros i d Hi. rewrite add_rank_lookup in Hi.
    destruct (nlargest _ _ _ !! i); [|discriminate]. injection Hi as <-. reflexivity.
Qed.

Lemma dropna_subset_spec (l : list Row) (r : Row) :
  r ∈ dropna_subset l ↔ r ∈ l ∧ (∃ x, num r TR = Some x) ∧ (∃ s, num r SR = Some s).
Proof. unfold dropna_subset. rewrite list_elem_of_filter. unfold is_Some. tauto. Qed.

(** C6.  The pure outperformer ranking lists only non-Benchmark rows that
    beat the benchmark of their ticker (their total return exceeds that of
    the ticker's Benchmark row, or 0 when the table has no such row); it
    holds the 20 qualifying rows of largest total return, all of them when
    fewer than 20 qualify; total returns do not increase down the ranking;
    rows with equal total returns stand in input order; ranks count from
    1. *)
Theorem outperformer_ranking (df : Table) (t : list RankedDashRow) :
  top10 df = Ok t →
  let rs := dropna_subset (rows df) in
  let bench := filter (λ r, is_benchmark r = true) rs in
  let pool := filter (λ r, qualifies bench r = true) rs in
  let ret := λ d : RankedDashRow, num (ranked_row d) TR in
  (∀ d, d ∈ t →
     ranked_row d ∈ rs
     ∧ is_benchmark (ranked_row d) = false
     ∧ dr_Beat_Market (rd_row d) = "Yes"%string
     ∧ beats_benchmark bench (ranked_row d))
  ∧ (∀ d, d ∈ t →
       match filter (λ b, Ticker b = Ticker (ranked_row d)) bench with
       | [] => ∃ x, ret d = Some x ∧ (0 < x)%Q
       | [b] => ∃ x y, ret d = Some x ∧ num b TR = Some y ∧ (y < x)%Q
       | _ => False
       end)
  ∧ (∀ r, r ∈ pool ↔ r ∈ rs ∧ is_benchmark r = false ∧ beats_benchmark bench r)
  ∧ length t = Nat.min 20 (length pool)
  ∧ (∃ rest, (ranked_row <$> t) ++ rest ≡ₚ pool
             ∧ ∀ d r, d ∈ t → r ∈ rest →
                 ∃ x y, ret d = Some x ∧ num r TR = Some y ∧ (y <= x)%Q)
  ∧ (∀ i j di dj, (i ≤ j)%nat → t !! i = Some di → t !! j = Some dj →
       ∃ x y, ret di = Some x ∧ ret dj = Some y ∧ (y <= x)%Q)
  ∧ (∀ v, filter (λ r, tied v (num r TR)) (ranked_row <$> t)
          `prefix_of` filter (λ r, tied v (num r TR)) pool)
  ∧ (∀ i d, t !! i = Some d → rd_Rank d = S i).
Proof.
  intros Ht rs bench pool ret.
  destruct (top10_rows df t Ht) as (Hrows & Hyes & Hrank). fold rs bench pool in Hrows.
  destruct (nlargest_spec (λ r, num r TR) 20 pool) as (Hlen & (rest & Hperm & Hrest) & Hsort & Htie).
  rewrite <- Hrows in Hlen, Hperm, Hrest, Hsort, Htie.
  assert (Hpool : ∀ r, r ∈ pool ↔ r ∈ rs ∧ is_benchmark r = false ∧ beats_benchmark bench r).
  { intros r. unfold pool. rewrite list_elem_of_filter, qualifies_spec. tauto. }
  assert (Hin : ∀ d, d ∈ t → ranked_row d ∈ pool).
  { intros d Hd. rewrite <- Hperm. apply elem_of_app. left.
    apply list_elem_of_fmap. eauto. }
  assert (Hsome : ∀ r, r ∈ pool → ∃ x, num r TR = Some x).
  { intros r Hr. apply Hpool in Hr as [Hr _]. apply dropna_subset_spec in Hr. tauto. }
  split; [|split; [|split; [exact Hpool|split; [|split; [|split; [|split; [exact Htie|exact Hrank]]]]]]].
  - intros d Hd. destruct (Hyes d Hd) as [Hb Hy].
    destruct (proj1 (Hpool _) (Hin d Hd)) as (Hr & _ & Hbeat). auto.
  - intros d Hd. destruct (proj1 (Hpool _) (Hin d Hd)) as (_ & _ & Hbeat).
    destruct Hbeat as (x & b & Hx & Hget & Hlt). unfold benchmark_get in Hget.
    destruct (filter _ bench) as [|b0 [|b1 bs]].
    + injection Hget as <-. eauto.
    + eauto.
    + discriminate.
  - rewrite length_fmap in Hlen. exact Hlen.
  - exists rest. split; [exact Hperm|]. intros d r Hd Hr.
    destruct (Hsome _ (Hin d Hd)) as [x Hx].
    assert (r ∈ pool) as Hrp by (rewrite <- Hperm; apply elem_of_app; right; exact Hr).
    destruct (Hsome _ Hrp) as [y Hy]. exists x, y. split; [exact Hx|]. split; [exact Hy|].
    specialize (Hrest (ranked_row d) r). unfold ranks_before in Hrest.
    rewrite Hx, Hy in Hrest. apply key_ge_Some. apply Hrest; [|exact Hr].
    apply list_elem_of_fmap. eauto.
  - intros i j di dj Hij Hi Hj.
    destruct (Hsome _ (Hin di (list_elem_of_lookup_2 _ _ _ Hi))) as [x Hx].
    destruct (Hsome _ (Hin dj (list_elem_of_lookup_2 _ _ _ Hj))) as [y Hy].
    exists x, y. split; [exact Hx|]. split; [exact Hy|].
    specialize (Hsort i j (ranked_row di) (ranked_row dj) Hij). unfold ranks_before in Hsort.
    rewrite Hx, Hy in Hsort. apply key_ge_Some. apply Hsort.
    + rewrite list_lookup_fmap, Hi. reflexivity.
    + rewrite list_lookup_fmap, Hj. reflexivity.
Qed.

(** ** top_performers_analysis.py: the composite-score ranking *)

Lemma top_strategies_Ok (df : Table) (ts : list Ranked) :
  top_strategies df = Ok ts →
  ts = add_rank (λ i ms, {| rk_merged := ms.1; Composite_Score := ms.2; Rank := i |})
         (sort_desc snd
            ((λ m, (m, composite_score m))
               <$> filter (λ m, composite_filter m = true)
                     (merged_frame (dropna_subset (rows df))))).
Proof.
  unfold top_strategies. destruct (has_columns _ df); cbn [negb]; [|discriminate].
  destruct (has_columns [MDD] df); cbn [negb]; [|discriminate].
  intros [= <-]. reflexivity.
Qed.

Lemma composite_filter_spec (m : Merged) :
  composite_filter m = true ↔
  (∃ s, num (mg_row m) SR = Some s ∧ (1 # 2 < s)%Q)
  ∧ Beat_Market m = true
  ∧ (∃ x, num (mg_row m) TR = Some x ∧ (0 < x)%Q).
Proof.
  unfold composite_filter. rewrite !andb_true_iff, !SeriesFacts.gt1_true. split.
  - intros [[(s & h & Hs & [= <-] & Hlt) Hb] (x & z & Hx & [= <-] & Hpos)].
    split; [exists s; split; [exact Hs|]|split; [exact Hb | eauto]].
    revert Hlt. unfold Qlt. cbn. lia.
  - intros [(s & Hs & Hlt) [Hb (x & Hx & Hpos)]].
    split; [split; [|exact Hb]|eauto]. exists s, (5 # 10)%Q.
    split; [exact Hs|]. split; [reflexivity|]. revert Hlt. unfold Qlt. cbn. lia.
Qed.

(** What the join records for a strategy row. *)
Lemma merged_frame_spec (rs : list Row) (m : Merged) :
  m ∈ merged_frame rs →
  mg_row m ∈ rs
  ∧ is_benchmark (mg_row m) = false
  ∧ ((Benchmark_Return m = None
      ∧ ∀ b, b ∈ rs → is_benchmark b = true → Ticker b ≠ Ticker (mg_row m))
     ∨ (∃ b, b ∈ rs ∧ is_benchmark b = true ∧ Ticker b = Ticker (mg_row m)
             ∧ Benchmark_Return m = num b TR))
  ∧ (Beat_Market m = true ↔
     ∃ x b, num (mg_row m) TR = Some x ∧ Benchmark_Return m = Some b ∧ (b < x)%Q)
  ∧ Outperformance m = lift2 Qminus (num (mg_row m) TR) (Benchmark_Return m).
Proof.
  unfold merged_frame. rewrite list_elem_of_bind. intros (r & Hm & Hr).
  apply list_elem_of_filter in Hr as [Hnb Hr]. unfold merge_left in Hm.
  destruct (filter (λ b, Ticker b = Ticker r) _) as [|b0 bs] eqn:Hf.
  - apply list_elem_of_singleton in Hm as ->. cbn.
    split; [exact Hr|]. split; [exact Hnb|]. split; [|split; [|reflexivity]].
    + left. split; [reflexivity|]. intros b Hb Hbb Ht.
      assert (b ∈ filter (λ b, Ticker b = Ticker r)
                    (filter (λ r, is_benchmark r = true) rs)) as Hc.
      { apply list_elem_of_filter. split; [exact Ht|].
        apply list_elem_of_filter. split; assumption. }
      rewrite Hf in Hc. inversion Hc.
    + rewrite SeriesFacts.gt1_true. split; [intros (? & ? & _ & ? & _); discriminate|].
      intros (? & ? & _ & ? & _). discriminate.
  - apply list_elem_of_fmap in Hm as (b & -> & Hb). rewrite <- Hf in Hb.
    apply list_elem_of_filter in Hb as [Ht Hb]. apply list_elem_of_filter in Hb as [Hbb Hb].
    cbn. split; [exact Hr|]. split; [exact Hnb|]. split; [|split; [|reflexivity]].
    + right. exists b. auto.
    + apply SeriesFacts.gt1_true.
Qed.

Lemma composite_score_value (m : Merged) (s x o d : Q) :
  num (mg_row m) SR = Some s → num (mg_row m) TR = Some x →
  Outperformance m = Some o → num (mg_row m) MDD = Some d →
  ∃ c, composite_score m = Some c
       ∧ (c == (4 # 10) * s + (3 # 10) * (x / 100) + (2 # 10) * (o / 100)
               - (1 # 10) * (d / 100))%Q.
Proof.
  intros Hs Hx Ho Hd. unfold composite_score. rewrite Hs, Hx, Ho, Hd.
  eexists. split; [reflexivity|]. field.
Qed.

Lemma Qabs_small (a b : Q) : (a == b)%Q → (Qabs (a - b) < 1 # 1000000)%Q.
Proof.
  intros ->. assert (H : (b - b == 0)%Q) by ring. rewrite H. reflexivity.
Qed.

Lemma ranked_lookup (l : list (Merged * option Q)) (i : nat) (k : Ranked) :
  add_rank (λ i ms, {| rk_merged := ms.1; Composite_Score := ms.2; Rank := i |}) l !! i
  = Some k →
  l !! i = Some (rk_merged k, Composite_Score k) ∧ Rank k = S i.
Proof.
  rewrite add_rank_lookup. destruct (l !! i) as [[m c]|]; [|discriminate].
  intros [= <-]. split; reflexivity.
Qed.

Lemma ranked_merged (l : list (Merged * option Q)) :
  rk_merged <$> add_rank (λ i ms, {| rk_merged := ms.1; Composite_Score := ms.2;
                                     Rank := i |}) l
  = fst <$> l.
Proof.
  apply list_eq. intros i. rewrite !list_lookup_fmap, add_rank_lookup.
  destruct (l !! i); reflexivity.
Qed.

Lemma lift2_None_r (f : Q → Q → Q) (a : option Q) : lift2 f a None = None.
Proof. destruct a; reflexivity. Qed.

Lemma fst_scored (l : list Merged) : fst <$> ((λ m, (m, composite_score m)) <$> l) = l.
Proof.
  apply list_eq. intros i. rewrite !list_lookup_fmap. destruct (l !! i); reflexivity.
Qed.

Lemma top_strategies_kept (df : Table) (ts : list Ranked) :
  top_strategies df = Ok ts →
  rk_merged <$> ts
  ≡ₚ filter (λ m, composite_filter m = true) (merged_frame (dropna_subset (rows df))).
Proof.
  intros Hts. apply top_strategies_Ok in Hts. subst ts.
  rewrite ranked_merged, sort_desc_perm, fst_scored. reflexivity.
Qed.

(** C7.  The composite-score ranking keeps exactly the joined strategy rows
    with Sharpe Ratio > 0.5, Beat_Market true and total return > 0, and the
    Composite_Score stored with a kept row is
    0.4 x Sharpe + 0.3 x (return/100) + 0.2 x (outperformance/100)
    - 0.1 x (max drawdown/100) computed from the fields of that row, so a
    recomputation agrees within 1e-6 (a row without a max drawdown has no
    score). *)
Theorem composite_ranking (df : Table) (ts : list Ranked) :
  top_strategies df = Ok ts →
  let merged := merged_frame (dropna_subset (rows df)) in
  rk_merged <$> ts ≡ₚ filter (λ m, composite_filter m = true) merged
  ∧ (∀ m, m ∈ rk_merged <$> ts ↔
       m ∈ merged
       ∧ (∃ s, num (mg_row m) SR = Some s ∧ (1 # 2 < s)%Q)
       ∧ Beat_Market m = true
       ∧ (∃ x, num (mg_row m) TR = Some x ∧ (0 < x)%Q))
  ∧ (∀ k, k ∈ ts →
       ∃ s x b o,
         num (mg_row (rk_merged k)) SR = Some s
         ∧ num (mg_row (rk_merged k)) TR = Some x
         ∧ Benchmark_Return (rk_merged k) = Some b ∧ (b < x)%Q
         ∧ Outperformance (rk_merged k) = Some o ∧ (o == x - b)%Q
         ∧ match num (mg_row (rk_merged k)) MDD with
           | Some d =>
               ∃ c, Composite_Score k = Some c
                    ∧ (c == (4 # 10) * s + (3 # 10) * (x / 100)
                            + (2 # 10) * (o / 100) - (1 # 10) * (d / 100))%Q
                    ∧ (Qabs (c - ((4 # 10) * s + (3 # 10) * (x / 100)
                                  + (2 # 10) * (o / 100) - (1 # 10) * (d / 100)))
                       < 1 # 1000000)%Q
           | None => Composite_Score k = None
           end).
Proof.
  intros Hts merged. pose proof (top_strategies_kept df ts Hts) as Hperm.
  apply top_strategies_Ok in Hts. fold merged in Hts, Hperm.
  set (kept := filter (λ m, composite_filter m = true) merged) in *.
  split; [exact Hperm|]. split.
  - intros m. rewrite Hperm. unfold kept.
    rewrite list_elem_of_filter, composite_filter_spec. tauto.
  - intros k Hk.
    assert (Hscore : Composite_Score k = composite_score (rk_merged k)).
    { subst ts. apply list_elem_of_lookup_1 in Hk as [i Hi].
      apply ranked_lookup in Hi as [Hi _]. apply list_elem_of_lookup_2 in Hi.
      rewrite sort_desc_perm in Hi. apply list_elem_of_fmap in Hi as (m & [= -> ->] & _).
      reflexivity. }
    assert (Hin : rk_merged k ∈ kept).
    { rewrite <- Hperm. apply list_elem_of_fmap. eauto. }
    apply list_elem_of_filter in Hin as [Hf Hin].
    apply composite_filter_spec in Hf as [(s & Hs & Hlt) [Hb (x & Hx & Hpos)]].
    destruct (merged_frame_spec _ _ Hin) as (_ & _ & _ & Hbeat & Hout).
    apply Hbeat in Hb as (x' & b & Hx' & Hbr & Hbx).
    rewrite Hx in Hx'. injection Hx' as <-.
    exists s, x, b, (x - b)%Q. rewrite Hout, Hx, Hbr. cbn [lift2].
    repeat (split; [assumption || reflexivity|]).
    destruct (num (mg_row (rk_merged k)) MDD) as [d|] eqn:Hd.
    + destruct (composite_score_value (rk_merged k) s x (x - b)%Q d) as (c & Hc & Heq);
        [assumption | assumption | rewrite Hout, Hx, Hbr; reflexivity | assumption |].
      exists c. rewrite Hscore. split; [exact Hc|]. split; [exact Heq|].
      apply Qabs_small, Heq.
    + rewrite Hscore. unfold composite_score. rewrite Hd.
      apply (lift2_None_r Qplus).
Qed.

(** C10.  The detailed CSV holds every joined strategy row that passes the
    composite filter, not only 25 of them, each once; its Rank column counts
    1, 2, 3, ... down the file; Composite_Score does not increase down the
    file (rows without a score come last); the 25-row cut is applied to the
    ranking table of the HTML page only. *)
Theorem detailed_csv_complete (df : Table) (out : TopPerformersOutput) :
  top_performers_analysis df = Ok out →
  let passing :=
    filter (λ m, composite_filter m = true) (merged_frame (dropna_subset (rows df))) in
  rk_merged <$> detailed_csv out ≡ₚ passing
  ∧ length (detailed_csv out) = length passing
  ∧ (∀ i k, detailed_csv out !! i = Some k → Rank k = S i)
  ∧ (∀ i j ki kj, (i ≤ j)%nat →
       detailed_csv out !! i = Some ki → detailed_csv out !! j = Some kj →
       ranks_before Composite_Score ki kj
       ∧ ∀ x y, Composite_Score ki = Some x → Composite_Score kj = Some y → (y <= x)%Q)
  ∧ top_display out = take 25 (detailed_csv out)
  ∧ length (top_display out) = Nat.min 25 (length passing).
Proof.
  intros Hout. cbv zeta.
  set (passing := filter (λ m, composite_filter m = true)
                    (merged_frame (dropna_subset (rows df)))).
  unfold top_performers_analysis in Hout.
  destruct (top_strategies df) as [ts|e] eqn:Hts; [|discriminate].
  destruct (forallb _ display_cols); cbn [negb] in Hout; [|discriminate].
  injection Hout as <-. cbn [detailed_csv top_display].
  pose proof (top_strategies_kept df ts Hts) as Hperm. fold passing in Hperm.
  assert (Hlen : length ts = length passing).
  { rewrite <- Hperm, length_fmap. reflexivity. }
  apply top_strategies_Ok in Hts. fold passing in Hts.
  split; [exact Hperm|]. split; [exact Hlen|]. split; [|split; [|split]].
  - intros i k Hi. subst ts. apply ranked_lookup in Hi as [_ Hr]. exact Hr.
  - intros i j ki kj Hij Hi Hj. subst ts.
    apply ranked_lookup in Hi as [Hi _]. apply ranked_lookup in Hj as [Hj _].
    pose proof (sorted_lookup snd _ i j _ _ (sort_desc_sorted snd _) Hij Hi Hj) as Hs.
    unfold ranks_before in *. cbn in Hs. split; [exact Hs|].
    intros x y Hx Hy. rewrite Hx, Hy in Hs. apply key_ge_Some, Hs.
  - reflexivity.
  - unfold top_n. rewrite length_take, Hlen. reflexivity.
Qed.

(** ** The rankings on an explicit results table *)

Lemma top10_example_run : top10 Examples.metrics_table = Ok Examples.top10_example.
Proof. vm_compute. reflexivity. Qed.

Lemma top_strategies_example_run :
  top_strategies Examples.metrics_table = Ok Examples.top_strategies_example.
Proof. vm_compute. reflexivity. Qed.

Lemma top_performers_example_run :
  top_performers_analysis Examples.metrics_table = Ok Examples.output_example.
Proof. vm_compute. reflexivity. Qed.

(** The example of the specification: "INTC" Trend lost 4.8 percent, less
    than the 5.7 percent its benchmark lost, and is ranked third, after the
    two "NVDA" rows that tie at 50 percent and stand in input order. *)
Lemma top10_example_value :
  (λ d, (rd_Rank d, Ticker (ranked_row d), Strategy (ranked_row d),
         Qred <$> num (ranked_row d) TR)) <$> Examples.top10_example
  = [(1%nat, "NVDA", "Trend", Some 50%Q);
     (2%nat, "NVDA", "Low_Vol", Some 50%Q);
     (3%nat, "INTC", "Trend", Some (-(24 # 5))%Q)]%string.
Proof. vm_compute. reflexivity. Qed.

Lemma top_strategies_example_value :
  (λ k, (Rank k, Ticker (mg_row (rk_merged k)), Strategy (mg_row (rk_merged k)),
         Qred <$> Composite_Score k)) <$> Examples.top_strategies_example
  = [(1%nat, "NVDA", "Trend", Some (69 # 100)%Q);
     (2%nat, "NVDA", "Low_Vol", Some (14 # 25)%Q)]%string.
Proof. vm_compute. reflexivity. Qed.

Lemma nvda_run :
  @analyze ref_indicators ref_stats Examples.provider "NVDA" = Ok (Some Examples.nvda).
Proof. vm_compute. reflexivity. Qed.

Lemma start_date_synchronisation_witness :
  let yf_download := Examples.provider in
  let T := "NVDA"%string in
  let a := Examples.nvda in
  @analyze ref_indicators ref_stats yf_download T = Ok (Some a)
  ∧ (let idx := db_index (an_daily a) in
  (∃ m, list_min (an_first_dates a) = Some m
        ∧ m ∈ an_first_dates a ∧ (∀ d, d ∈ an_first_dates a → m ≤ d)
        ∧ m ≤ an_start a ∧ an_start a ∈ idx
        ∧ ((m ∈ idx ∧ an_start a = m)
           ∨ ((m ∉ idx) ∧ head (filter (λ d, m ≤ d) idx) = Some (an_start a)))
        ∧ (StronglySorted Z.lt idx → ∀ d, d ∈ idx → m ≤ d → an_start a ≤ d))
  ∧ an_first_dates a
    = first_dates_of (an_pf_trend a) (db_high_vol (an_daily a)) (db_low_vol (an_daily a))
  ∧ head (pf_wrapper_index (an_benchmark a)) = Some (an_start a)
  ∧ pf_wrapper_index (an_pf_trend a) = b_date <$> an_weekly a
  ∧ pf_wrapper_index (db_high_vol (an_daily a)) = idx
  ∧ pf_wrapper_index (db_low_vol (an_daily a)) = idx).
Proof.
  intros yf_download T a. split; [exact nvda_run|].
  exact (@start_date_synchronisation ref_indicators ref_stats yf_download T a nvda_run).
Defined.

Lemma outperformer_ranking_witness :
  let df := Examples.metrics_table in
  let t := Examples.top10_example in
  top10 df = Ok t
  ∧ (let rs := dropna_subset (rows df) in
  let bench := filter (λ r, is_benchmark r = true) rs in
  let pool := filter (λ r, qualifies bench r = true) rs in
  let ret := λ d : RankedDashRow, num (ranked_row d) TR in
  (∀ d, d ∈ t →
     ranked_row d ∈ rs
     ∧ is_benchmark (ranked_row d) = false
     ∧ dr_Beat_Market (rd_row d) = "Yes"%string
     ∧ beats_benchmark bench (ranked_row d))
  ∧ (∀ d, d ∈ t →
       match filter (λ b, Ticker b = Ticker (ranked_row d)) bench with
       | [] => ∃ x, ret d = Some x ∧ (0 < x)%Q
       | [b] => ∃ x y, ret d = Some x ∧ num b TR = Some y ∧ (y < x)%Q
       | _ => False
       end)
  ∧ (∀ r, r ∈ pool ↔ r ∈ rs ∧ is_benchmark r = false ∧ beats_benchmark bench r)
  ∧ length t = Nat.min 20 (length pool)
  ∧ (∃ rest, (ranked_row <$> t) ++ rest ≡ₚ pool
             ∧ ∀ d r, d ∈ t → r ∈ rest →
                 ∃ x y, ret d = Some x ∧ num r TR = Some y ∧ (y <= x)%Q)
  ∧ (∀ i j di dj, (i ≤ j)%nat → t !! i = Some di → t !! j = Some dj →
       ∃ x y, ret di = Some x ∧ ret dj = Some y ∧ (y <= x)%Q)
  ∧ (∀ v, filter (λ r, tied v (num r TR)) (ranked_row <$> t)
          `prefix_of` filter (λ r, tied v (num r TR)) pool)
  ∧ (∀ i d, t !! i = Some d → rd_Rank d = S i)).
Proof.
  intros df t. split; [exact top10_example_run|].
  exact (outperformer_ranking df t top10_example_run).
Defined.

Lemma composite_ranking_witness :
  let df := Examples.metrics_table in
  let ts := Examples.top_strategies_example in
  top_strategies df = Ok ts
  ∧ (let merged := merged_frame (dropna_subset (rows df)) in
  rk_merged <$> ts ≡ₚ filter (λ m, composite_filter m = true) merged
  ∧ (∀ m, m ∈ rk_merged <$> ts ↔
       m ∈ merged
       ∧ (∃ s, num (mg_row m) SR = Some s ∧ (1 # 2 < s)%Q)
       ∧ Beat_Market m = true
       ∧ (∃ x, num (mg_row m) TR = Some x ∧ (0 < x)%Q))
  ∧ (∀ k, k ∈ ts →
       ∃ s x b o,
         num (mg_row (rk_merged k)) SR = Some s
         ∧ num (mg_row (rk_merged k)) TR = Some x
         ∧ Benchmark_Return (rk_merged k) = Some b ∧ (b < x)%Q
         ∧ Outperformance (rk_merged k) = Some o ∧ (o == x - b)%Q
         ∧ match num (mg_row (rk_merged k)) MDD with
           | Some d =>
               ∃ c, Composite_Score k = Some c
                    ∧ (c == (4 # 10) * s + (3 # 10) * (x / 100)
                            + (2 # 10) * (o / 100) - (1 # 10) * (d / 100))%Q
                    ∧ (Qabs (c - ((4 # 10) * s + (3 # 10) * (x / 100)
                                  + (2 # 10) * (o / 100) - (1 # 10) * (d / 100)))
                       < 1 # 1000000)%Q
           | None => Composite_Score k = None
           end)).
Proof.
  intros df ts. split; [exact top_strategies_example_run|].
  exact (composite_ranking df ts top_strategies_example_run).
Defined.

Lemma detailed_csv_complete_witness :
  let df := Examples.metrics_table in
  let out := Examples.output_example in
  top_performers_analysis df = Ok out
  ∧ (let passing :=
    filter (λ m, composite_filter m = true) (merged_frame (dropna_subset (rows df))) in
  rk_merged <$> detailed_csv out ≡ₚ passing
  ∧ length (detailed_csv out) = length passing
  ∧ (∀ i k, detailed_csv out !! i = Some k → Rank k = S i)
  ∧ (∀ i j ki kj, (i ≤ j)%nat →
       detailed_csv out !! i = Some ki → detailed_csv out !! j = Some kj →
       ranks_before Composite_Score ki kj
       ∧ ∀ x y, Composite_Score ki = Some x → Composite_Score kj = Some y → (y <= x)%Q)
  ∧ top_display out = take 25 (detailed_csv out)
  ∧ length (top_display out) = Nat.min 25 (length passing)).
Proof.
  intros df out. split; [exact top_performers_example_run|].
  exact (detailed_csv_complete df out top_performers_example_run).
Defined.

(** ** Output file names *)

Section SafeFilenameFacts.
Variable isalnum_unicode : N → bool.

Lemma re_kept_underscore : re_kept isalnum_unicode 95%N = true.
Proof. reflexivity. Qed.

Lemma re_kept_ascii (c : N) :
  (c < 128)%N →
  re_kept isalnum_unicode c = true ↔
  (48 ≤ c ≤ 57 ∨ 65 ≤ c ≤ 90 ∨ 97 ≤ c ≤ 122 ∨ c = 45 ∨ c = 95 ∨ c = 46 ∨ c = 32)%N.
Proof.
  intros Hc. unfold re_kept, re_word.
  destruct (N.ltb_spec c 128) as [_|?]; [|lia].
  rewrite !orb_true_iff, !andb_true_iff, !N.leb_le, !N.eqb_eq. lia.
Qed.

Lemma safe_filename_lookup (s : list N) (i : nat) :
  safe_filename isalnum_unicode s !! i = (λ c, if re_kept isalnum_unicode c then c else 95%N) <$> s !! i.
Proof. unfold safe_filename. apply list_lookup_fmap. Qed.

Lemma safe_filename_kept (s : list N) : Forall (λ c, re_kept isalnum_unicode c = true) (safe_filename isalnum_unicode s).
Proof.
  unfold safe_filename. apply Forall_fmap, Forall_forall. intros c _. cbn.
  destruct (re_kept isalnum_unicode c) eqn:Hc; [exact Hc | apply re_kept_underscore].
Qed.

Lemma safe_filename_fixed (s : list N) :
  safe_filename isalnum_unicode s = s ↔ Forall (λ c, re_kept isalnum_unicode c = true) s.
Proof.
  split.
  - intros <-. apply safe_filename_kept.
  - intros Hs. unfold safe_filename. induction Hs as [|c s Hc _ IH]; [reflexivity|].
    cbn [fmap list_fmap]. rewrite Hc. f_equal. exact IH.
Qed.

(** X1: the alphabet of a report file name.  The file name has the length
    of the ticker; every character of it is a
    word character or one of "-", "_", ".", " ", so among the ASCII
    characters only letters, digits and these four occur: no path separator,
    no colon, no control character.  Cleaning a clean name changes nothing,
    and a name is left unchanged exactly when all its characters are
    allowed. *)
Theorem safe_filename_alphabet (s : list N) :
  length (safe_filename isalnum_unicode s) = length s
  ∧ Forall (λ c, re_kept isalnum_unicode c = true) (safe_filename isalnum_unicode s)
  ∧ (∀ c, c ∈ safe_filename isalnum_unicode s → (c < 128)%N →
       (48 ≤ c ≤ 57 ∨ 65 ≤ c ≤ 90 ∨ 97 ≤ c ≤ 122
        ∨ c = 45 ∨ c = 95 ∨ c = 46 ∨ c = 32)%N)
  ∧ (∀ c, c ∈ safe_filename isalnum_unicode s → c ≠ 47%N ∧ c ≠ 92%N ∧ c ≠ 58%N ∧ c ≠ 0%N)
  ∧ safe_filename isalnum_unicode (safe_filename isalnum_unicode s) = safe_filename isalnum_unicode s
  ∧ (safe_filename isalnum_unicode s = s ↔ Forall (λ c, re_kept isalnum_unicode c = true) s).
Proof.
  pose proof (safe_filename_kept s) as Hk. rewrite Forall_forall in Hk.
  split; [apply length_fmap|]. split; [apply safe_filename_kept|].
  split; [|split; [|split]].
  - intros c Hc Hlt. apply re_kept_ascii; [exact Hlt | exact (Hk c Hc)].
  - intros c Hc. specialize (Hk c Hc).
    repeat split; intros ->; vm_compute in Hk; discriminate.
  - apply safe_filename_fixed, safe_filename_kept.
  - apply safe_filename_fixed.
Qed.

Lemma safe_char_eq (a b : N) :
  (if re_kept isalnum_unicode a then a else 95%N)
  = (if re_kept isalnum_unicode b then b else 95%N)
  ↔ a = b
    ∨ (becomes_underscore isalnum_unicode a ∧ becomes_underscore isalnum_unicode b).
Proof.
  unfold becomes_underscore.
  destruct (re_kept isalnum_unicode a) eqn:Ha, (re_kept isalnum_unicode b) eqn:Hb; split.
  - intros ->. left. reflexivity.
  - intros [->|[[?| ->] [?| ->]]]; congruence.
  - intros ->. right. split; [right|left]; congruence.
  - intros [->|[[?| ->] _]]; congruence.
  - intros <-. right. split; [left|right]; congruence.
  - intros [->|[_ [?| ->]]]; congruence.
  - intros _. right. split; left; reflexivity.
  - reflexivity.
Qed.

(** X2: when two tickers share a report file.  Two tickers get the same
    file name exactly when they have the same length and, position by
    position, carry the same character or two characters that both end as
    an underscore (the underscore itself or a character outside the allowed
    set); the report of the later ticker then overwrites the earlier one. *)
Theorem safe_filename_collisions (s1 s2 : list N) :
  safe_filename isalnum_unicode s1 = safe_filename isalnum_unicode s2
  ↔ Forall2 (λ a b, a = b ∨ (becomes_underscore isalnum_unicode a
                              ∧ becomes_underscore isalnum_unicode b)) s1 s2.
Proof.
  unfold safe_filename. revert s2. induction s1 as [|a s1 IH]; intros [|b s2]; cbn [fmap list_fmap].
  - split; [constructor | reflexivity].
  - split; [discriminate | inversion 1].
  - split; [discriminate | inversion 1].
  - split.
    + intros [= Hab Hs]. constructor; [apply safe_char_eq, Hab | apply IH, Hs].
    + inversion 1 as [|? ? ? ? Hab Hs]; subst. f_equal; [apply safe_char_eq, Hab | apply IH, Hs].
Qed.

End SafeFilenameFacts.

(** ** Display of a metric and the statistics table *)

Lemma digit_char_spec (n : Z) :
  is_digit (digit_char n) = true
  ∧ Z.of_nat (nat_of_ascii (digit_char n)) - 48 = n mod 10.
Proof.
  unfold is_digit, digit_char.
  pose proof (Z.mod_pos_bound n 10 ltac:(lia)) as Hm.
  rewrite nat_ascii_embedding by lia.
  split; [|lia].
  apply andb_true_iff. split; apply Nat.leb_le; lia.
Qed.

Lemma digits_value_app (acc : Z) (s1 s2 : string) :
  digits_value acc (s1 +:+ s2) = digits_value acc s1 ≫= λ a, digits_value a s2.
Proof.
  revert acc. induction s1 as [|c s1 IH]; intros acc; [reflexivity|].
  change (String c s1 +:+ s2) with (String c (s1 +:+ s2)). cbn [digits_value].
  destruct (is_digit c); [apply IH | reflexivity].
Qed.

Lemma string_length_app (s1 s2 : string) :
  String.length (s1 +:+ s2) = (String.length s1 + String.length s2)%nat.
Proof.
  induction s1 as [|c s1 IH]; [reflexivity|].
  change (String c s1 +:+ s2) with (String c (s1 +:+ s2)). cbn [String.length].
  rewrite IH. reflexivity.
Qed.

Lemma low_digits_length (w : nat) (n : Z) : String.length (low_digits w n) = w.
Proof.
  revert n. induction w as [|w IH]; intros n; cbn [low_digits]; [reflexivity|].
  rewrite string_length_app, IH. cbn. lia.
Qed.

Lemma low_digits_value (w : nat) (n acc : Z) :
  digits_value acc (low_digits w n) = Some (acc * 10 ^ Z.of_nat w + n mod 10 ^ Z.of_nat w).
Proof.
  revert n. induction w as [|w IH]; intros n; cbn [low_digits].
  - cbn. rewrite Z.mod_1_r. f_equal. lia.
  - rewrite digits_value_app, IH. cbn [mbind option_bind digits_value].
    destruct (digit_char_spec n) as [-> ->]. f_equal.
    rewrite Nat2Z.inj_succ, Z.pow_succ_r by lia.
    assert (H10 : 0 < 10 ^ Z.of_nat w) by (apply Z.pow_pos_nonneg; lia).
    rewrite (Z.rem_mul_r n 10 (10 ^ Z.of_nat w)) by lia. ring.
Qed.

Lemma nat_digits_value (fuel : nat) (n acc : Z) :
  fuel ≠ O → 0 ≤ n < 2 ^ Z.of_nat fuel →
  nat_digits fuel n ≠ EmptyString
  ∧ digits_value acc (nat_digits fuel n)
    = Some (acc * 10 ^ Z.of_nat (String.length (nat_digits fuel n)) + n).
Proof.
  revert n acc. induction fuel as [|fuel IH]; intros n acc Hf Hn; [congruence|].
  clear Hf.
  - cbn [nat_digits]. destruct (Z.ltb_spec n 10) as [Hlt|Hge].
    + split; [discriminate|]. cbn [digits_value String.length].
      destruct (digit_char_spec n) as [-> ->]. f_equal.
      rewrite Z.mod_small by lia. lia.
    + assert (Hq : 0 ≤ n / 10 < 2 ^ Z.of_nat fuel).
      { rewrite Nat2Z.inj_succ, Z.pow_succ_r in Hn by lia.
        split; [apply Z.div_pos; lia|].
        apply Z.div_lt_upper_bound; lia. }
      assert (Hf : fuel ≠ O).
      { intros ->. cbn in Hq. assert (1 ≤ n / 10) by (apply Z.div_le_lower_bound; lia). lia. }
      destruct (IH (n / 10) acc Hf Hq) as [Hne Hv]. split.
      * destruct (nat_digits fuel (n / 10)); [congruence|].
        intros Hc. discriminate Hc.
      * rewrite digits_value_app, Hv. cbn [mbind option_bind digits_value].
        destruct (digit_char_spec n) as [-> ->]. f_equal.
        rewrite string_length_app. cbn [String.length].
        rewrite Nat2Z.inj_add, Z.pow_add_r by lia. change (10 ^ Z.of_nat 1) with 10.
        pose proof (Z.div_mod n 10 ltac:(lia)). lia.
Qed.

Lemma str_nat_value (n : Z) :
  0 ≤ n → str_nat n ≠ EmptyString ∧ digits_value 0 (str_nat n) = Some n.
Proof.
  intros Hn. unfold str_nat.
  assert (Hb : 0 ≤ n < 2 ^ Z.of_nat (S (Z.to_nat (Z.log2 n)))).
  { split; [exact Hn|]. rewrite Nat2Z.inj_succ, Z2Nat.id by apply Z.log2_nonneg.
    destruct (Z.eq_dec n 0) as [->|Hz]; [reflexivity|].
    apply Z.log2_spec. lia. }
  destruct (nat_digits_value _ n 0 (Nat.neq_succ_0 _) Hb) as [Hne Hv]. split; [exact Hne|].
  rewrite Hv. reflexivity.
Qed.

(** A string of digits holds no point and does not start with a minus
    sign. *)
Lemma digits_split_dot (s rest : string) (acc v : Z) :
  digits_value acc s = Some v →
  split_dot (s +:+ rest) = (s +:+ (split_dot rest).1, (split_dot rest).2).
Proof.
  revert acc. induction s as [|c s IH]; intros acc Hv.
  - change ("" +:+ rest) with rest. destruct (split_dot rest); reflexivity.
  - change (String c s +:+ rest) with (String c (s +:+ rest)).
    cbn [digits_value] in Hv. cbn [split_dot].
    destruct (is_digit c) eqn:Hc; [|discriminate].
    destruct (Ascii.eqb_spec c ".") as [->|_]; [discriminate Hc|].
    rewrite (IH _ Hv). reflexivity.
Qed.

Lemma digits_head (s : string) (acc v : Z) :
  digits_value acc s = Some v → s ≠ EmptyString →
  ∃ c s', s = String c s' ∧ is_digit c = true.
Proof.
  destruct s as [|c s]; [congruence|]. cbn [digits_value].
  destruct (is_digit c) eqn:Hc; [eauto | discriminate].
Qed.

Lemma string_app_empty_r (s : string) : s +:+ "" = s.
Proof.
  induction s as [|c s IH]; [reflexivity|].
  change (String c s +:+ "") with (String c (s +:+ "")). rewrite IH. reflexivity.
Qed.

(** The numeral of a rounded number [n] with [d] decimals denotes
    [n / 10^d]. *)
Lemma unsigned_numeral_value (d : nat) (n : Z) :
  0 ≤ n →
  let s := str_nat (n / 10 ^ Z.of_nat d)
           +:+ match d with O => "" | _ => "." +:+ low_digits d n end in
  (∃ c s', s = String c s' ∧ is_digit c = true)
  ∧ ∃ x, unsigned_value s = Some x
         ∧ (x * inject_Z (10 ^ Z.of_nat d) == inject_Z n)%Q.
Proof.
  intros Hn. cbv zeta.
  assert (HP : 0 < 10 ^ Z.of_nat d) by (apply Z.pow_pos_nonneg; lia).
  assert (Hq : 0 ≤ n / 10 ^ Z.of_nat d) by (apply Z.div_pos; lia).
  destruct (str_nat_value _ Hq) as [Hne Hv].
  destruct (digits_head _ _ _ Hv Hne) as (c & s' & Hs & Hc).
  split.
  { exists c. rewrite Hs. eexists. split; [reflexivity | exact Hc]. }
  unfold unsigned_value. rewrite (digits_split_dot _ _ _ _ Hv).
  clear Hne. revert Hv Hs. generalize (str_nat (n / 10 ^ Z.of_nat d)).
  intros s0 Hv ->.
  destruct d as [|d'].
  - cbn [split_dot fst snd]. rewrite string_app_empty_r, Hv.
    cbn [fmap option_fmap option_map].
    eexists. split; [reflexivity|].
    change (10 ^ Z.of_nat 0) with 1. rewrite Z.div_1_r.
    unfold Qeq, Qmult, inject_Z. cbn. lia.
  - set (d := S d') in *.
    change ("." +:+ low_digits d n) with (String "." (low_digits d n)).
    cbn [split_dot]. change (Ascii.eqb "." ".") with true.
    cbn [fst snd]. rewrite string_app_empty_r, Hv.
    cbn [mbind option_bind]. rewrite low_digits_value. cbn [mbind option_bind].
    eexists. split; [reflexivity|]. rewrite low_digits_length.
    rewrite Z.mul_0_l, Z.add_0_l.
    pose proof (Z.div_mod n (10 ^ Z.of_nat d) ltac:(lia)) as Hdm.
    rewrite Hdm at 3. rewrite inject_Z_plus, inject_Z_mult.
    assert (Hnz : ¬ (inject_Z (10 ^ Z.of_nat d) == 0)%Q).
    { unfold Qeq, inject_Z. cbn. lia. }
    field. exact Hnz.
Qed.

Lemma round_half_even_spec (q : Q) :
  (Qabs (inject_Z (round_half_even q) - q) <= 1 # 2)%Q
  ∧ ((0 <= q)%Q → 0 ≤ round_half_even q).
Proof.
  unfold round_half_even.
  pose proof (Qfloor_le q) as Hlo. pose proof (Qlt_floor q) as Hhi.
  rewrite inject_Z_plus in Hhi. change (inject_Z 1) with 1%Q in Hhi.
  assert (Hnn : (0 <= q)%Q → 0 ≤ Qfloor q).
  { intros H0. change 0 with (Qfloor 0). apply Qfloor_resp_le, H0. }
  destruct (q - inject_Z (Qfloor q) ?= 1 # 2)%Q eqn:Hc.
  - apply Qeq_alt in Hc. split.
    + destruct (Z.even (Qfloor q)).
      * apply Qabs_Qle_condition. split; lra.
      * rewrite inject_Z_plus. change (inject_Z 1) with 1%Q.
        apply Qabs_Qle_condition. split; lra.
    + intros H0. specialize (Hnn H0). destruct (Z.even _); lia.
  - apply Qlt_alt in Hc. split; [|exact Hnn].
    apply Qabs_Qle_condition. split; lra.
  - apply Qgt_alt in Hc. split.
    + rewrite inject_Z_plus. change (inject_Z 1) with 1%Q.
      apply Qabs_Qle_condition. split; lra.
    + intros H0. specialize (Hnn H0). lia.
Qed.

Lemma unsigned_value_digits (s : string) (v : Z) :
  digits_value 0 s = Some v → s ≠ EmptyString → unsigned_value s = Some (inject_Z v).
Proof.
  intros Hv Hne. unfold unsigned_value.
  pose proof (digits_split_dot s "" 0 v Hv) as Hsd.
  rewrite string_app_empty_r in Hsd. cbn [split_dot fst snd] in Hsd.
  rewrite string_app_empty_r in Hsd. rewrite Hsd.
  destruct s as [|c s]; [congruence|]. rewrite Hv. reflexivity.
Qed.

Lemma digit_not_minus (c : ascii) : is_digit c = true → Ascii.eqb c "-" = false.
Proof.
  intros Hc. destruct (Ascii.eqb_spec c "-") as [->|_]; [discriminate Hc | reflexivity].
Qed.

Lemma numeral_head_not_NA (s suffix : string) :
  numeral_head s → s +:+ suffix ≠ "N/A".
Proof.
  intros (c & s' & -> & Hc). change (String c s' +:+ suffix) with (String c (s' +:+ suffix)).
  intros [= -> _]. destruct Hc as [Hc|Hc]; discriminate Hc.
Qed.

Lemma str_int_value (z : Z) :
  numeral_head (str_int z) ∧ decimal_value (str_int z) = Some (inject_Z z).
Proof.
  unfold str_int. destruct (Z.ltb_spec z 0) as [Hneg|Hpos].
  - destruct (str_nat_value (- z) ltac:(lia)) as [Hne Hv]. split.
    + exists "-"%char. eexists. split; [reflexivity | left; reflexivity].
    + change ("-" +:+ str_nat (- z)) with (String "-" (str_nat (- z))).
      unfold decimal_value. change (Ascii.eqb "-" "-") with true.
      rewrite (unsigned_value_digits _ _ Hv Hne). cbn [fmap option_fmap option_map].
      f_equal. unfold Qopp, inject_Z. cbn. f_equal. lia.
  - destruct (str_nat_value z Hpos) as [Hne Hv].
    destruct (digits_head _ _ _ Hv Hne) as (c & s' & Hs & Hc). split.
    + exists c, s'. split; [exact Hs | right; exact Hc].
    + pose proof (unsigned_value_digits _ _ Hv Hne) as Hu. rewrite Hs in Hu |- *.
      unfold decimal_value. rewrite (digit_not_minus c Hc). exact Hu.
Qed.

(** What the formatted text denotes: [|v|] rounded to [d] decimals, with
    the sign of [v]. *)
Lemma format_fixed_value (d : nat) (v : Q) :
  numeral_head (format_fixed d v)
  ∧ ∃ x, decimal_value (format_fixed d v) = Some x
         ∧ (Qabs (x - v) * inject_Z (2 * 10 ^ Z.of_nat d) <= 1)%Q
         ∧ (∃ k, x * inject_Z (10 ^ Z.of_nat d) == inject_Z k)%Q.
Proof.
  unfold format_fixed.
  set (P := 10 ^ Z.of_nat d).
  assert (HP : 0 < P) by (apply Z.pow_pos_nonneg; lia).
  assert (HPq : (0 < inject_Z P)%Q) by (unfold Qlt, inject_Z; cbn; lia).
  set (r := (Qabs v * inject_Z P)%Q).
  assert (Hr : (0 <= r)%Q).
  { unfold r. apply Qmult_le_0_compat; [apply Qabs_nonneg | lra]. }
  destruct (round_half_even_spec r) as [Hround Hnn]. specialize (Hnn Hr).
  set (n := round_half_even r) in *.
  destruct (unsigned_numeral_value d n Hnn) as [(c & s' & Hs & Hc) (x & Hx & Hxn)].
  fold P in Hs, Hx, Hxn.
  set (s := str_nat (n / P) +:+ match d with O => "" | _ => "." +:+ low_digits d n end) in *.
  assert (H2 : (inject_Z (2 * P) == 2 * inject_Z P)%Q) by (rewrite inject_Z_mult; reflexivity).
  apply Qabs_Qle_condition in Hround as [Hr1 Hr2].
  destruct (Qlt_le_dec v 0) as [Hneg|Hpos].
  - change ("-" +:+ s) with (String "-" s). split.
    + exists "-"%char, s. split; [reflexivity | left; reflexivity].
    + exists (- x)%Q. unfold decimal_value. change (Ascii.eqb "-" "-") with true.
      rewrite Hx. split; [reflexivity|]. split.
      * rewrite H2. assert (Ha : (Qabs v == - v)%Q) by (apply Qabs_neg; lra).
        unfold r in Hr1, Hr2. rewrite Ha in Hr1, Hr2.
        assert (Hb : (Qabs (- x - v) * (2 * inject_Z P)
                      == Qabs ((- x - v) * (2 * inject_Z P)))%Q).
        { rewrite Qabs_Qmult. rewrite (Qabs_pos (2 * inject_Z P)) by lra. reflexivity. }
        rewrite Hb. apply Qabs_Qle_condition. split; nra.
      * exists (- n). rewrite inject_Z_opp, <- Hxn. ring.
  - change ("" +:+ s) with s. split.
    + exists c, s'. split; [exact Hs | right; exact Hc].
    + exists x. split; [|split].
      * rewrite Hs in Hx |- *. unfold decimal_value.
        rewrite (digit_not_minus c Hc). exact Hx.
      * clearbody s. rewrite H2. assert (Ha : (Qabs v == v)%Q) by (apply Qabs_pos; lra).
        unfold r in Hr1, Hr2. rewrite Ha in Hr1, Hr2.
        assert (Hb : (Qabs (x - v) * (2 * inject_Z P)
                      == Qabs ((x - v) * (2 * inject_Z P)))%Q).
        { rewrite Qabs_Qmult. rewrite (Qabs_pos (2 * inject_Z P)) by lra. reflexivity. }
        rewrite Hb. apply Qabs_Qle_condition. split; nra.
      * exists n. exact Hxn.
Qed.

Lemma int_of_integer (v : Q) (k : Z) : (v == inject_Z k)%Q → int_of v = k.
Proof.
  unfold Qeq, inject_Z, int_of. cbn. intros H. rewrite Z.mul_1_r in H. rewrite H.
  apply Z.quot_mul. lia.
Qed.

Lemma tolerance_200 (x v : Q) :
  (Qabs (x - v) * inject_Z (2 * 10 ^ Z.of_nat 2) <= 1)%Q → (Qabs (x - v) <= 1 # 200)%Q.
Proof. change (inject_Z (2 * 10 ^ Z.of_nat 2)) with 200%Q. intros H. lra. Qed.

Lemma tolerance_2000 (x v : Q) :
  (Qabs (x - v) * inject_Z (2 * 10 ^ Z.of_nat 3) <= 1)%Q → (Qabs (x - v) <= 1 # 2000)%Q.
Proof. change (inject_Z (2 * 10 ^ Z.of_nat 3)) with 2000%Q. intros H. lra. Qed.

Lemma format_stat_value_head (m : string) (v : Q) :
  ∃ body suffix, format_stat_value m (Some v) = body +:+ suffix ∧ numeral_head body.
Proof.
  unfold format_stat_value.
  destruct (bool_decide (m ∈ percent_metrics)).
  { exists (format_fixed 2 v), "%". split; [reflexivity | apply format_fixed_value]. }
  destruct (bool_decide (m ∈ count_metrics)).
  { exists (str_int (int_of v)), "". rewrite string_app_empty_r.
    split; [reflexivity | apply str_int_value]. }
  destruct (bool_decide (m ∈ ratio_metrics)).
  { exists (format_fixed 3 v), "". rewrite string_app_empty_r.
    split; [reflexivity | apply format_fixed_value]. }
  exists (format_fixed 2 v), "". rewrite string_app_empty_r.
  split; [reflexivity | apply format_fixed_value].
Qed.

Lemma format_stat_value_NA (m : string) (v : option Q) :
  format_stat_value m v = "N/A" ↔ v = None.
Proof.
  split; [|intros ->; reflexivity].
  destruct v as [v|]; [|reflexivity]. intros H. exfalso.
  destruct (format_stat_value_head m v) as (body & suffix & Hb & Hh).
  rewrite Hb in H. exact (numeral_head_not_NA _ _ Hh H).
Qed.

(** X3: the text shown for a metric.  A missing value, and only a missing
    value, is shown as "N/A".  A percentage metric is shown with a percent
    sign after a numeral that differs from the value by at most 0.005; a
    ratio metric as a numeral within 0.0005 of the value; the trade count as
    the numeral of its integer part, which is the count itself when it is a
    whole number; any other metric as a numeral within 0.005. *)
Theorem format_stat_value_reads_back (m : string) (v : Q) :
  (∀ o, format_stat_value m o = "N/A" ↔ o = None)
  ∧ (m ∈ percent_metrics →
       ∃ body x, format_stat_value m (Some v) = body +:+ "%"
                 ∧ decimal_value body = Some x ∧ (Qabs (x - v) <= 1 # 200)%Q)
  ∧ (m ∈ count_metrics →
       decimal_value (format_stat_value m (Some v)) = Some (inject_Z (int_of v))
       ∧ ∀ k, (v == inject_Z k)%Q → format_stat_value m (Some v) = str_int k)
  ∧ (m ∈ ratio_metrics →
       ∃ x, decimal_value (format_stat_value m (Some v)) = Some x
            ∧ (Qabs (x - v) <= 1 # 2000)%Q)
  ∧ (m ∉ percent_metrics → m ∉ count_metrics → m ∉ ratio_metrics →
       ∃ x, decimal_value (format_stat_value m (Some v)) = Some x
            ∧ (Qabs (x - v) <= 1 # 200)%Q).
Proof.
  split; [intros o; apply format_stat_value_NA|].
  unfold format_stat_value. split; [|split; [|split]].
  - intros Hm. rewrite bool_decide_eq_true_2 by exact Hm.
    destruct (format_fixed_value 2 v) as [_ (x & Hx & Hb & _)].
    exists (format_fixed 2 v), x. split; [reflexivity|]. split; [exact Hx|].
    apply tolerance_200, Hb.
  - intros Hm. apply list_elem_of_singleton in Hm as ->.
    cbn [bool_decide]. split; [apply str_int_value|].
    intros k Hk. rewrite (int_of_integer v k Hk). reflexivity.
  - intros Hm.
    assert (Hpc : bool_decide (m ∈ percent_metrics) = false
                  ∧ bool_decide (m ∈ count_metrics) = false).
    { pose proof Hm as Hm'. unfold ratio_metrics in Hm'.
      repeat (apply elem_of_cons in Hm' as [->|Hm']); try (split; reflexivity).
      inversion Hm'. }
    destruct Hpc as [-> ->].
    rewrite bool_decide_eq_true_2 by exact Hm.
    destruct (format_fixed_value 3 v) as [_ (x & Hx & Hb & _)].
    exists x. split; [exact Hx | apply tolerance_2000, Hb].
  - intros Hp Hc Hr.
    rewrite (bool_decide_eq_false_2 _ Hp), (bool_decide_eq_false_2 _ Hc),
      (bool_decide_eq_false_2 _ Hr).
    destruct (format_fixed_value 2 v) as [_ (x & Hx & Hb & _)].
    exists x. split; [exact Hx | apply tolerance_200, Hb].
Qed.

Section StatsTableFacts.
Variable float_pow : Q → Q → Q.
Variable pf : Portfolio.

Lemma get_extended_stats_total (m : string) :
  m ∈ EXTENDED_METRICS → ∃ v, get_extended_stats float_pow pf !! m = Some v.
Proof.
  unfold get_extended_stats. destruct (pf_stats pf METRICS) as [base|].
  - intros Hm. unfold EXTENDED_METRICS in Hm.
    repeat (apply elem_of_cons in Hm as [->|Hm]);
      try (eexists; unfold put_trade_stats; by simplify_map_eq).
    inversion Hm.
  - intros Hm. exists None. apply all_None_lookup, Hm.
Qed.

Lemma table_column_lookup (ext : gmap string (option Q)) (i : nat) :
  table_column ext !! i
  = (λ metric, format_stat_value metric (dict_get ext metric)) <$> EXTENDED_METRICS !! i.
Proof. unfold table_column. apply list_lookup_fmap. Qed.

(** X4: the statistics table of a report.  Each portfolio column has one
    cell for each of the thirteen metrics, in the order of the label
    column, and every metric has a label of its own.  A cell reads "N/A"
    exactly when the statistics extractor reports the metric as missing.
    When the base statistics call fails the whole column reads "N/A"; a
    portfolio without trades shows "0" as its trade count and "N/A" for the
    six other trade metrics. *)
Theorem stats_table_column :
  let ext := get_extended_stats float_pow pf in
  let col := table_column ext in
  length col = 13%nat
  ∧ length table_metrics = 13%nat
  ∧ NoDup table_metrics
  ∧ Forall (λ m, is_Some (metric_labels !! m)) EXTENDED_METRICS
  ∧ (∀ i m, EXTENDED_METRICS !! i = Some m →
       (col !! i = Some "N/A" ↔ ext !! m = Some None))
  ∧ (pf_stats pf METRICS = None → col = replicate 13 "N/A")
  ∧ (∀ base, pf_stats pf METRICS = Some base →
       trade_block pf = Some (no_trade_stats (Some 0%Q)) →
       drop 6 col = ["0"; "N/A"; "N/A"; "N/A"; "N/A"; "N/A"; "N/A"]).
Proof.
  cbv zeta. split; [reflexivity|]. split; [reflexivity|].
  split; [apply (bool_decide_eq_true_1 (NoDup table_metrics)); vm_compute; reflexivity|].
  split; [vm_compute; repeat constructor; eexists; reflexivity|].
  split; [|split].
  - intros i m Hi. rewrite table_column_lookup, Hi. cbn [fmap option_fmap option_map].
    destruct (get_extended_stats_total m (list_elem_of_lookup_2 _ _ _ Hi)) as [v Hv].
    unfold dict_get. rewrite Hv. cbn [default]. split.
    + intros [= H]. apply format_stat_value_NA in H. rewrite H. reflexivity.
    + intros [= ->]. reflexivity.
  - intros Hs. unfold get_extended_stats. rewrite Hs. reflexivity.
  - intros base Hs Ht. unfold get_extended_stats. rewrite Hs, Ht.
    unfold table_column, EXTENDED_METRICS. cbn [fmap list_fmap drop].
    unfold dict_get, put_trade_stats.
    cbn [no_trade_stats ts_total_trades ts_win_rate ts_avg_winning_trade
         ts_avg_losing_trade ts_profit_factor ts_best_return ts_worst_return default].
    repeat (f_equal; [by simplify_map_eq|]). reflexivity.
Qed.

End StatsTableFacts.

Example format_examples :
  format_fixed 2 (1 # 8) = "0.12"
  ∧ format_fixed 2 (3 # 8) = "0.38"
  ∧ format_fixed 2 (- (1 # 1000)) = "-0.00"
  ∧ format_fixed 0 (5 # 2) = "2"
  ∧ format_fixed 3 (12345678 # 10000) = "1234.568"
  ∧ format_stat_value "win_rate" (Some (200 # 3)%Q) = "66.67%"
  ∧ format_stat_value "total_trades" (Some 12%Q) = "12"
  ∧ format_stat_value "sharpe_ratio" (Some (-(7 # 4))%Q) = "-1.750"
  ∧ format_stat_value "sharpe_ratio" None = "N/A"
  ∧ decimal_value "-1.750" = Some (-(1 + 750 / 1000))%Q.
Proof. vm_compute. repeat split. Qed.

(** ** First trade date *)

Lemma first_datetime_min_None (df : TradesFrame) (cols : list string) :
  tf_rows df ≠ [] →
  first_datetime_min df cols = None ↔ ∀ c, c ∈ cols → datetime_column df c = None.
Proof.
  intros Hrows. induction cols as [|c cols IH]; cbn [first_datetime_min].
  - split; [intros _ c Hc; inversion Hc | reflexivity].
  - destruct (datetime_column df c) as [cells|] eqn:Hc.
    + split.
      * intros Hmin. exfalso. apply list_min_None in Hmin.
        unfold datetime_column in Hc.
        destruct (String.eqb c "Entry Timestamp");
          [|destruct (String.eqb c "Exit Timestamp"); [|discriminate]];
          injection Hc as <-; apply fmap_nil_inv in Hmin; exact (Hrows Hmin).
      * intros Hall. specialize (Hall c ltac:(left)). congruence.
    + rewrite IH. split.
      * intros Hall c' Hc'. apply elem_of_cons in Hc' as [->|Hc']; [exact Hc | apply Hall, Hc'].
      * intros Hall c' Hc'. apply Hall. right. exact Hc'.
Qed.

Lemma first_datetime_min_Some (df : TradesFrame) (cols : list string) (d : Z) :
  first_datetime_min df cols = Some d →
  ∃ c cells, c ∈ cols ∧ datetime_column df c = Some cells
             ∧ d ∈ cells ∧ (∀ x, x ∈ cells → d ≤ x)
             ∧ ∀ pre post, cols = pre ++ c :: post → c ∉ pre →
                 ∀ c', c' ∈ pre → datetime_column df c' = None.
Proof.
  induction cols as [|c cols IH]; cbn [first_datetime_min]; [discriminate|].
  destruct (datetime_column df c) as [cells|] eqn:Hc.
  - intros Hmin. apply list_min_spec in Hmin as [Hin Hle].
    exists c, cells. split; [left|]. split; [exact Hc|]. split; [exact Hin|].
    split; [exact Hle|]. intros pre post Heq Hpre c' Hc'.
    destruct pre as [|p pre]; [inversion Hc'|]. injection Heq as -> _.
    exfalso. apply Hpre. left.
  - intros Hmin. destruct (IH Hmin) as (c0 & cells & Hin & Hc0 & Hd & Hle & Hfirst).
    exists c0, cells. split; [right; exact Hin|]. split; [exact Hc0|].
    split; [exact Hd|]. split; [exact Hle|]. intros pre post Heq Hpre c' Hc'.
    destruct pre as [|p pre]; [inversion Hc'|]. injection Heq as -> Heq.
    apply elem_of_cons in Hc' as [->|Hc']; [exact Hc|].
    apply (Hfirst pre post Heq); [|exact Hc']. intros Hp. apply Hpre. right. exact Hp.
Qed.

Lemma first_datetime_min_vbt (df : TradesFrame) :
  first_datetime_min df vbt_trade_columns = list_min (Entry_Timestamp <$> tf_rows df).
Proof. reflexivity. Qed.

(** X5: the first trade date of a portfolio.  There is none when the trade
    log cannot be read, is None, has no row or no column, or has no
    datetime column.  Otherwise it is the smallest cell of the first
    datetime column in column order, whatever the later columns hold: with
    the columns of the simulator's trade log, the earliest entry timestamp
    of all trades, open or closed. *)
Theorem get_first_trade_date_spec (pf : Portfolio) :
  (get_first_trade_date pf = None ↔
     pf_trades pf = None ∨ pf_trades pf = Some None
     ∨ ∃ df, pf_trades pf = Some (Some df)
             ∧ (tf_rows df = [] ∨ tf_columns df = []
                ∨ ∀ c, c ∈ tf_columns df → datetime_column df c = None))
  ∧ (∀ d, get_first_trade_date pf = Some d →
       ∃ df c cells,
         pf_trades pf = Some (Some df) ∧ c ∈ tf_columns df
         ∧ datetime_column df c = Some cells
         ∧ d ∈ cells ∧ (∀ x, x ∈ cells → d ≤ x)
         ∧ ∀ pre post, tf_columns df = pre ++ c :: post → c ∉ pre →
             ∀ c', c' ∈ pre → datetime_column df c' = None)
  ∧ (∀ df, pf_trades pf = Some (Some df) → tf_columns df = vbt_trade_columns →
       get_first_trade_date pf = list_min (Entry_Timestamp <$> tf_rows df)
       ∧ ∀ d, get_first_trade_date pf = Some d →
           (∃ t, t ∈ tf_rows df ∧ Entry_Timestamp t = d)
           ∧ ∀ t, t ∈ tf_rows df → d ≤ Entry_Timestamp t).
Proof.
  unfold get_first_trade_date. split; [|split].
  - destruct (pf_trades pf) as [[df|]|]; [|tauto|tauto].
    unfold tf_empty. destruct (tf_rows df) as [|r rs] eqn:Hr.
    { split; [|reflexivity]. intros _. right. right. exists df. rewrite Hr. tauto. }
    destruct (tf_columns df) as [|c cs] eqn:Hc.
    { split; [|reflexivity]. intros _. right. right. exists df. rewrite Hc. tauto. }
    rewrite <- Hc. rewrite first_datetime_min_None by (rewrite Hr; discriminate).
    split.
    + intros Hall. right. right. exists df. split; [reflexivity|]. right. right. exact Hall.
    + intros [?|[?|(df' & [= <-] & [Hd|[Hd|Hd]])]]; try discriminate.
      * rewrite Hr in Hd. discriminate.
      * rewrite Hc in Hd. discriminate.
      * exact Hd.
  - intros d. destruct (pf_trades pf) as [[df|]|]; [|discriminate|discriminate].
    destruct (tf_empty df); [discriminate|]. intros Hd.
    destruct (first_datetime_min_Some _ _ _ Hd) as (c & cells & H).
    exists df, c, cells. split; [reflexivity | exact H].
  - intros df -> Hcols.
    assert (Hgoal : (if tf_empty df then None else first_datetime_min df (tf_columns df))
                    = list_min (Entry_Timestamp <$> tf_rows df)).
    { unfold tf_empty. rewrite Hcols, first_datetime_min_vbt.
      destruct (tf_rows df) as [|r rs] eqn:Hr; reflexivity. }
    rewrite Hgoal. split; [reflexivity|].
    intros d Hd. apply list_min_spec in Hd as [Hin Hle]. split.
    + apply list_elem_of_fmap in Hin as (t & -> & Ht). eauto.
    + intros t Ht. apply Hle. apply list_elem_of_fmap. eauto.
Qed.

(** ** Trade statistics *)

Lemma Qpos_spec (x : Q) : Qpos x = true ↔ (0 < x)%Q.
Proof.
  unfold Qpos. destruct (Qlt_le_dec 0 x) as [H|H]; split; try done.
  intros H'. lra.
Qed.

Lemma Qneg_spec (x : Q) : Qneg x = true ↔ (x < 0)%Q.
Proof.
  unfold Qneg. destruct (Qlt_le_dec x 0) as [H|H]; split; try done.
  intros H'. lra.
Qed.

Lemma Qsum_cons (x : Q) (l : list Q) : Qsum (x :: l) = (x + Qsum l)%Q.
Proof. reflexivity. Qed.

Lemma Qsum_pos (l : list Q) :
  Forall (λ x, (0 < x)%Q) l → l ≠ [] → (0 < Qsum l)%Q.
Proof.
  induction 1 as [|x l Hx Hl IH]; [congruence|]. intros _. rewrite Qsum_cons.
  destruct l as [|y l]; [change (Qsum []) with 0%Q; lra|].
  specialize (IH ltac:(discriminate)). lra.
Qed.

Lemma Qsum_neg (l : list Q) :
  Forall (λ x, (x < 0)%Q) l → l ≠ [] → (Qsum l < 0)%Q.
Proof.
  induction 1 as [|x l Hx Hl IH]; [congruence|]. intros _. rewrite Qsum_cons.
  destruct l as [|y l]; [change (Qsum []) with 0%Q; lra|].
  specialize (IH ltac:(discriminate)). lra.
Qed.

Lemma Qsum_bounds (l : list Q) (lo hi : Q) :
  Forall (λ x, (lo <= x <= hi)%Q) l →
  (lo * inject_Z (Z.of_nat (length l)) <= Qsum l
   ∧ Qsum l <= hi * inject_Z (Z.of_nat (length l)))%Q.
Proof.
  induction 1 as [|x l Hx Hl IH].
  - change (Qsum []) with 0%Q. change (inject_Z (Z.of_nat (length (@nil Q)))) with 0%Q.
    split; lra.
  - rewrite Qsum_cons. cbn [length]. rewrite Nat2Z.inj_succ. unfold Z.succ.
    rewrite inject_Z_plus. change (inject_Z 1) with 1%Q.
    destruct IH as [IH1 IH2]. destruct Hx as [Hx1 Hx2]. split; nra.
Qed.

(** The mean of a non-empty list lies between any two bounds of its
    elements. *)
Lemma Qmean_bounds (l : list Q) (lo hi : Q) :
  l ≠ [] → Forall (λ x, (lo <= x <= hi)%Q) l → (lo <= Qmean l <= hi)%Q.
Proof.
  intros Hne Hall. destruct (Qsum_bounds l lo hi Hall) as [Hlo Hhi].
  unfold Qmean. set (n := inject_Z (Z.of_nat (length l))) in *.
  assert (Hn : (0 < n)%Q).
  { unfold n, Qlt, inject_Z. cbn. destruct l; [congruence | cbn [length]; lia]. }
  split.
  - apply Qle_shift_div_l; [exact Hn | exact Hlo].
  - apply Qle_shift_div_r; [exact Hn | exact Hhi].
Qed.

Lemma wins_losses_count (rows : list TradeRow) :
  (length (filter (λ t, Qpos (PnL t) = true) rows)
   + length (filter (λ t, Qneg (PnL t) = true) rows) ≤ length rows)%nat.
Proof.
  induction rows as [|r rows IH]; [reflexivity|].
  rewrite !filter_cons. cbn [length].
  destruct (decide (Qpos (PnL r) = true)) as [Hp|Hp];
    destruct (decide (Qneg (PnL r) = true)) as [Hn|Hn]; cbn [length]; try lia.
  apply Qpos_spec in Hp. apply Qneg_spec in Hn. lra.
Qed.

(** The trade block on a log with rows and a PnL column, written out. *)
Lemma trade_block_Some (pf : Portfolio) (t : TradesFrame) (s : TradeStats) :
  pf_trades pf = Some (Some t) → tf_rows t ≠ [] → trade_block pf = Some s →
  let rows := tf_rows t in
  let n := inject_Z (Z.of_nat (length rows)) in
  let wins := filter (λ t, Qpos (PnL t) = true) rows in
  let losses := filter (λ t, Qneg (PnL t) = true) rows in
  let has_ret := has_column t "Return" in
  let avg (l : list TradeRow) : option Q :=
    match l with
    | [] => None
    | _ => if has_ret then Some (Qmean (Return <$> l) * 100)%Q else None
    end in
  has_column t "PnL" = true
  ∧ ts_total_trades s = Some n
  ∧ ts_win_rate s = Some (inject_Z (Z.of_nat (length wins)) / n * 100)%Q
  ∧ ts_avg_winning_trade s = avg wins
  ∧ ts_avg_losing_trade s = avg losses
  ∧ ts_profit_factor s
    = (if Qpos (match losses with [] => 0%Q | _ => Qabs (Qsum (PnL <$> losses)) end)
       then Some (match wins with [] => 0%Q | _ => Qsum (PnL <$> wins) end
                  / match losses with [] => 0%Q | _ => Qabs (Qsum (PnL <$> losses)) end)%Q
       else None)
  ∧ ∃ t0 ts, rows = t0 :: ts
      ∧ ts_best_return s
        = (if has_ret then Some (Qlist_max (Return t0) (Return <$> ts) * 100)%Q else None)
      ∧ ts_worst_return s
        = (if has_ret then Some (Qlist_min (Return t0) (Return <$> ts) * 100)%Q else None).
Proof.
  intros Hpf Hrows. unfold trade_block. rewrite Hpf.
  destruct (tf_rows t) as [|t0 ts] eqn:Hr; [congruence|].
  destruct (has_column t "PnL"); cbn [negb]; [|discriminate].
  intros [= <-]. cbv zeta. cbn [ts_total_trades ts_win_rate ts_avg_winning_trade
    ts_avg_losing_trade ts_profit_factor ts_best_return ts_worst_return].
  repeat (split; [reflexivity|]). exists t0, ts. repeat split; reflexivity.
Qed.

Lemma profit_factor_value (W L : Q) :
  (0 <= W)%Q → (L < 0)%Q →
  (0 <= W / Qabs L)%Q ∧ (W / Qabs L * - L == W)%Q ∧ ((W / Qabs L == 0)%Q ↔ (W == 0)%Q).
Proof.
  intros HW HL. assert (Habs : (Qabs L == - L)%Q) by (apply Qabs_neg; lra).
  rewrite Habs. split; [|split].
  - apply Qle_shift_div_l; lra.
  - field. lra.
  - split.
    + intros Hz. assert (H : (W / - L * - L == W)%Q) by (field; lra).
      rewrite Hz in H. lra.
    + intros ->. field. lra.
Qed.

(** X6: the counting trade statistics.  For a trade log with rows and a PnL
    column: winners are the trades with positive PnL, losers those with
    negative PnL, and a break-even trade is neither; the trade count is the
    number of rows; the win rate is the percentage of winners and lies
    between 0 and 100; the profit factor is missing exactly when no trade
    lost money (it is never infinite), and otherwise it is the sum of the
    winners' PnL over the absolute sum of the losers' PnL, not negative, and
    zero exactly when no trade won. *)
Theorem trade_block_rates (pf : Portfolio) (t : TradesFrame) (s : TradeStats) :
  pf_trades pf = Some (Some t) → tf_rows t ≠ [] → trade_block pf = Some s →
  let rows := tf_rows t in
  let wins := filter (λ r, Qpos (PnL r) = true) rows in
  let losses := filter (λ r, Qneg (PnL r) = true) rows in
  (∀ r, r ∈ wins ↔ r ∈ rows ∧ (0 < PnL r)%Q)
  ∧ (∀ r, r ∈ losses ↔ r ∈ rows ∧ (PnL r < 0)%Q)
  ∧ (length wins + length losses ≤ length rows)%nat
  ∧ ts_total_trades s = Some (inject_Z (Z.of_nat (length rows)))
  ∧ (∃ w, ts_win_rate s = Some w ∧ (0 <= w <= 100)%Q
          ∧ (w * inject_Z (Z.of_nat (length rows))
             == 100 * inject_Z (Z.of_nat (length wins)))%Q)
  ∧ (ts_profit_factor s = None ↔ losses = [])
  ∧ (∀ f, ts_profit_factor s = Some f →
       (0 <= f)%Q
       ∧ (f * - Qsum (PnL <$> losses) == Qsum (PnL <$> wins))%Q
       ∧ ((f == 0)%Q ↔ wins = [])).
Proof.
  intros Hpf Hrows Hs.
  destruct (trade_block_Some pf t s Hpf Hrows Hs)
    as (_ & Htot & Hwr & _ & _ & Hpfac & _).
  cbv zeta in *.
  set (rows := tf_rows t) in *.
  set (wins := filter (λ r, Qpos (PnL r) = true) rows) in *.
  set (losses := filter (λ r, Qneg (PnL r) = true) rows) in *.
  assert (Hw : ∀ r, r ∈ wins ↔ r ∈ rows ∧ (0 < PnL r)%Q).
  { intros r. unfold wins. rewrite list_elem_of_filter, Qpos_spec. tauto. }
  assert (Hl : ∀ r, r ∈ losses ↔ r ∈ rows ∧ (PnL r < 0)%Q).
  { intros r. unfold losses. rewrite list_elem_of_filter, Qneg_spec. tauto. }
  pose proof (wins_losses_count rows) as Hcount. fold wins losses in Hcount.
  assert (Hn : (0 < inject_Z (Z.of_nat (length rows)))%Q).
  { assert (length rows ≠ 0%nat) by (intros Hz; apply nil_length_inv in Hz; exact (Hrows Hz)).
    unfold Qlt, inject_Z. cbn. lia. }
  assert (Hwn : (0 <= inject_Z (Z.of_nat (length wins))
                 ∧ inject_Z (Z.of_nat (length wins)) <= inject_Z (Z.of_nat (length rows)))%Q).
  { unfold Qle, inject_Z. cbn. lia. }
  assert (Hwsum : wins ≠ [] → (0 < Qsum (PnL <$> wins))%Q).
  { intros Hne. apply Qsum_pos; [|intros Hc; apply fmap_nil_inv in Hc; exact (Hne Hc)].
    apply Forall_fmap, Forall_forall. intros r Hr. apply Hw in Hr. cbn. tauto. }
  assert (Hlsum : losses ≠ [] → (Qsum (PnL <$> losses) < 0)%Q).
  { intros Hne. apply Qsum_neg; [|intros Hc; apply fmap_nil_inv in Hc; exact (Hne Hc)].
    apply Forall_fmap, Forall_forall. intros r Hr. apply Hl in Hr. cbn. tauto. }
  split; [exact Hw|]. split; [exact Hl|]. split; [exact Hcount|]. split; [exact Htot|].
  split; [|split].
  - eexists. split; [exact Hwr|].
    set (a := inject_Z (Z.of_nat (length wins))) in *.
    set (n := inject_Z (Z.of_nat (length rows))) in *.
    assert (H0 : (0 <= a / n)%Q) by (apply Qle_shift_div_l; [exact Hn | lra]).
    assert (H1 : (a / n <= 1)%Q) by (apply Qle_shift_div_r; [exact Hn | lra]).
    split; [split; lra|]. field. lra.
  - rewrite Hpfac. destruct losses as [|l0 ls] eqn:Hlosses.
    + split; [reflexivity|]. intros _. reflexivity.
    + specialize (Hlsum ltac:(discriminate)).
      assert (Hq : Qpos (Qabs (Qsum (PnL <$> l0 :: ls))) = true).
      { apply Qpos_spec. rewrite Qabs_neg by lra. lra. }
      rewrite Hq. split; discriminate.
  - intros f Hf. rewrite Hpfac in Hf. destruct losses as [|l0 ls] eqn:Hlosses.
    + discriminate Hf.
    + specialize (Hlsum ltac:(discriminate)).
      destruct (Qpos (Qabs (Qsum (PnL <$> l0 :: ls)))); [|discriminate].
      injection Hf as <-.
      destruct wins as [|w0 ws] eqn:Hwins.
      * destruct (profit_factor_value 0 (Qsum (PnL <$> l0 :: ls)) (Qle_refl 0) Hlsum)
          as (H1 & H2 & H3).
        split; [exact H1|]. split; [exact H2|]. split; [reflexivity|].
        intros _. apply H3. reflexivity.
      * specialize (Hwsum ltac:(discriminate)).
        destruct (profit_factor_value (Qsum (PnL <$> w0 :: ws)) (Qsum (PnL <$> l0 :: ls))
                    (Qlt_le_weak _ _ Hwsum) Hlsum) as (H1 & H2 & H3).
        split; [exact H1|]. split; [exact H2|]. split; [|discriminate].
        intros Hz. apply H3 in Hz. lra.
Qed.

(** X7: the return statistics of the trade log.  Without a Return column
    the best, the worst and the two average returns are missing.  With it,
    the best and the worst return are attained by trades of the log and
    enclose the return of every trade; the average winning (losing) return
    is missing exactly when no trade won (lost), and otherwise lies between
    the worst and the best return.  All are in percent. *)
Theorem trade_block_returns (pf : Portfolio) (t : TradesFrame) (s : TradeStats) :
  pf_trades pf = Some (Some t) → tf_rows t ≠ [] → trade_block pf = Some s →
  let rows := tf_rows t in
  let wins := filter (λ r, Qpos (PnL r) = true) rows in
  let losses := filter (λ r, Qneg (PnL r) = true) rows in
  (has_column t "Return" = false →
     ts_best_return s = None ∧ ts_worst_return s = None
     ∧ ts_avg_winning_trade s = None ∧ ts_avg_losing_trade s = None)
  ∧ (has_column t "Return" = true →
       ∃ b w, ts_best_return s = Some b ∧ ts_worst_return s = Some w
         ∧ (∃ r, r ∈ rows ∧ b = (Return r * 100)%Q)
         ∧ (∃ r, r ∈ rows ∧ w = (Return r * 100)%Q)
         ∧ (∀ r, r ∈ rows → (w <= Return r * 100 <= b)%Q)
         ∧ (ts_avg_winning_trade s = None ↔ wins = [])
         ∧ (ts_avg_losing_trade s = None ↔ losses = [])
         ∧ (∀ a, ts_avg_winning_trade s = Some a →
              (a == Qmean (Return <$> wins) * 100)%Q ∧ (w <= a <= b)%Q)
         ∧ (∀ a, ts_avg_losing_trade s = Some a →
              (a == Qmean (Return <$> losses) * 100)%Q ∧ (w <= a <= b)%Q)).
Proof.
  intros Hpf Hrows Hs.
  destruct (trade_block_Some pf t s Hpf Hrows Hs)
    as (_ & _ & _ & Haw & Hal & _ & t0 & ts & Hr & Hbest & Hworst).
  cbv zeta in *.
  set (rows := tf_rows t) in *.
  set (wins := filter (λ r, Qpos (PnL r) = true) rows) in *.
  set (losses := filter (λ r, Qneg (PnL r) = true) rows) in *.
  split.
  - intros Hno. rewrite Hno in *. rewrite Hbest, Hworst, Haw, Hal.
    destruct wins, losses; repeat split; reflexivity.
  - intros Hyes. rewrite Hyes in *.
    destruct (foldl_Qmax'_spec (Return <$> ts) (Return t0)) as [Hbin Hbmax].
    destruct (foldl_Qmin'_spec (Return <$> ts) (Return t0)) as [Hwin Hwmin].
    fold (Qlist_max (Return t0) (Return <$> ts)) in Hbin, Hbmax.
    fold (Qlist_min (Return t0) (Return <$> ts)) in Hwin, Hwmin.
    set (B := Qlist_max (Return t0) (Return <$> ts)) in *.
    set (W := Qlist_min (Return t0) (Return <$> ts)) in *.
    change (Return t0 :: (Return <$> ts)) with (Return <$> t0 :: ts) in *.
    rewrite <- Hr in Hbin, Hbmax, Hwin, Hwmin.
    assert (Hencl : ∀ r, r ∈ rows → (W <= Return r <= B)%Q).
    { intros r Hr'. split; [apply Hwmin | apply Hbmax]; apply list_elem_of_fmap; eauto. }
    assert (Havg : ∀ l, l ⊆ rows → l ≠ [] →
              (W * 100 <= Qmean (Return <$> l) * 100 <= B * 100)%Q).
    { intros l Hsub Hne.
      destruct (Qmean_bounds (Return <$> l) W B) as [H1 H2].
      - intros Hc. apply fmap_nil_inv in Hc. exact (Hne Hc).
      - apply Forall_fmap, Forall_forall. intros r Hr'. apply Hencl, Hsub, Hr'.
      - split; lra. }
    exists (B * 100)%Q, (W * 100)%Q.
    split; [exact Hbest|]. split; [exact Hworst|].
    split; [apply list_elem_of_fmap in Hbin as (r & -> & Hr'); eauto|].
    split; [apply list_elem_of_fmap in Hwin as (r & -> & Hr'); eauto|].
    split; [intros r Hr'; specialize (Hencl r Hr'); split; lra|].
    assert (Hwsub : wins ⊆ rows) by (intros r Hr'; apply list_elem_of_filter in Hr'; tauto).
    assert (Hlsub : losses ⊆ rows) by (intros r Hr'; apply list_elem_of_filter in Hr'; tauto).
    rewrite Haw, Hal. clear Haw Hal.
    destruct wins as [|w0 ws] eqn:Hwins; destruct losses as [|l0 ls] eqn:Hlosses.
    + repeat split; try done.
    + split; [done|]. split; [split; discriminate|]. split; [discriminate|].
      intros a [= <-]. split; [reflexivity|].
      apply (Havg (l0 :: ls)); [exact Hlsub | discriminate].
    + split; [split; discriminate|]. split; [done|]. split; [|discriminate].
      intros a [= <-]. split; [reflexivity|].
      apply (Havg (w0 :: ws)); [exact Hwsub | discriminate].
    + split; [split; discriminate|]. split; [split; discriminate|]. split.
      * intros a [= <-]. split; [reflexivity|].
        apply (Havg (w0 :: ws)); [exact Hwsub | discriminate].
      * intros a [= <-]. split; [reflexivity|].
        apply (Havg (l0 :: ls)); [exact Hlsub | discriminate].
Qed.

(** ** Curves of a report *)

Lemma asof_before {A} (rows : list (Z * option A)) (d : Z) (acc : option A) :
  (∀ k, k ∈ rows.*1 → d < k) → asof rows d acc = acc.
Proof.
  destruct rows as [|[k v] rows]; [reflexivity|]. intros H. cbn [asof].
  destruct (Z.leb_spec k d) as [Hle|_]; [|reflexivity].
  specialize (H k ltac:(left)). lia.
Qed.

Lemma asof_max {A} (rows : list (Z * option A)) (d k : Z) (v acc : option A) :
  StronglySorted Z.lt rows.*1 → (k, v) ∈ rows → k ≤ d →
  (∀ k', k' ∈ rows.*1 → k' ≤ d → k' ≤ k) →
  asof rows d acc = v.
Proof.
  revert acc. induction rows as [|[k0 v0] rows IH]; intros acc Hs Hin Hkd Hmax.
  - inversion Hin.
  - cbn [fmap list_fmap fst] in Hs. apply StronglySorted_inv in Hs as [Hs Hall].
    rewrite Forall_forall in Hall. cbn [asof].
    apply elem_of_cons in Hin as [[= <- <-]|Hin].
    + destruct (Z.leb_spec k d) as [_|?]; [|lia].
      apply asof_before. intros k' Hk'. specialize (Hall k' Hk').
      destruct (Z.lt_ge_cases d k') as [?|Hle]; [assumption|].
      specialize (Hmax k' ltac:(right; exact Hk') Hle). lia.
    + assert (Hk0 : k0 < k).
      { apply Hall. apply list_elem_of_fmap. exists (k, v). split; [reflexivity | exact Hin]. }
      destruct (Z.leb_spec k0 d) as [_|?]; [|lia].
      apply IH; [exact Hs | exact Hin | exact Hkd |].
      intros k' Hk'. apply Hmax. right. exact Hk'.
Qed.

Lemma filter_all {A} (P : A → Prop) `{!∀ x, Decision (P x)} (l : list A) :
  Forall P l → filter P l = l.
Proof.
  induction 1 as [|x l Hx _ IH]; [reflexivity|].
  rewrite filter_cons_True by exact Hx. f_equal. exact IH.
Qed.

Lemma loc_from_sorted (start : Z) (index : list Z) :
  StronglySorted Z.lt index → start ∈ index →
  loc_from start index = filter (λ d, start ≤ d) index.
Proof.
  induction 1 as [|d index Hs IH Hall]; intros Hin; [inversion Hin|].
  cbn [loc_from]. rewrite Forall_forall in Hall.
  destruct (Z.eqb_spec d start) as [->|Hne].
  - rewrite filter_cons_True by lia. f_equal. symmetry.
    apply filter_all. apply Forall_forall. intros x Hx. specialize (Hall x Hx). lia.
  - apply elem_of_cons in Hin as [->|Hin]; [congruence|].
    specialize (Hall start Hin). rewrite filter_cons_False by lia. apply IH, Hin.
Qed.

Lemma loc_from_values_fmap {A} (f : Z → A) (start : Z) (index : list Z) :
  loc_from_values start index (f <$> index) = f <$> loc_from start index.
Proof.
  induction index as [|d index IH]; [reflexivity|].
  cbn [fmap list_fmap loc_from_values loc_from].
  destruct (d =? start); [reflexivity | exact IH].
Qed.

(** X8: the Trend curve of a report never looks ahead.  On increasing
    weekly and daily indexes, with [start] a date of the daily index, the
    aligned curve has exactly the daily dates from [start] on; its value on
    a day is the value of the weekly series at the last weekly label on or
    before that day, and it is missing on a day before the first weekly
    label. *)
Theorem align_weekly_to_daily_spec {A} (widx : list Z) (series : Series.t A)
    (daily_index : list Z) (start : Z) :
  StronglySorted Z.lt widx → StronglySorted Z.lt daily_index →
  length series = length widx → start ∈ daily_index →
  let idx := (align_weekly_to_daily widx series daily_index start).1 in
  let vals := (align_weekly_to_daily widx series daily_index start).2 in
  idx = filter (λ d, start ≤ d) daily_index
  ∧ head idx = Some start
  ∧ length vals = length idx
  ∧ ∀ i d, idx !! i = Some d →
      (∀ j k v, widx !! j = Some k → series !! j = Some v → k ≤ d →
         (∀ k', k' ∈ widx → k' ≤ d → k' ≤ k) → vals !! i = Some v)
      ∧ ((∀ k, k ∈ widx → d < k) → vals !! i = Some None).
Proof.
  intros Hw Hd Hlen Hstart. cbv zeta. unfold align_weekly_to_daily. cbn [fst snd].
  unfold reindex_ffill. rewrite loc_from_values_fmap.
  split; [apply loc_from_sorted; assumption|].
  split; [apply loc_from_head, Hstart|].
  split; [apply length_fmap|].
  assert (Hkeys : (zip widx series).*1 = widx).
  { apply fst_zip. lia. }
  intros i d Hi. rewrite list_lookup_fmap, Hi. cbn [fmap option_fmap option_map]. split.
  - intros j k v Hj Hv Hkd Hmax. f_equal.
    apply (asof_max _ d k v None).
    + rewrite Hkeys. exact Hw.
    + apply list_elem_of_lookup_2 with j. apply lookup_zip_with_Some. eauto.
    + exact Hkd.
    + rewrite Hkeys. exact Hmax.
  - intros Hall. f_equal. apply asof_before. rewrite Hkeys. exact Hall.
Qed.

Lemma ffill_from_length {A} (prev : option A) (s : Series.t A) :
  length (ffill_from prev s) = length s.
Proof.
  revert prev. induction s as [|x s IH]; intros prev; [reflexivity|].
  cbn [ffill_from length]. rewrite IH. reflexivity.
Qed.

Lemma bfill_length {A} (s : Series.t A) : length (bfill s) = length s.
Proof. induction s as [|x s IH]; [reflexivity|]. cbn [bfill length]. rewrite IH. reflexivity. Qed.

(** Forward filling: the last value present at or before the position,
    [prev] when there is none. *)
Lemma ffill_from_lookup {A} (prev : option A) (s : Series.t A) (i : nat) :
  (i < length s)%nat →
  ffill_from prev s !! i
  = Some (match last (values_of (take (S i) s)) with
          | Some v => Some v
          | None => prev
          end).
Proof.
  revert prev i. induction s as [|x s IH]; intros prev i Hi; [cbn in Hi; lia|].
  cbn [ffill_from]. destruct i as [|i].
  - cbn [lookup list_lookup take]. rewrite take_0. unfold values_of.
    destruct x; reflexivity.
  - cbn [lookup list_lookup]. rewrite IH by (cbn in Hi; lia).
    change (take (S (S i)) (x :: s)) with (x :: take (S i) s).
    unfold values_of. cbn [omap list_omap].
    destruct x as [v|]; cbn [id].
    + destruct (omap id (take (S i) s)) as [|w ws] eqn:Hw; [reflexivity|].
      change (last (v :: w :: ws)) with (last (w :: ws)).
      destruct (last (w :: ws)) eqn:Hl; [reflexivity|].
      apply last_None in Hl. discriminate Hl.
    + reflexivity.
Qed.

(** Backward filling: the first value present at or after the position. *)
Lemma bfill_lookup {A} (s : Series.t A) (i : nat) :
  (i < length s)%nat → bfill s !! i = Some (head (values_of (drop i s))).
Proof.
  revert i. induction s as [|x s IH]; intros i Hi; [cbn in Hi; lia|].
  cbn [bfill]. destruct i as [|i].
  - cbn [lookup list_lookup drop]. unfold values_of. cbn [omap list_omap].
    destruct x as [v|]; cbn [id]; [reflexivity|]. f_equal.
    destruct s as [|y s']; [reflexivity|].
    specialize (IH 0%nat ltac:(cbn; lia)). rewrite <- head_lookup in IH.
    rewrite IH. reflexivity.
  - cbn [lookup list_lookup drop]. apply IH. cbn in Hi. lia.
Qed.

Lemma head_values_ffill {A} (s : Series.t A) :
  head (values_of (ffill_from None s)) = head (values_of s).
Proof.
  induction s as [|x s IH]; [reflexivity|].
  cbn [ffill_from]. unfold values_of in *. destruct x as [v|]; cbn [omap list_omap id].
  - reflexivity.
  - exact IH.
Qed.

Lemma head_values_drop_ffill {A} (s : Series.t A) (i : nat) :
  values_of (take (S i) s) = [] →
  head (values_of (drop i (ffill_from None s))) = head (values_of s).
Proof.
  revert i. induction s as [|x s IH]; intros i Hnone.
  - cbn [ffill_from]. rewrite drop_nil. reflexivity.
  - change (take (S i) (x :: s)) with (x :: take i s) in Hnone.
    unfold values_of in Hnone. cbn [omap list_omap] in Hnone.
    destruct x as [v|]; [discriminate|]. cbn [id] in Hnone.
    cbn [ffill_from]. destruct i as [|i].
    + cbn [drop]. unfold values_of. cbn [omap list_omap id].
      apply head_values_ffill.
    + cbn [drop]. unfold values_of at 2. cbn [omap list_omap id].
      apply IH. exact Hnone.
Qed.

(** X9: the equity frame of a report has no gaps.  After [.ffill().bfill()]
    a column keeps its length and its present values; a missing cell shows
    the last value present before it, or, when there is none, the first
    value present in the column; so a column with at least one value has no
    missing cell left, and every value shown is a value of the column.  A
    column without any value stays empty. *)
Theorem fill_gaps_spec {A} (s : Series.t A) :
  length (fill_gaps s) = length s
  ∧ (∀ i, (i < length s)%nat →
       fill_gaps s !! i
       = Some (match last (values_of (take (S i) s)) with
               | Some v => Some v
               | None => head (values_of s)
               end))
  ∧ (∀ i v, s !! i = Some (Some v) → fill_gaps s !! i = Some (Some v))
  ∧ (values_of s ≠ [] → ∀ i, (i < length s)%nat → ∃ v, fill_gaps s !! i = Some (Some v))
  ∧ (∀ i v, fill_gaps s !! i = Some (Some v) → v ∈ values_of s)
  ∧ (values_of s = [] → fill_gaps s = s).
Proof.
  unfold fill_gaps, ffill.
  assert (Hlen : length (bfill (ffill_from None s)) = length s).
  { rewrite bfill_length, ffill_from_length. reflexivity. }
  assert (Hlook : ∀ i, (i < length s)%nat →
            bfill (ffill_from None s) !! i
            = Some (match last (values_of (take (S i) s)) with
                    | Some v => Some v
                    | None => head (values_of s)
                    end)).
  { intros i Hi. rewrite bfill_lookup by (rewrite ffill_from_length; exact Hi). f_equal.
    destruct (last (values_of (take (S i) s))) as [v|] eqn:Hl.
    - pose proof (ffill_from_lookup None s i Hi) as Hf. rewrite Hl in Hf.
      rewrite (drop_S _ _ _ Hf). unfold values_of. reflexivity.
    - apply head_values_drop_ffill. apply last_None in Hl. exact Hl. }
  split; [exact Hlen|]. split; [exact Hlook|]. split; [|split; [|split]].
  - intros i v Hi. rewrite Hlook by (apply lookup_lt_Some in Hi; exact Hi).
    rewrite (take_S_r _ _ _ Hi). unfold values_of. rewrite omap_app.
    cbn [omap list_omap id]. rewrite last_snoc. reflexivity.
  - intros Hne i Hi. rewrite Hlook by exact Hi.
    destruct (last (values_of (take (S i) s))) as [v|]; [eauto|].
    destruct (values_of s) as [|v vs]; [congruence|]. cbn. eauto.
  - intros i v Hi.
    assert (Hlt : (i < length s)%nat).
    { apply lookup_lt_Some in Hi. rewrite Hlen in Hi. exact Hi. }
    rewrite Hlook in Hi by exact Hlt. injection Hi as Hi.
    destruct (last (values_of (take (S i) s))) as [w|] eqn:Hl.
    + injection Hi as ->. apply last_Some_elem_of in Hl.
      unfold values_of in *. apply list_elem_of_omap in Hl as (x & Hx & Hxv).
      apply list_elem_of_omap. exists x. split; [|exact Hxv].
      apply (subseteq_take (S i)). exact Hx.
    + destruct (values_of s) as [|w ws]; [discriminate|]. cbn in Hi.
      injection Hi as ->. left.
  - intros Hnone. apply list_eq. intros i.
    destruct (decide (i < length s)%nat) as [Hi|Hi].
    + rewrite Hlook by exact Hi. rewrite Hnone.
      assert (Hs : ∃ x, s !! i = Some x) by (apply lookup_lt_is_Some_2; exact Hi).
      destruct Hs as [x Hx]. rewrite Hx, (take_S_r _ _ _ Hx).
      unfold values_of. rewrite omap_app. cbn [omap list_omap].
      destruct x as [v|]; cbn [id].
      * exfalso. apply list_elem_of_lookup_2 in Hx.
        assert (v ∈ values_of s) as Hv.
        { apply list_elem_of_omap. exists (Some v). split; [exact Hx | reflexivity]. }
        rewrite Hnone in Hv. inversion Hv.
      * rewrite app_nil_r.
        assert (Ht : omap id (take i s) = []).
        { apply elem_of_nil_inv. intros v Hv.
          apply list_elem_of_omap in Hv as (x & Hx' & Hxv).
          apply (subseteq_take i) in Hx'.
          assert (v ∈ values_of s) as Hv'.
          { apply list_elem_of_omap. exists x. split; assumption. }
          rewrite Hnone in Hv'. inversion Hv'. }
        rewrite Ht. reflexivity.
    + rewrite !lookup_ge_None_2; [reflexivity | lia | lia].
Qed.

(** ** The weekly filter on the daily index *)

(** On an increasing index the forward fill finds the last label on or
    before the day, or none. *)
Lemma asof_cases {A} (rows : list (Z * option A)) (d : Z) (acc : option A) :
  StronglySorted Z.lt rows.*1 →
  ((∀ k, k ∈ rows.*1 → d < k) ∧ asof rows d acc = acc)
  ∨ ∃ j k v, rows !! j = Some (k, v) ∧ k ≤ d
      ∧ (∀ k', k' ∈ rows.*1 → k' ≤ d → k' ≤ k) ∧ asof rows d acc = v.
Proof.
  revert acc. induction rows as [|[k0 v0] rows IH]; intros acc Hs.
  - left. split; [intros k Hk; inversion Hk | reflexivity].
  - cbn [fmap list_fmap fst] in Hs. apply StronglySorted_inv in Hs as [Hs Hall].
    rewrite Forall_forall in Hall. cbn [asof].
    destruct (Z.leb_spec k0 d) as [Hle|Hgt].
    + right. destruct (IH v0 Hs) as [[Hnone Heq]|(j & k & v & Hj & Hk & Hmax & Heq)].
      * exists 0%nat, k0, v0. split; [reflexivity|]. split; [exact Hle|]. split; [|exact Heq].
        intros k' Hk' Hk'd. apply elem_of_cons in Hk' as [Hk'|Hk']; [cbn in Hk'; lia|].
        specialize (Hnone k' Hk'). lia.
      * exists (S j), k, v. split; [exact Hj|]. split; [exact Hk|]. split; [|exact Heq].
        intros k' Hk' Hk'd.
        apply elem_of_cons in Hk' as [Hk'|Hk']; [cbn in Hk'|apply Hmax; assumption].
        assert (k0 < k); [|lia]. apply Hall.
        apply list_elem_of_lookup_2 in Hj. apply list_elem_of_fmap. exists (k, v). auto.
    + left. split; [|reflexivity]. intros k Hk.
      apply elem_of_cons in Hk as [Hk|Hk]; [cbn in Hk; lia|]. specialize (Hall k Hk). lia.
Qed.

Section WeeklyFilter.
Variables fast slow : Series.t Q.
Variables widx didx : list Z.
Variable weekly_supertrend_dir : Series.t Z.

(** X10: the weekly filter of the daily strategies never looks ahead.  On an
    increasing weekly index, the direction used on a day is the weekly
    direction at the last weekly label on or before that day, 0 when that
    direction is missing or when the day lies before the first weekly
    label; so High_Vol and Low_Vol can enter on a day only if the last
    weekly bar labelled on or before it is bearish, and never before the
    first weekly label. *)
Theorem weekly_filter_no_lookahead (i : nat) (d : Z) :
  StronglySorted Z.lt widx → length weekly_supertrend_dir = length widx →
  didx !! i = Some d →
  let sd := st_daily widx weekly_supertrend_dir didx in
  let sg := daily_volatility_signals fast slow widx weekly_supertrend_dir didx in
  (∀ j k v, widx !! j = Some k → weekly_supertrend_dir !! j = Some v → k ≤ d →
     (∀ k', k' ∈ widx → k' ≤ d → k' ≤ k) → sd !! i = Some (default 0 v))
  ∧ ((∀ k, k ∈ widx → d < k) →
       sd !! i = Some 0
       ∧ hv_entries sg !! i ≠ Some true ∧ lv_entries sg !! i ≠ Some true)
  ∧ (hv_entries sg !! i = Some true ∨ lv_entries sg !! i = Some true →
       ∃ j k, widx !! j = Some k ∧ k ≤ d
         ∧ (∀ k', k' ∈ widx → k' ≤ d → k' ≤ k)
         ∧ weekly_supertrend_dir !! j = Some (Some (-1))).
Proof.
  intros Hw Hlen Hd. cbv zeta.
  assert (Hkeys : (zip widx weekly_supertrend_dir).*1 = widx) by (apply fst_zip; lia).
  assert (Hsd : st_daily widx weekly_supertrend_dir didx !! i
                = Some (default 0 (asof (zip widx weekly_supertrend_dir) d None))).
  { unfold st_daily, fillna_0, reindex_ffill.
    rewrite !list_lookup_fmap, Hd. reflexivity. }
  assert (Hgate : ∀ sgnl : list bool,
            Series.band sgnl ((λ d, Z.eqb d (-1)) <$> st_daily widx weekly_supertrend_dir didx)
              !! i = Some true →
            st_daily widx weekly_supertrend_dir didx !! i = Some (-1)).
  { intros sgnl Hb. apply band_lookup_true in Hb as [_ Hb].
    apply list_lookup_fmap_Some in Hb as (x & Hx & Hb).
    symmetry in Hx. apply Z.eqb_eq in Hx. subst x. exact Hb. }
  split; [|split].
  - intros j k v Hj Hv Hk Hmax. rewrite Hsd. do 2 f_equal.
    apply (asof_max _ d k v None).
    + rewrite Hkeys. exact Hw.
    + apply list_elem_of_lookup_2 with j. apply lookup_zip_with_Some. eauto.
    + exact Hk.
    + rewrite Hkeys. exact Hmax.
  - intros Hbefore.
    assert (H0 : st_daily widx weekly_supertrend_dir didx !! i = Some 0).
    { rewrite Hsd. rewrite asof_before by (rewrite Hkeys; exact Hbefore). reflexivity. }
    split; [exact H0|]. unfold daily_volatility_signals. cbn [hv_entries lv_entries].
    split; intros Hc; apply Hgate in Hc; rewrite H0 in Hc; discriminate Hc.
  - unfold daily_volatility_signals. cbn [hv_entries lv_entries].
    intros Hent.
    assert (Hm1 : st_daily widx weekly_supertrend_dir didx !! i = Some (-1)).
    { destruct Hent as [Hc|Hc]; apply Hgate in Hc; exact Hc. }
    rewrite Hsd in Hm1. injection Hm1 as Hm1.
    destruct (asof_cases (zip widx weekly_supertrend_dir) d None) as
      [[_ Heq]|(j & k & v & Hj & Hk & Hmax & Heq)].
    + rewrite Hkeys. exact Hw.
    + rewrite Heq in Hm1. discriminate Hm1.
    + rewrite Heq in Hm1. destruct v as [v|]; [|discriminate Hm1]. cbn in Hm1. subst v.
      apply lookup_zip_with_Some in Hj as (k' & v' & [= <- <-] & Hk' & Hv').
      exists j, k. rewrite Hkeys in Hmax. auto.
Qed.

End WeeklyFilter.

(** ** Weekly bars *)

Lemma seq_sorted (a n : nat) : StronglySorted lt (seq a n).
Proof.
  revert a. induction n as [|n IH]; intros a; cbn [seq]; constructor; [apply IH|].
  apply Forall_forall. intros x Hx. apply list_elem_of_In, in_seq in Hx. lia.
Qed.

Lemma week_labels_sorted (dates : list Z) : StronglySorted Z.lt (week_labels dates).
Proof.
  unfold week_labels. destruct dates as [|d ds]; [constructor|]. cbv zeta.
  apply (StronglySorted_fmap _ lt Z.lt); [|apply seq_sorted].
  intros x y Hxy. lia.
Qed.

Lemma sorted_fmap_filter {A} (f : A → Z) (P : A → Prop) `{!∀ x, Decision (P x)}
    (l : list A) :
  StronglySorted Z.lt (f <$> l) → StronglySorted Z.lt (f <$> filter P l).
Proof.
  induction l as [|x l IH]; [intros _; constructor|].
  cbn [fmap list_fmap]. intros Hs. apply StronglySorted_inv in Hs as [Hs Hall].
  rewrite filter_cons. destruct (decide (P x)); [|apply IH, Hs].
  cbn [fmap list_fmap]. constructor; [apply IH, Hs|].
  rewrite Forall_forall in Hall |- *. intros y Hy. apply Hall.
  apply list_elem_of_fmap in Hy as (z & -> & Hz). apply list_elem_of_filter in Hz as [_ Hz].
  apply list_elem_of_fmap. eauto.
Qed.

Lemma present_elem (l : list (option Q)) (x : Q) : x ∈ present l ↔ Some x ∈ l.
Proof.
  unfold present. rewrite list_elem_of_omap. split.
  - intros (o & Ho & Hx). cbn in Hx. subst o. exact Ho.
  - intros Hx. exists (Some x). split; [exact Hx | reflexivity].
Qed.

Lemma foldl_Zmin_Zmax_bounds (ds : list Z) (d x : Z) :
  x ∈ d :: ds → foldl Z.min d ds ≤ x ≤ foldl Z.max d ds.
Proof.
  revert d. induction ds as [|y ds IH]; intros d Hx.
  - apply list_elem_of_singleton in Hx as ->. cbn. lia.
  - cbn [foldl]. pose proof (foldl_Zmin_le ds (Z.min d y)).
    pose proof (foldl_Zmax_ge ds (Z.max d y)).
    apply elem_of_cons in Hx as [->|Hx]; [lia|].
    apply elem_of_cons in Hx as [->|Hx]; [lia|].
    assert (H1 : x ∈ Z.min d y :: ds) by (right; exact Hx).
    assert (H2 : x ∈ Z.max d y :: ds) by (right; exact Hx).
    apply IH in H1. apply IH in H2. lia.
Qed.

Section WeeklyBars.
Variable yf_download : string → DataFrame.

Lemma download_weekly_Some (ticker : string) (weekly : list Bar) :
  download_weekly yf_download ticker = Some weekly →
  weekly = dropna (resample_W_agg (bars (rename_title (yf_download ticker)))).
Proof.
  unfold download_weekly. destruct (df_empty _); [discriminate|].
  destruct (has_required _); cbn [negb]; [|discriminate]. intros [= <-]. reflexivity.
Qed.

(** X11: the weekly series is a well-formed price history.  Its dates are
    Sundays in strictly increasing order, so no week occurs twice.  When
    every daily bar of the provider frame is complete and consistent (low
    <= open, close <= high), every weekly bar is complete and consistent
    as well, and no calendar week with a trading day is dropped. *)
Theorem download_weekly_well_formed (ticker : string) (weekly : list Bar) :
  download_weekly yf_download ticker = Some weekly →
  let bs := bars (rename_title (yf_download ticker)) in
  StronglySorted Z.lt (b_date <$> weekly)
  ∧ NoDup (b_date <$> weekly)
  ∧ (∀ w, w ∈ weekly → b_date w mod 7 = 0)
  ∧ ((∀ b, b ∈ bs → ohlc_consistent b) →
       (∀ w, w ∈ weekly → ohlc_consistent w)
       ∧ ∀ b, b ∈ bs → ∃ w, w ∈ weekly ∧ b_date w - 6 ≤ b_date b ≤ b_date w).
Proof.
  intros Hw. apply download_weekly_Some in Hw. cbv zeta.
  set (bs := bars (rename_title (yf_download ticker))) in *.
  assert (Hdates : b_date <$> resample_W_agg bs = week_labels (b_date <$> bs)).
  { unfold resample_W_agg. rewrite <- list_fmap_compose. apply list_eq. intros i.
    rewrite list_lookup_fmap. destruct (week_labels _ !! i); reflexivity. }
  assert (Hsorted : StronglySorted Z.lt (b_date <$> weekly)).
  { subst weekly. unfold dropna. apply sorted_fmap_filter. rewrite Hdates.
    apply week_labels_sorted. }
  assert (Hlabel : ∀ w, w ∈ weekly →
            b_date w ∈ week_labels (b_date <$> bs) ∧ w = agg_week bs (b_date w)).
  { intros w Hin. subst weekly. apply list_elem_of_filter in Hin as [_ Hin].
    unfold resample_W_agg in Hin. apply list_elem_of_fmap in Hin as (l & -> & Hl).
    split; [exact Hl | reflexivity]. }
  split; [exact Hsorted|]. split; [|split].
  - clear -Hsorted. induction Hsorted as [|x l _ IH Hall]; constructor; [|exact IH].
    intros Hx. rewrite Forall_forall in Hall. specialize (Hall x Hx). lia.
  - intros w Hin. destruct (Hlabel w Hin) as [Hl _].
    destruct (b_date <$> bs) as [|d ds] eqn:Hd; [inversion Hl|].
    apply week_labels_spec in Hl as [Hm _]. exact Hm.
  - intros Hok.
    assert (Hagg : ∀ l, week_group bs l ≠ [] → ohlc_consistent (agg_week bs l)).
    { intros l Hne. unfold agg_week. set (g := week_group bs l) in *.
      assert (Hg : ∀ b, b ∈ g → ohlc_consistent b).
      { intros b Hb. apply Hok. apply list_elem_of_filter in Hb as [_ Hb]. exact Hb. }
      destruct g as [|b1 g'] eqn:Hgeq; [congruence|].
      destruct (Hg b1 ltac:(left)) as (o1 & h1 & l1 & c1 & v1 & Ho1 & Hh1 & Hl1 & Hc1 & Hv1 & B1 & B2).
      assert (Hlast : ∃ bn, last (b1 :: g') = Some bn) by
        (destruct (last (b1 :: g')) eqn:E; [eauto | apply last_None in E; discriminate]).
      destruct Hlast as [bn Hbn].
      assert (Hbng : bn ∈ b1 :: g') by (apply last_Some_elem_of; exact Hbn).
      destruct (Hg bn Hbng) as (on & hn & ln & cn & vn & Hon & Hhn & Hln & Hcn & Hvn & Bn1 & Bn2).
      (* highs and lows *)
      destruct (agg_max (b_High <$> b1 :: g')) as [H|] eqn:Hmax.
      2:{ exfalso. unfold agg_max in Hmax.
          destruct (present (b_High <$> b1 :: g')) eqn:Hp; [|discriminate].
          assert (h1 ∈ present (b_High <$> b1 :: g')) as Hc.
          { apply present_elem, list_elem_of_fmap. exists b1. split; [auto | left]. }
          rewrite Hp in Hc. inversion Hc. }
      destruct (agg_min (b_Low <$> b1 :: g')) as [L|] eqn:Hmin.
      2:{ exfalso. unfold agg_min in Hmin.
          destruct (present (b_Low <$> b1 :: g')) eqn:Hp; [|discriminate].
          assert (l1 ∈ present (b_Low <$> b1 :: g')) as Hc.
          { apply present_elem, list_elem_of_fmap. exists b1. split; [auto | left]. }
          rewrite Hp in Hc. inversion Hc. }
      apply agg_max_spec in Hmax as [_ Hmax]. apply agg_min_spec in Hmin as [_ Hmin].
      assert (Hhi : ∀ b h, b ∈ b1 :: g' → b_High b = Some h → (h <= H)%Q).
      { intros b h Hb Hh. apply Hmax, present_elem, list_elem_of_fmap. eauto. }
      assert (Hlo : ∀ b l', b ∈ b1 :: g' → b_Low b = Some l' → (L <= l')%Q).
      { intros b l' Hb Hl'. apply Hmin, present_elem, list_elem_of_fmap. eauto. }
      pose proof (Hhi b1 h1 ltac:(left) Hh1). pose proof (Hlo b1 l1 ltac:(left) Hl1).
      pose proof (Hhi bn hn Hbng Hhn). pose proof (Hlo bn ln Hbng Hln).
      assert (Hopen : agg_first (b_Open <$> b1 :: g') = Some o1).
      { unfold agg_first, present. cbn [fmap list_fmap omap list_omap]. rewrite Ho1. reflexivity. }
      assert (Hclose : agg_last (b_Close <$> b1 :: g') = Some cn).
      { unfold agg_last, present.
        assert (Hall : omap id (b_Close <$> b1 :: g')
                       = (λ b, default 0%Q (b_Close b)) <$> b1 :: g').
        { clear -Hg. induction (b1 :: g') as [|b l IH]; [reflexivity|].
          cbn [fmap list_fmap omap list_omap].
          destruct (Hg b ltac:(left)) as (? & ? & ? & c & ? & _ & _ & _ & Hc & _).
          rewrite Hc. cbn. f_equal. apply IH. intros b' Hb'. apply Hg. right. exact Hb'. }
        rewrite Hall, fmap_last, Hbn. cbn. rewrite Hcn. reflexivity. }
      unfold ohlc_consistent. cbn [b_Open b_High b_Low b_Close b_Volume].
      rewrite Hopen, Hclose. unfold agg_sum.
      eexists _, _, _, _, _. repeat (split; [reflexivity|]). split; split; lra. }
    split.
    + intros w Hin. destruct (Hlabel w Hin) as [_ Heq]. rewrite Heq. apply Hagg.
      intros Hnil. subst weekly. apply list_elem_of_filter in Hin as [Hc _].
      rewrite Heq in Hc. unfold bar_complete, agg_week in Hc. rewrite Hnil in Hc.
      cbn in Hc. discriminate Hc.
    + intros b Hb.
      assert (Hl : week_end (b_date b) ∈ week_labels (b_date <$> bs)).
      { assert (Hbd : b_date b ∈ b_date <$> bs) by (apply list_elem_of_fmap; eauto).
        destruct (b_date <$> bs) as [|d ds] eqn:Hd; [inversion Hbd|].
        apply week_labels_spec. split.
        - unfold week_end. Z.to_euclidean_division_equations. lia.
        - split; apply week_end_mono; apply (foldl_Zmin_Zmax_bounds ds d _ Hbd). }
      assert (Hgne : week_group bs (week_end (b_date b)) ≠ []).
      { intros Hnil. assert (b ∈ week_group bs (week_end (b_date b))) as Hc.
        { apply list_elem_of_filter. split; [reflexivity | exact Hb]. }
        rewrite Hnil in Hc. inversion Hc. }
      exists (agg_week bs (week_end (b_date b))). split.
      * subst weekly. apply list_elem_of_filter. split.
        -- destruct (Hagg _ Hgne) as (? & ? & ? & ? & ? & H1 & H2 & H3 & H4 & H5 & _).
           unfold bar_complete. rewrite H1, H2, H3, H4, H5. reflexivity.
        -- unfold resample_W_agg. apply list_elem_of_fmap. eauto.
      * cbn [agg_week b_date]. unfold week_end. Z.to_euclidean_division_equations. lia.
Qed.

End WeeklyBars.

Lemma to_lower_cases (c : ascii) :
  (is_lower (to_lower c) || is_upper (to_lower c) = is_lower c || is_upper c)
  ∧ to_lower (to_lower c) = to_lower c
  ∧ (is_lower c || is_upper c = true → to_upper (to_lower c) = to_upper c).
Proof. destruct c as [[] [] [] [] [] [] [] []]; vm_compute; auto. Qed.

Lemma title_from_lower (p : bool) (s : string) :
  title_from p (lower s) = title_from p s.
Proof.
  revert p. induction s as [|c s IH]; intros p; [reflexivity|].
  cbn [lower title_from].
  destruct (to_lower_cases c) as (Hc & Hl & Hu). rewrite Hc.
  destruct (is_lower c || is_upper c) eqn:E.
  - rewrite IH, Hl, (Hu eq_refl). reflexivity.
  - rewrite IH. f_equal.
    unfold to_lower. destruct (is_upper c) eqn:E'; [|reflexivity].
    rewrite orb_true_r in E. discriminate.
Qed.

Section ColumnCase.
Variables yf1 yf2 : string → DataFrame.

(** X12: the capitalisation of the provider's column names does not matter.
    Two names that differ only in the case of their ASCII letters get the
    same title, and two provider frames with the same dates and cells whose
    column names differ only in case give the same weekly series (or are
    both skipped). *)
Theorem download_weekly_ignores_case (ticker : string) :
  df_index (yf1 ticker) = df_index (yf2 ticker) →
  df_data (yf1 ticker) = df_data (yf2 ticker) →
  lower <$> df_columns (yf1 ticker) = lower <$> df_columns (yf2 ticker) →
  (∀ s1 s2, lower s1 = lower s2 → title s1 = title s2)
  ∧ download_weekly yf1 ticker = download_weekly yf2 ticker.
Proof.
  intros Hi Hd Hc.
  assert (Ht : ∀ s1 s2, lower s1 = lower s2 → title s1 = title s2).
  { intros s1 s2 H. unfold title.
    rewrite <- (title_from_lower false s1), <- (title_from_lower false s2), H.
    reflexivity. }
  split; [exact Ht|].
  assert (Hr : rename_title (yf1 ticker) = rename_title (yf2 ticker)).
  { unfold rename_title. rewrite Hi, Hd. f_equal.
    revert Hc. generalize (df_columns (yf1 ticker)) (df_columns (yf2 ticker)).
    induction l as [|a l IH]; intros [|b l']; cbn; try discriminate; [reflexivity|].
    intros [= Hab Hl]. f_equal; [apply Ht, Hab | apply IH, Hl]. }
  unfold download_weekly.
  assert (He : df_empty (yf1 ticker) = df_empty (yf2 ticker)).
  { unfold df_empty. rewrite Hi.
    apply (f_equal length) in Hc. rewrite !length_fmap in Hc.
    destruct (df_index (yf2 ticker)); [reflexivity|].
    destruct (df_columns (yf1 ticker)), (df_columns (yf2 ticker)); cbn in Hc; try lia; reflexivity. }
  rewrite He, Hr. reflexivity.
Qed.

End ColumnCase.

(** ** The summary table of a run *)

Lemma lookup_blocks {A B} (f : A → list B) (l : list A) (i : nat) :
  (∀ x, length (f x) = 4%nat) →
  (l ≫= f) !! i = l !! (i / 4)%nat ≫= λ x, f x !! (i mod 4)%nat.
Proof.
  intros Hlen. revert i. induction l as [|x l IH]; intros i.
  - reflexivity.
  - rewrite bind_cons. destruct (decide (i < 4)%nat) as [Hlt|Hge].
    + rewrite lookup_app_l by (rewrite Hlen; exact Hlt).
      rewrite Nat.div_small, Nat.mod_small by exact Hlt. reflexivity.
    + rewrite lookup_app_r by (rewrite Hlen; lia). rewrite Hlen, IH.
      assert (Hd : (i / 4 = S ((i - 4) / 4))%nat).
      { replace i with (1 * 4 + (i - 4))%nat at 1 by lia.
        rewrite Nat.div_add_l by lia. reflexivity. }
      assert (Hm : (i mod 4 = (i - 4) mod 4)%nat).
      { replace i with ((i - 4) + 1 * 4)%nat at 1 by lia.
        apply Nat.Div0.mod_add. }
      rewrite Hd, Hm. reflexivity.
Qed.

Section PipelineTable.
Context `{Indicators} `{StatsEngine}.
Variable yf_download : string → DataFrame.

Lemma processed_blocks (tickers : list string) :
  Ticker <$> summary_rows (processed yf_download tickers)
  = filter (λ T, has_results yf_download T = true) tickers ≫= (λ T, [T; T; T; T])
  ∧ Strategy <$> summary_rows (processed yf_download tickers)
    = filter (λ T, has_results yf_download T = true) tickers ≫= (λ _, STRATEGY_ORDER).
Proof.
  unfold summary_rows, processed, has_results.
  induction tickers as [|T tickers [IH1 IH2]]; [split; reflexivity|].
  cbn [omap list_omap]. rewrite filter_cons.
  destruct (analyze yf_download T) as [[a|]|e] eqn:Ha.
  - rewrite decide_True by reflexivity. rewrite !bind_cons, !fmap_app, IH1, IH2.
    cbn [rows_of entry_of fmap list_fmap Ticker Strategy tr_Ticker].
    rewrite (analyze_ticker _ _ _ Ha). split; reflexivity.
  - rewrite decide_False by discriminate. split; assumption.
  - rewrite decide_False by discriminate. split; assumption.
Qed.

Lemma summary_rows_elem (tickers : list string) (r : Row) :
  r ∈ summary_rows (processed yf_download tickers) →
  ∃ T a, T ∈ tickers ∧ analyze yf_download T = Ok (Some a) ∧ r ∈ rows_of (entry_of a).
Proof.
  unfold summary_rows, processed. rewrite list_elem_of_bind.
  intros (e & Hr & He). apply list_elem_of_omap in He as (T & HT & He).
  destruct (analyze yf_download T) as [[a|]|] eqn:Ha; try discriminate.
  injection He as <-. eauto.
Qed.

Lemma strategy_backtest_rows (tickers : list string) (rs : list Row) :
  strategy_backtest yf_download tickers = Ok rs →
  rs = summary_rows (processed yf_download tickers).
Proof.
  unfold strategy_backtest.
  destruct (main_loop yf_download tickers []) as [res|e] eqn:Hm; [|discriminate].
  intros [= <-]. apply main_loop_ok in Hm. rewrite Hm. reflexivity.
Qed.

(** X13: the summary table keeps the order of the run.  The rows come in
    blocks of four, one block for each ticker that produced results, in the
    order of the ticker list; inside a block the strategies are Trend,
    High_Vol, Low_Vol, Benchmark, all with the block's ticker. *)
Theorem summary_rows_order (tickers : list string) (rs : list Row) :
  strategy_backtest yf_download tickers = Ok rs →
  let kept := filter (λ T, has_results yf_download T = true) tickers in
  length rs = (4 * length kept)%nat
  ∧ Ticker <$> rs = kept ≫= (λ T, [T; T; T; T])
  ∧ Strategy <$> rs = kept ≫= (λ _, STRATEGY_ORDER)
  ∧ ∀ i r, rs !! i = Some r →
      kept !! (i / 4)%nat = Some (Ticker r)
      ∧ STRATEGY_ORDER !! (i mod 4)%nat = Some (Strategy r).
Proof.
  intros Hrs. apply strategy_backtest_rows in Hrs. subst rs. cbv zeta.
  destruct (processed_blocks tickers) as [HT HS].
  set (kept := filter (λ T, has_results yf_download T = true) tickers) in *.
  set (rs := summary_rows (processed yf_download tickers)) in *.
  assert (Hlen : length rs = (4 * length kept)%nat).
  { rewrite <- (length_fmap Ticker), HT. clear. induction kept as [|T kept IH]; [reflexivity|].
    rewrite bind_cons, length_app, IH. cbn [length]. lia. }
  split; [exact Hlen|]. split; [exact HT|]. split; [exact HS|].
  intros i r Hi.
  assert (Hti : (Ticker <$> rs) !! i = Some (Ticker r)) by (rewrite list_lookup_fmap, Hi; reflexivity).
  assert (Hsi : (Strategy <$> rs) !! i = Some (Strategy r)) by (rewrite list_lookup_fmap, Hi; reflexivity).
  rewrite HT, lookup_blocks in Hti by reflexivity.
  rewrite HS, lookup_blocks in Hsi by reflexivity.
  assert (Hm : (i mod 4 < 4)%nat) by (apply Nat.mod_upper_bound; lia).
  destruct (kept !! (i / 4)%nat) as [T|]; [|discriminate].
  cbn [mbind option_bind] in Hti, Hsi. split; [|exact Hsi].
  destruct (i mod 4)%nat as [|[|[|[|k]]]]; cbn in Hti; try lia; congruence.
Qed.

Section EngineKeys.
(** The statistics engine answers a request for the five base metrics with
    entries for those metrics only, under their display names. *)
Hypothesis stats_requested_only :
  ∀ kw idx vals trades m k,
    vbt_stats kw idx vals trades METRICS = Some m → is_Some (m !! k) → k ∈ METRIC_TITLES.

Lemma getportfolio_stats_keys (idx : list Z) (close : Series.t Q) (e x : list bool)
    (kw : Kwargs) (k : string) :
  is_Some (getportfolio_stats (from_signals idx close e x kw) METRICS !! k) →
  k ∈ METRIC_TITLES ++ METRICS.
Proof.
  unfold getportfolio_stats, from_signals. cbn [pf_stats].
  destruct (vbt_stats _ _ _ _ METRICS) as [m|] eqn:Hm.
  - intros Hk. apply elem_of_app. left. eapply stats_requested_only; eassumption.
  - intros [v Hv]. apply elem_of_app. right.
    apply elem_of_list_to_map_2 in Hv. apply list_elem_of_fmap in Hv as (k' & [= -> _] & Hk').
    exact Hk'.
Qed.

Lemma analyze_metrics (T : string) (a : Analysis) (r : Row) (k : string) :
  analyze yf_download T = Ok (Some a) → r ∈ rows_of (entry_of a) →
  is_Some (metrics r !! k) → k ∈ METRIC_TITLES ++ METRICS.
Proof.
  unfold analyze. destruct (download_weekly yf_download T) as [weekly|]; [|discriminate].
  unfold build_weekly_trend_strategy.
  destruct (build_daily_volatility_strategies _ _ _ _) as [[db|]|] eqn:Hdb; try discriminate.
  destruct (sync_start _ _) as [start|]; [|discriminate].
  intros [= <-]. unfold build_daily_volatility_strategies in Hdb.
  destruct (df_empty (yf_download T)); [discriminate|].
  destruct (df_col _ "Close") as [close|]; [|discriminate].
  destruct (df_col _ "High") as [high|]; [|discriminate].
  destruct (df_col _ "Low") as [low|]; [|discriminate].
  injection Hdb as <-.
  unfold rows_of, entry_of. cbn [an_ticker an_pf_trend an_daily an_benchmark
    db_high_vol db_low_vol tr_Ticker tr_Trend tr_High_Vol tr_Low_Vol tr_Benchmark].
  intros Hr. repeat (apply elem_of_cons in Hr as [->|Hr]); cbn [metrics];
    try apply getportfolio_stats_keys.
  inversion Hr.
Qed.

(** X14: the results table cannot feed the composite ranking.  When the
    statistics engine reports only the five requested metrics, the table
    written by a completed run with at least one row has no other columns
    than Ticker, Strategy, the five display names and the five metric
    names; in particular it has no "Total Trades" and no "Win Rate [%]"
    column, so the script of the composite ranking, which selects both for
    display, stops with a KeyError and writes no detailed CSV. *)
Theorem pipeline_table_stops_composite_ranking
    (tickers : list string) (rs : list Row) (df : Table) :
  strategy_backtest yf_download tickers = Ok rs → rs ≠ [] →
  rows df = rs →
  (∀ c, c ∈ columns df →
     c = "Ticker"%string ∨ c = "Strategy"%string
     ∨ ∃ r, r ∈ rs ∧ is_Some (metrics r !! c)) →
  (∀ c, c ∈ columns df →
     c ∈ "Ticker"%string :: "Strategy"%string :: METRIC_TITLES ++ METRICS)
  ∧ ("Total Trades"%string ∉ columns df)
  ∧ ("Win Rate [%]"%string ∉ columns df)
  ∧ top_performers_analysis df = Raised "KeyError".
Proof.
  intros Hrs _ Hrows Hcols.
  assert (Hall : ∀ c, c ∈ columns df →
            c ∈ "Ticker"%string :: "Strategy"%string :: METRIC_TITLES ++ METRICS).
  { intros c Hc. destruct (Hcols c Hc) as [->|[->|(r & Hr & Hk)]].
    - left.
    - right. left.
    - right. right. apply strategy_backtest_rows in Hrs. subst rs.
      apply summary_rows_elem in Hr as (T & a & _ & Ha & Hr).
      eapply analyze_metrics; eassumption. }
  assert (Htt : "Total Trades"%string ∉ columns df).
  { intros Hc. apply Hall in Hc.
    exact (bool_decide_eq_false_1
             ("Total Trades"%string ∈ "Ticker"%string :: "Strategy"%string
                                       :: METRIC_TITLES ++ METRICS) eq_refl Hc). }
  assert (Hwr : "Win Rate [%]"%string ∉ columns df).
  { intros Hc. apply Hall in Hc.
    exact (bool_decide_eq_false_1
             ("Win Rate [%]"%string ∈ "Ticker"%string :: "Strategy"%string
                                       :: METRIC_TITLES ++ METRICS) eq_refl Hc). }
  split; [exact Hall|]. split; [exact Htt|]. split; [exact Hwr|].
  unfold top_performers_analysis. destruct (top_strategies df) as [ts|e] eqn:Hts.
  - assert (Hd : forallb (λ c, bool_decide (c ∈ top_strategies_columns df)) display_cols
                 = false).
    { apply not_true_iff_false. intros Hc. rewrite forallb_forall in Hc.
      specialize (Hc "Total Trades"%string).
      assert (In "Total Trades"%string display_cols) as Hin.
      { apply list_elem_of_In. unfold display_cols. do 9 right. left. }
      apply Hc, bool_decide_eq_true_1 in Hin. unfold top_strategies_columns in Hin.
      apply elem_of_app in Hin as [Hin|Hin]; [exact (Htt Hin)|].
      exact (bool_decide_eq_false_1
               ("Total Trades"%string
                  ∈ ["Benchmark_Return"; "Benchmark_Sharpe"; "Beat_Market";
                     "Outperformance"; "Composite_Score"; "Rank"]%string) eq_refl Hin). }
    rewrite Hd. reflexivity.
  - unfold top_strategies in Hts.
    destruct (has_columns _ df); cbn [negb] in Hts; [|congruence].
    destruct (has_columns [MDD] df); cbn [negb] in Hts; [discriminate | congruence].
Qed.

End EngineKeys.

End PipelineTable.

(** ** build_dashboard.py: the frame, the summary and the key findings *)

#[local] Instance str_le_total : Total str_le.
Proof. intros a b. apply String.leb_total. Qed.

Lemma Forall2_elem_of_right {A B} (P : A → B → Prop) (l : list A) (k : list B) (y : B) :
  Forall2 P l k → y ∈ k → ∃ x, x ∈ l ∧ P x y.
Proof.
  induction 1 as [|x y' l k Hxy _ IH]; intros Hy; [inversion Hy|].
  apply elem_of_cons in Hy as [->|Hy].
  - exists x. split; [left | exact Hxy].
  - destruct (IH Hy) as (x' & Hx' & HP). exists x'. split; [right; exact Hx' | exact HP].
Qed.

Lemma Forall2_fmap_eq {A B} (f : B → A) (P : A → B → Prop) (l : list A) (k : list B) :
  (∀ x y, P x y → f y = x) → Forall2 P l k → f <$> k = l.
Proof.
  intros Hf. induction 1 as [|x y l k Hxy _ IH]; [reflexivity|].
  cbn [fmap list_fmap]. rewrite (Hf x y Hxy), IH. reflexivity.
Qed.

Lemma dash_frame_Ok (df : Table) (ds : list DashRow) :
  dash_frame df = Ok ds →
  let rs := dropna_subset (rows df) in
  let bench := filter (λ r, is_benchmark r = true) rs in
  has_columns ["Ticker"; "Strategy"; TR; SR]%string df = true
  ∧ Forall2 (λ r d, add_beat_market bench r = Ok d) rs ds.
Proof.
  unfold dash_frame. destruct (has_columns _ df); cbn [negb]; [|discriminate].
  intros H. split; [reflexivity|]. apply apply_rows_Ok, H.
Qed.

Lemma add_beat_market_columns (bench : list Row) (r : Row) (d : DashRow) :
  add_beat_market bench r = Ok d →
  dr_row d = r
  ∧ (is_benchmark r = true →
       dr_Beat_Market d = "No"%string ∧ dr_Market_Outperf d = Some 0%Q)
  ∧ (is_benchmark r = false →
       ∃ b, benchmark_get bench (Ticker r) = Some b
            ∧ dr_Market_Outperf d = lift2 Qminus (num r TR) (Some b)
            ∧ (dr_Beat_Market d = "Yes"%string ∨ dr_Beat_Market d = "No"%string)
            ∧ (dr_Beat_Market d = "Yes"%string
               ↔ ∃ x, num r TR = Some x ∧ (b < x)%Q)).
Proof.
  unfold add_beat_market. destruct (is_benchmark r) eqn:Hb.
  - intros [= <-]. cbn. split; [reflexivity|]. split; [auto | discriminate].
  - destruct (benchmark_get bench (Ticker r)) as [b|]; [|discriminate].
    intros [= <-]. cbn. split; [reflexivity|]. split; [discriminate|]. intros _.
    exists b. split; [reflexivity|]. split; [reflexivity|].
    destruct (Series.gt1 (num r TR) (Some b)) eqn:Hgt.
    + split; [left; reflexivity|]. split; [|reflexivity]. intros _.
      apply SeriesFacts.gt1_true in Hgt as (x & y & Hx & [= <-] & Hlt). eauto.
    + split; [right; reflexivity|]. split; [discriminate|].
      intros (x & Hx & Hlt). exfalso.
      assert (Series.gt1 (num r TR) (Some b) = true) as Hc.
      { apply SeriesFacts.gt1_true. eauto. }
      congruence.
Qed.

Lemma beat_market_matches_outperformance_aux (df : Table) (ds : list DashRow) :
  dash_frame df = Ok ds →
  dr_row <$> ds = dropna_subset (rows df)
  ∧ ∀ d, d ∈ ds →
      (∃ x s, num (dr_row d) TR = Some x ∧ num (dr_row d) SR = Some s)
      ∧ (is_benchmark (dr_row d) = true →
           dr_Beat_Market d = "No"%string ∧ dr_Market_Outperf d = Some 0%Q)
      ∧ (is_benchmark (dr_row d) = false →
           (dr_Beat_Market d = "Yes"%string ∨ dr_Beat_Market d = "No"%string)
           ∧ (∃ o, dr_Market_Outperf d = Some o)
           ∧ (dr_Beat_Market d = "Yes"%string
              ↔ ∃ o, dr_Market_Outperf d = Some o ∧ (0 < o)%Q)).
Proof.
  intros Hds. apply dash_frame_Ok in Hds as [_ Hall]. cbv zeta in Hall.
  set (rs := dropna_subset (rows df)) in *.
  set (bench := filter (λ r, is_benchmark r = true) rs) in *.
  split.
  - apply (Forall2_fmap_eq _ _ _ _ (λ r d H, proj1 (add_beat_market_columns bench r d H)) Hall).
  - intros d Hd.
    destruct (Forall2_elem_of_right _ _ _ _ Hall Hd) as (r & Hr & Hrd).
    apply add_beat_market_columns in Hrd as (Hrow & Hbench & Hstrat). rewrite Hrow.
    apply dropna_subset_spec in Hr as (_ & [x Hx] & [s Hs]).
    split; [eauto|]. split; [exact Hbench|].
    intros Hnb. destruct (Hstrat Hnb) as (b & _ & Hout & Hyn & Hyes).
    rewrite Hx in Hout, Hyes. cbn [lift2] in Hout.
    split; [exact Hyn|]. split; [eauto|]. rewrite Hyes, Hout. split.
    + intros (x' & [= <-] & Hlt). exists (x - b)%Q. split; [reflexivity | lra].
    + intros (o & [= <-] & Hpos). exists x. split; [reflexivity | lra].
Qed.

(** X15: the columns Beat_Market and Market_Outperf agree.  The frame keeps
    the cleaned rows in order.  A Benchmark row is marked "No" with an
    outperformance of 0.  A strategy row is marked "Yes" or "No", and "Yes"
    exactly when its outperformance (its return minus the benchmark return
    of its ticker, 0 without a Benchmark row) is positive. *)
Theorem beat_market_matches_outperformance (df : Table) (ds : list DashRow) :
  dash_frame df = Ok ds →
  dr_row <$> ds = dropna_subset (rows df)
  ∧ ∀ d, d ∈ ds →
      (∃ x s, num (dr_row d) TR = Some x ∧ num (dr_row d) SR = Some s)
      ∧ (is_benchmark (dr_row d) = true →
           dr_Beat_Market d = "No"%string ∧ dr_Market_Outperf d = Some 0%Q)
      ∧ (is_benchmark (dr_row d) = false →
           (dr_Beat_Market d = "Yes"%string ∨ dr_Beat_Market d = "No"%string)
           ∧ (∃ o, dr_Market_Outperf d = Some o)
           ∧ (dr_Beat_Market d = "Yes"%string
              ↔ ∃ o, dr_Market_Outperf d = Some o ∧ (0 < o)%Q)).
Proof. apply beat_market_matches_outperformance_aux. Qed.

Lemma length_filter_split {A} (P Q R : A → Prop)
    `{!∀ x, Decision (P x)} `{!∀ x, Decision (Q x)} `{!∀ x, Decision (R x)} (l : list A) :
  (∀ x, R x ↔ P x ∨ Q x) → (∀ x, P x → Q x → False) →
  length (filter R l) = (length (filter P l) + length (filter Q l))%nat.
Proof.
  intros HR Hdisj. induction l as [|x l IH]; [reflexivity|].
  rewrite !filter_cons.
  destruct (decide (R x)) as [Hr|Hr], (decide (P x)) as [Hp|Hp], (decide (Q x)) as [Hq|Hq];
    cbn [length]; try lia.
  - exfalso. exact (Hdisj x Hp Hq).
  - exfalso. apply HR in Hr. tauto.
  - exfalso. apply Hr, HR. tauto.
  - exfalso. apply Hr, HR. tauto.
  - exfalso. apply Hr, HR. tauto.
Qed.

(** Grouping by a key splits a list: the sizes of the groups of distinct
    keys add up to the number of elements whose key is among them. *)
Lemma sum_groups {A} (f : A → string) (l : list A) (ks : list string) :
  NoDup ks →
  sum_list_with (λ k, length (filter (λ x, f x = k) l)) ks
  = length (filter (λ x, f x ∈ ks) l).
Proof.
  induction 1 as [|k ks Hk Hnd IH]; cbn [sum_list_with].
  - symmetry. apply length_zero_iff_nil. apply elem_of_nil_inv. intros x Hx.
    apply list_elem_of_filter in Hx as [Hx _]. inversion Hx.
  - rewrite IH. symmetry. apply length_filter_split.
    + intros x. rewrite elem_of_cons. tauto.
    + intros x <- Hx. exact (Hk Hx).
Qed.

Lemma sum_groups_all {A} (f : A → string) (l : list A) (ks : list string) :
  NoDup ks → (∀ x, x ∈ l → f x ∈ ks) →
  sum_list_with (λ k, length (filter (λ x, f x = k) l)) ks = length l.
Proof.
  intros Hnd Hall. rewrite sum_groups by exact Hnd. f_equal.
  apply filter_all, Forall_forall, Hall.
Qed.

Lemma sum_list_with_fmap' {A B} (f : B → nat) (g : A → B) (l : list A) :
  sum_list_with f (g <$> l) = sum_list_with (λ x, f (g x)) l.
Proof. induction l as [|x l IH]; [reflexivity|]. cbn. rewrite IH. reflexivity. Qed.

Lemma sum_list_with_ext' {A} (f g : A → nat) (l : list A) :
  (∀ x, x ∈ l → f x = g x) → sum_list_with f l = sum_list_with g l.
Proof.
  induction l as [|x l IH]; intros H; [reflexivity|]. cbn.
  rewrite (H x ltac:(left)), IH; [reflexivity|]. intros y Hy. apply H. right. exact Hy.
Qed.

Lemma sorted_keys_spec (names : list string) :
  NoDup (sorted_keys names)
  ∧ Sorted str_le (sorted_keys names)
  ∧ ∀ s, s ∈ sorted_keys names ↔ s ∈ names.
Proof.
  unfold sorted_keys. split; [|split].
  - rewrite merge_sort_Permutation. apply NoDup_remove_dups.
  - apply Sorted_merge_sort. apply _.
  - intros s. rewrite merge_sort_Permutation, elem_of_remove_dups. reflexivity.
Qed.

Lemma group_keys_spec (ds : list DashRow) :
  NoDup (group_keys ds)
  ∧ Sorted str_le (group_keys ds)
  ∧ ∀ s, s ∈ group_keys ds ↔ ∃ d, d ∈ ds ∧ Strategy (dr_row d) = s.
Proof.
  unfold group_keys. destruct (sorted_keys_spec ((λ d, Strategy (dr_row d)) <$> ds))
    as (Hnd & Hs & Hk).
  split; [exact Hnd|]. split; [exact Hs|].
  intros s. rewrite Hk, list_elem_of_fmap.
  split; intros (d & H1 & H2); exists d; split; auto.
Qed.

Section DashboardFacts.
Variable np_round : nat → Q → Q.

Lemma summary_strategies (ds : list DashRow) :
  sm_Strategy <$> strategy_summary np_round ds = group_keys (strategies_of ds).
Proof.
  unfold strategy_summary. apply list_eq. intros i. rewrite !list_lookup_fmap.
  destruct (group_keys (strategies_of ds) !! i); reflexivity.
Qed.

(** X16: the summary by strategy adds up.  Its rows are the strategy names
    of the cleaned non-Benchmark rows, each once, in ascending order; the
    row of a strategy counts at least one row and at most as many wins as
    rows, and shows both averages; the counts add up to the number of
    combinations tested and the wins to the number of combinations that
    beat their benchmark, the two totals of the key findings. *)
Theorem strategy_summary_totals (df : Table) (ds : list DashRow) :
  dash_frame df = Ok ds →
  let sm := strategy_summary np_round ds in
  let strategies := strategies_of ds in
  Sorted str_le (sm_Strategy <$> sm)
  ∧ NoDup (sm_Strategy <$> sm)
  ∧ (∀ s, s ∈ sm_Strategy <$> sm ↔ ∃ d, d ∈ strategies ∧ Strategy (dr_row d) = s)
  ∧ ("Benchmark"%string ∉ sm_Strategy <$> sm)
  ∧ (∀ r, r ∈ sm →
       (1 ≤ sm_Count r)%nat ∧ (sm_Wins r ≤ sm_Count r)%nat
       ∧ sm_Count r = length (strategy_group strategies (sm_Strategy r))
       ∧ sm_Wins r = length (filter beat_yes (strategy_group strategies (sm_Strategy r)))
       ∧ is_Some (sm_Avg_Return r) ∧ is_Some (sm_Avg_Sharpe r))
  ∧ sum_list_with sm_Count sm = length strategies
  ∧ sum_list_with sm_Wins sm = length (filter beat_yes strategies).
Proof.
  intros Hds. cbv zeta.
  destruct (beat_market_matches_outperformance_aux df ds Hds) as [_ Hrows].
  destruct (group_keys_spec (strategies_of ds)) as (Hnd & Hsorted & Hkeys).
  rewrite summary_strategies.
  split; [exact Hsorted|]. split; [exact Hnd|]. split; [exact Hkeys|].
  split; [|split; [|split]].
  - intros Hb. apply Hkeys in Hb as (d & Hd & Hs).
    apply list_elem_of_filter in Hd as [Hd _]. unfold is_benchmark in Hd.
    rewrite Hs in Hd. discriminate Hd.
  - intros r Hr. unfold strategy_summary in Hr.
    apply list_elem_of_fmap in Hr as (s & -> & Hs).
    apply Hkeys in Hs as (d & Hd & Hs).
    unfold summary_row. cbn [sm_Count sm_Wins sm_Strategy sm_Avg_Return sm_Avg_Sharpe].
    set (g := strategy_group (strategies_of ds) s).
    assert (Hg : d ∈ g).
    { apply list_elem_of_filter. split; assumption. }
    assert (Hsub : ∀ d', d' ∈ g → d' ∈ ds).
    { intros d' Hd'. apply list_elem_of_filter in Hd' as [_ Hd'].
      apply list_elem_of_filter in Hd' as [_ Hd']. exact Hd'. }
    split; [|split; [apply length_filter|split; [reflexivity|split; [reflexivity|]]]].
    + destruct g; [inversion Hg | cbn [length]; lia].
    + destruct (Hrows d (Hsub d Hg)) as ((x & sh & Hx & Hsh) & _).
      split; apply fmap_is_Some; unfold mean_of.
      * destruct (omap (λ d, num (dr_row d) TR) g) as [|y ys] eqn:Ho; [|eauto].
        exfalso. assert (x ∈ omap (λ d, num (dr_row d) TR) g) as Hc.
        { apply list_elem_of_omap. eauto. }
        rewrite Ho in Hc. inversion Hc.
      * destruct (omap (λ d, num (dr_row d) SR) g) as [|y ys] eqn:Ho; [|eauto].
        exfalso. assert (sh ∈ omap (λ d, num (dr_row d) SR) g) as Hc.
        { apply list_elem_of_omap. eauto. }
        rewrite Ho in Hc. inversion Hc.
  - unfold strategy_summary. rewrite sum_list_with_fmap'.
    unfold summary_row. cbn [sm_Count]. unfold strategy_group.
    apply sum_groups_all; [exact Hnd|].
    intros d Hd. apply Hkeys. eauto.
  - unfold strategy_summary. rewrite sum_list_with_fmap'.
    unfold summary_row. cbn [sm_Wins]. unfold strategy_group.
    rewrite <- (sum_groups_all (λ d, Strategy (dr_row d))
                  (filter beat_yes (strategies_of ds))
                  (group_keys (strategies_of ds)) Hnd).
    + apply sum_list_with_ext'. intros s _.
      rewrite !list_filter_filter. f_equal. apply list_filter_iff. intros d. tauto.
    + intros d Hd. apply list_elem_of_filter in Hd as [_ Hd]. apply Hkeys. eauto.
Qed.

End DashboardFacts.

Lemma outperformers_wins (ds : list DashRow) :
  outperformers ds = filter beat_yes (strategies_of ds).
Proof.
  unfold outperformers, strategies_of. rewrite list_filter_filter.
  apply list_filter_iff. intros d. unfold beat_yes. tauto.
Qed.

Lemma top10_of_frame (df : Table) (ds : list DashRow) (top : list RankedDashRow) :
  dash_frame df = Ok ds → top10 df = Ok top →
  top = add_rank (λ i d, {| rd_Rank := i; rd_row := d |})
          (nlargest 20 dash_return (outperformers ds)).
Proof.
  unfold dash_frame, top10.
  destruct (has_columns ["Ticker"; "Strategy"; TR; SR]%string df); cbn [negb]; [|discriminate].
  intros ->. destruct (has_columns [MDD] df); cbn [negb]; [|discriminate].
  intros [= <-]. reflexivity.
Qed.

Lemma rd_row_add_rank (l : list DashRow) :
  rd_row <$> add_rank (λ i d, {| rd_Rank := i; rd_row := d |}) l = l.
Proof.
  apply list_eq. intros i. rewrite list_lookup_fmap, add_rank_lookup.
  destruct (l !! i); reflexivity.
Qed.

Lemma nlargest_nil {A} (key : A → option Q) (n : nat) (l : list A) :
  (0 < n)%nat → nlargest n key l = [] ↔ l = [].
Proof.
  intros Hn. destruct (nlargest_spec key n l) as (Hlen & _). cbv zeta in Hlen. split.
  - intros H. rewrite H in Hlen. cbn in Hlen. apply nil_length_inv. lia.
  - intros ->. unfold nlargest. apply take_nil.
Qed.

(** The first line of a top-n selection stands before every element of the
    input. *)
Lemma nlargest_head {A} (key : A → option Q) (n : nat) (l : list A) (b x : A) :
  head (nlargest n key l) = Some b → x ∈ l → b ∈ l ∧ ranks_before key b x.
Proof.
  intros Hb Hx.
  destruct (nlargest_spec key n l) as (_ & (rest & Hperm & Hrest) & Hsort & _).
  cbv zeta in *. rewrite head_lookup in Hb.
  assert (Hbt : b ∈ nlargest n key l) by (apply list_elem_of_lookup_2 in Hb; exact Hb).
  split.
  - rewrite <- Hperm. apply elem_of_app. left. exact Hbt.
  - rewrite <- Hperm in Hx. apply elem_of_app in Hx as [Hx|Hx].
    + apply list_elem_of_lookup_1 in Hx as [j Hj].
      apply (Hsort 0%nat j b x); [lia | exact Hb | exact Hj].
    + apply Hrest; assumption.
Qed.

Lemma findings_win_rate_bounds (w t : nat) :
  (w ≤ t)%nat → (0 <= findings_win_rate w t <= 100)%Q.
Proof.
  intros Hwt. unfold findings_win_rate. destruct (Nat.ltb_spec 0 t) as [Ht|Ht]; [|lra].
  set (a := inject_Z (Z.of_nat w)). set (n := inject_Z (Z.of_nat t)).
  assert (Hn : (0 < n)%Q) by (unfold n, Qlt, inject_Z; cbn; lia).
  assert (Ha : (0 <= a ∧ a <= n)%Q) by (unfold a, n, Qle, inject_Z; cbn; lia).
  assert (H0 : (0 <= a / n)%Q) by (apply Qle_shift_div_l; [exact Hn | lra]).
  assert (H1 : (a / n <= 1)%Q) by (apply Qle_shift_div_r; [exact Hn | lra]).
  split; lra.
Qed.

Section DashboardFindings.
Variable np_round : nat → Q → Q.

(** X17: when the dashboard script fails on a readable table.  With at
    least one cleaned row and the frame and the ranking computed, the script
    stops with an IndexError exactly when no strategy beat its benchmark
    (the ranking is empty) or when no cleaned row belongs to the Trend
    strategy; it raises nothing else.  Otherwise it reports four findings, the ranking and the summary;
    the best performer is the first line of the ranking, has rank 1, beat
    its benchmark, and no combination that beat its benchmark has a larger
    total return.  The reported win rate lies between 0 and 100. *)
Theorem build_dashboard_findings (df : Table) (ds : list DashRow)
    (top : list RankedDashRow) :
  dropna_subset (rows df) ≠ [] →
  dash_frame df = Ok ds → top10 df = Ok top →
  let strategies := strategies_of ds in
  let wins := filter beat_yes strategies in
  (top = [] ↔ wins = [])
  ∧ (build_dashboard np_round df = Raised "IndexError"
       ↔ wins = [] ∨ ∀ d, d ∈ strategies → Strategy (dr_row d) ≠ "Trend"%string)
  ∧ (∀ e, build_dashboard np_round df = Raised e → e = "IndexError"%string)
  ∧ (0 <= findings_win_rate (length wins) (length strategies) <= 100)%Q
  ∧ ∀ out, build_dashboard np_round df = Ok out →
      dash_top10 out = top
      ∧ dash_summary out = strategy_summary np_round ds
      ∧ length (dash_findings out) = 4%nat
      ∧ ∃ best, head top = Some best ∧ rd_Rank best = 1%nat
          ∧ rd_row best ∈ wins
          ∧ ∀ d, d ∈ wins →
              ∃ x y, num (ranked_row best) TR = Some x
                     ∧ num (dr_row d) TR = Some y ∧ (y <= x)%Q.
Proof.
  intros _ Hds Htop. cbv zeta.
  pose proof (top10_of_frame df ds top Hds Htop) as Htopeq.
  rewrite outperformers_wins in Htopeq.
  destruct (beat_market_matches_outperformance_aux df ds Hds) as [_ Hrows].
  destruct (group_keys_spec (strategies_of ds)) as (_ & _ & Hkeys).
  set (wins := filter beat_yes (strategies_of ds)) in *.
  assert (Hnil : top = [] ↔ wins = []).
  { rewrite Htopeq. split.
    - intros H. apply (f_equal (fmap rd_row)) in H. rewrite rd_row_add_rank in H.
      cbn in H. apply (nlargest_nil dash_return 20 wins); [lia | exact H].
    - intros ->. reflexivity. }
  assert (Htrend : filter (λ s, sm_Strategy s = "Trend"%string) (strategy_summary np_round ds)
                   = [] ↔ ∀ d, d ∈ strategies_of ds → Strategy (dr_row d) ≠ "Trend"%string).
  { split.
    - intros Hf d Hd Hs.
      assert ("Trend"%string ∈ sm_Strategy <$> strategy_summary np_round ds) as Hin.
      { rewrite summary_strategies. apply Hkeys. eauto. }
      apply list_elem_of_fmap in Hin as (r & Hr1 & Hr2).
      assert (r ∈ filter (λ s, sm_Strategy s = "Trend"%string)
                    (strategy_summary np_round ds)) as Hc.
      { apply list_elem_of_filter. split; [symmetry; exact Hr1 | exact Hr2]. }
      rewrite Hf in Hc. inversion Hc.
    - intros Hall. apply elem_of_nil_inv. intros r Hr.
      apply list_elem_of_filter in Hr as [Hr1 Hr2].
      assert (sm_Strategy r ∈ sm_Strategy <$> strategy_summary np_round ds) as Hin.
      { apply list_elem_of_fmap. eauto. }
      rewrite summary_strategies in Hin. apply Hkeys in Hin as (d & Hd & Hs).
      apply (Hall d Hd). congruence. }
  unfold build_dashboard. rewrite Hds, Htop.
  split; [exact Hnil|]. split; [|split; [|split]].
  - destruct top as [|best rest].
    + split; [intros _; left; apply Hnil; reflexivity | reflexivity].
    + destruct (filter _ (strategy_summary np_round ds)) as [|trend trs] eqn:Hf.
      * split; [|reflexivity]. intros _. right. apply Htrend. reflexivity.
      * split; [discriminate|]. intros [Hw|Hall].
        -- apply Hnil in Hw. discriminate Hw.
        -- apply Htrend in Hall. discriminate Hall.
  - intros e. destruct top as [|best rest]; [intros [= <-]; reflexivity|].
    destruct (filter _ (strategy_summary np_round ds)); [intros [= <-]; reflexivity|].
    discriminate.
  - apply findings_win_rate_bounds. apply length_filter.
  - intros out. destruct top as [|best rest]; [discriminate|].
    destruct (filter _ (strategy_summary np_round ds)) as [|trend trs]; [discriminate|].
    intros [= <-]. cbn [dash_top10 dash_summary dash_findings length].
    split; [reflexivity|]. split; [reflexivity|]. split; [reflexivity|].
    exists best. split; [reflexivity|].
    assert (Hrd : rd_row <$> best :: rest = nlargest 20 dash_return wins).
    { rewrite Htopeq. apply rd_row_add_rank. }
    assert (Hhead : head (nlargest 20 dash_return wins) = Some (rd_row best)).
    { rewrite <- Hrd. reflexivity. }
    split; [|split].
    + pose proof (add_rank_lookup (λ i d, {| rd_Rank := i; rd_row := d |})
                    (nlargest 20 dash_return wins) 0) as Hl.
      rewrite <- Htopeq in Hl. cbn [lookup list_lookup] in Hl.
      destruct (nlargest 20 dash_return wins !! 0%nat); [|discriminate].
      injection Hl as ->. reflexivity.
    + destruct wins as [|w0 ws] eqn:Hw.
      * destruct Hnil as [_ Hn]. discriminate (Hn eq_refl).
      * apply (nlargest_head dash_return 20 (w0 :: ws) (rd_row best) w0 Hhead). left.
    + intros d Hd.
      destruct (nlargest_head dash_return 20 wins (rd_row best) d Hhead Hd) as [Hb Hrank].
      assert (Hin : ∀ d', d' ∈ wins → d' ∈ ds).
      { intros d' Hd'. apply list_elem_of_filter in Hd' as [_ Hd'].
        apply list_elem_of_filter in Hd' as [_ Hd']. exact Hd'. }
      destruct (Hrows _ (Hin _ Hb)) as ((x & ? & Hx & _) & _).
      destruct (Hrows _ (Hin _ Hd)) as ((y & ? & Hy & _) & _).
      exists x, y. split; [exact Hx|]. split; [exact Hy|].
      unfold ranks_before, dash_return in Hrank. unfold ranked_row in Hx.
      rewrite Hx, Hy in Hrank. apply key_ge_Some, Hrank.
Qed.

End DashboardFindings.

(** ** top_performers_analysis.py: the two small panels *)

Lemma filter_head_first {A} (P : A → Prop) `{!∀ x, Decision (P x)}
    (l : list A) (x : A) (rest : list A) :
  filter P l = x :: rest →
  ∃ i, l !! i = Some x ∧ P x ∧ ∀ j y, l !! j = Some y → P y → (i ≤ j)%nat.
Proof.
  induction l as [|z l IH]; [discriminate|]. rewrite filter_cons.
  destruct (decide (P z)) as [Hz|Hz].
  - intros [= -> _]. exists 0%nat. split; [reflexivity|]. split; [exact Hz|]. intros; lia.
  - intros Hf. destruct (IH Hf) as (i & Hi & Hx & Hmin). exists (S i).
    split; [exact Hi|]. split; [exact Hx|]. intros [|j] y Hj Hy.
    + cbn in Hj. injection Hj as <-. contradiction.
    + cbn in Hj. specialize (Hmin j y Hj Hy). lia.
Qed.

Lemma fmt_float_reads_back (d : nat) (v : Q) :
  ∃ x, decimal_value (fmt_float d (Some v)) = Some x
       ∧ (Qabs (x - v) * inject_Z (2 * 10 ^ Z.of_nat d) <= 1)%Q.
Proof.
  destruct (format_fixed_value d v) as [_ (x & Hx & Hb & _)]. exists x. split; assumption.
Qed.

Lemma best_of_Some (ts : list Ranked) (s : string) (b : BestRow) :
  best_of ts s = Some b →
  bs_Strategy b = s
  ∧ ∃ i k, ts !! i = Some k ∧ Strategy (rk_row k) = s
      ∧ bs_Best_Stock b = Ticker (rk_row k) ∧ bs_Rank b = Rank k
      ∧ bs_Return b = fmt_float 2 (num (rk_row k) TR) +:+ "%"
      ∧ bs_Sharpe b = fmt_float 3 (num (rk_row k) SR)
      ∧ ∀ j k', ts !! j = Some k' → Strategy (rk_row k') = s → (i ≤ j)%nat.
Proof.
  unfold best_of. destruct (filter _ ts) as [|best rest] eqn:Hf; [discriminate|].
  intros [= <-]. cbn. split; [reflexivity|].
  destruct (filter_head_first _ _ _ _ Hf) as (i & Hi & Hs & Hmin).
  exists i, best. repeat (split; [assumption || reflexivity|]). exact Hmin.
Qed.

Lemma best_of_None (ts : list Ranked) (s : string) :
  best_of ts s = None ↔ s ∉ (λ k, Strategy (rk_row k)) <$> ts.
Proof.
  unfold best_of. destruct (filter _ ts) as [|best rest] eqn:Hf.
  - split; [|reflexivity]. intros _ Hin.
    apply list_elem_of_fmap in Hin as (k & Hs & Hk).
    assert (k ∈ filter (λ k, Strategy (rk_row k) = s) ts) as Hc.
    { apply list_elem_of_filter. split; [symmetry; exact Hs | exact Hk]. }
    rewrite Hf in Hc. inversion Hc.
  - split; [discriminate|]. intros Hn. exfalso. apply Hn.
    assert (best ∈ filter (λ k, Strategy (rk_row k) = s) ts) as Hc by (rewrite Hf; left).
    apply list_elem_of_filter in Hc as [Hs Hk]. apply list_elem_of_fmap. eauto.
Qed.

Lemma best_names (ts : list Ranked) (ss : list string) :
  bs_Strategy <$> omap (best_of ts) ss
  = filter (λ s, s ∈ (λ k, Strategy (rk_row k)) <$> ts) ss.
Proof.
  induction ss as [|s ss IH]; [reflexivity|].
  cbn [omap list_omap]. rewrite filter_cons.
  destruct (best_of ts s) as [b|] eqn:Hb.
  - assert (Hin : s ∈ (λ k, Strategy (rk_row k)) <$> ts).
    { destruct (decide (s ∈ (λ k, Strategy (rk_row k)) <$> ts)) as [Hd|Hd]; [exact Hd|].
      apply best_of_None in Hd. congruence. }
    rewrite decide_True by exact Hin. cbn [fmap list_fmap].
    apply best_of_Some in Hb as [-> _]. f_equal. exact IH.
  - apply best_of_None in Hb. rewrite decide_False by exact Hb. exact IH.
Qed.

(** X18: the panel "best stock by strategy".  It has at most three lines, in
    the order Trend, High_Vol, Low_Vol, one for each of these strategies
    that occurs in the ranking.  The line of a strategy names the ticker and
    the rank of the highest-ranked line of that strategy: no line of the
    strategy has a smaller rank, or stands before it by composite score.
    The return shown is a numeral within 0.005 of that line's total return,
    followed by a percent sign. *)
Theorem best_per_strategy_spec (df : Table) (ts : list Ranked) :
  top_strategies df = Ok ts →
  let best := best_per_strategy ts in
  let named := (λ k, Strategy (rk_row k)) <$> ts in
  (length best ≤ 3)%nat
  ∧ bs_Strategy <$> best
    = filter (λ s, s ∈ named) ["Trend"; "High_Vol"; "Low_Vol"]%string
  ∧ ∀ b, b ∈ best →
      ∃ k, k ∈ ts ∧ Strategy (rk_row k) = bs_Strategy b
        ∧ bs_Best_Stock b = Ticker (rk_row k) ∧ bs_Rank b = Rank k
        ∧ (∀ k', k' ∈ ts → Strategy (rk_row k') = bs_Strategy b →
             (Rank k ≤ Rank k')%nat ∧ ranks_before Composite_Score k k')
        ∧ ∃ body x v, bs_Return b = body +:+ "%"
            ∧ decimal_value body = Some x
            ∧ num (rk_row k) TR = Some v ∧ (Qabs (x - v) <= 1 # 200)%Q.
Proof.
  intros Hts. cbv zeta.
  pose proof (top_strategies_kept df ts Hts) as Hkept.
  pose proof (top_strategies_Ok df ts Hts) as Heq.
  set (sorted := sort_desc snd _) in Heq.
  unfold best_per_strategy. split; [|split].
  - cbn [omap list_omap]. destruct (best_of ts "Trend"), (best_of ts "High_Vol"),
      (best_of ts "Low_Vol"); cbn [length app]; lia.
  - apply best_names.
  - intros b Hb. apply list_elem_of_omap in Hb as (s & _ & Hb).
    apply best_of_Some in Hb as (<- & i & k & Hi & Hs & Hstock & Hrank & Hret & _ & Hmin).
    exists k. split; [apply list_elem_of_lookup_2 in Hi; exact Hi|].
    split; [exact Hs|]. split; [exact Hstock|]. split; [exact Hrank|]. split.
    + intros k' Hk' Hs'. apply list_elem_of_lookup_1 in Hk' as [j Hj].
      specialize (Hmin j k' Hj Hs').
      rewrite Heq in Hi, Hj.
      apply ranked_lookup in Hi as [Hi Hri]. apply ranked_lookup in Hj as [Hj Hrj].
      split; [lia|].
      pose proof (sorted_lookup snd _ i j _ _ (sort_desc_sorted snd _) Hmin Hi Hj) as Hsort.
      exact Hsort.
    + assert (Hin : rk_merged k ∈ rk_merged <$> ts).
      { apply list_elem_of_fmap. exists k. split; [reflexivity|].
        apply list_elem_of_lookup_2 in Hi. exact Hi. }
      rewrite Hkept in Hin. apply list_elem_of_filter in Hin as [Hf _].
      apply composite_filter_spec in Hf as (_ & _ & v & Hv & _).
      unfold rk_row in *. rewrite Hret, Hv.
      destruct (fmt_float_reads_back 2 v) as (x & Hx & Hbound).
      exists (fmt_float 2 (Some v)), x, v. split; [reflexivity|]. split; [exact Hx|].
      split; [reflexivity|]. apply tolerance_200, Hbound.
Qed.

Lemma strategy_counts_names (ts : list Ranked) :
  sc_Strategy <$> strategy_counts ts
  = sorted_keys ((λ k, Strategy (rk_row k)) <$> take top_n ts).
Proof.
  unfold strategy_counts. apply list_eq. intros i. rewrite !list_lookup_fmap.
  destruct (sorted_keys _ !! i); reflexivity.
Qed.

(** X19: the bar chart of the ranking page.  The strategies of the first 25
    lines of the ranking, each once, in ascending order; each bar counts
    between 1 and 25 lines, and the bars add up to the number of lines
    shown: 25, or all lines when the ranking is shorter. *)
Theorem strategy_counts_totals (ts : list Ranked) :
  let sc := strategy_counts ts in
  NoDup (sc_Strategy <$> sc)
  ∧ Sorted str_le (sc_Strategy <$> sc)
  ∧ (∀ s, s ∈ sc_Strategy <$> sc ↔ ∃ k, k ∈ take 25 ts ∧ Strategy (rk_row k) = s)
  ∧ (∀ r, r ∈ sc →
       (1 ≤ sc_Ticker r ≤ 25)%nat
       ∧ sc_Ticker r
         = length (filter (λ k, Strategy (rk_row k) = sc_Strategy r) (take 25 ts)))
  ∧ sum_list_with sc_Ticker sc = Nat.min 25 (length ts).
Proof.
  intros sc. subst sc. rewrite strategy_counts_names. unfold top_n.
  set (shown := take 25 ts).
  destruct (sorted_keys_spec ((λ k, Strategy (rk_row k)) <$> shown)) as (Hnd & Hsorted & Hkeys).
  split; [exact Hnd|]. split; [exact Hsorted|]. split; [|split].
  - intros s. rewrite Hkeys, list_elem_of_fmap.
    split; intros (k & H1 & H2); exists k; split; auto.
  - intros r Hr. unfold strategy_counts, top_n in Hr. fold shown in Hr.
    apply list_elem_of_fmap in Hr as (s & -> & Hs). cbn [sc_Ticker sc_Strategy].
    split; [|reflexivity].
    apply Hkeys in Hs. apply list_elem_of_fmap in Hs as (k & Hs & Hk).
    assert (Hg : k ∈ filter (λ k, Strategy (rk_row k) = s) shown).
    { apply list_elem_of_filter. split; [symmetry; exact Hs | exact Hk]. }
    split.
    + destruct (filter (λ k, Strategy (rk_row k) = s) shown); [inversion Hg | cbn [length]; lia].
    + etransitivity; [apply length_filter|]. unfold shown. rewrite length_take. lia.
  - unfold strategy_counts, top_n. fold shown. rewrite sum_list_with_fmap'. cbn [sc_Ticker].
    rewrite (sum_groups_all (λ k, Strategy (rk_row k)) shown _ Hnd).
    + apply length_take.
    + intros k Hk. apply Hkeys. apply list_elem_of_fmap. eauto.
Qed.

(** ** verify_methodology.py *)

(** What the script has computed when it completes. *)
Lemma verify_methodology_Ok (df : Table) (rep : VerifyReport) :
  verify_methodology df = Ok rep →
  let benchmarks := filter (λ r, is_benchmark r = true) (rows df) in
  let strategies := filter (λ r, is_benchmark r = false) (rows df) in
  let manual := manual_row benchmarks <$> strategies in
  let winners := filter (λ m, mr_Manual_Beat_Market m = true) manual in
  let top := add_rank (λ i m, {| rm_Rank := i; rm_row := m |})
               (nlargest 20 (λ m, num (mr_row m) TR) winners) in
  has_columns ["Ticker"; "Strategy"; TR; SR]%string df = true
  ∧ has_columns [MDD] df = true
  ∧ NoDup (Ticker <$> benchmarks)
  ∧ (∀ s, s ∈ three_strategies → filter (λ m, Strategy (mr_row m) = s) manual ≠ [])
  ∧ top ≠ []
  ∧ vr_outperformers rep = winners
  ∧ vr_top20_manual rep = top
  ∧ vr_not_beating rep = filter (λ t, le0 (mr_Manual_Outperf (rm_row t)) = true) top
  ∧ vr_negative_in_top rep = filter (λ t, lt0 (num (mr_row (rm_row t)) TR) = true) top
  ∧ vr_is_sorted rep = is_sorted_desc ((λ t, num (mr_row (rm_row t)) TR) <$> top)
  ∧ ∃ ds, dash_frame df = Ok ds
      ∧ vr_top20_check rep = nlargest 20 dash_return (outperformers ds)
      ∧ vr_same_count rep
        = bool_decide (length (nlargest 20 dash_return (outperformers ds)) = length top)
      ∧ vr_same_top rep
        = match nlargest 20 dash_return (outperformers ds), top with
          | c :: _, m :: _ =>
              Some (bool_decide (combo_label (mr_row (rm_row m)) = combo_label (dr_row c)))
          | _, _ => None
          end.
Proof.
  unfold verify_methodology. cbv zeta.
  destruct (has_columns ["Ticker"; "Strategy"; TR; SR]%string df); cbn [negb]; [|discriminate].
  case_bool_decide as Hnd; cbn [negb]; [|discriminate].
  destruct (filter (λ r, is_benchmark r = false) (rows df)) as [|s0 ss] eqn:Hs; [discriminate|].
  destruct (existsb _ three_strategies) eqn:Hex; [discriminate|].
  destruct (has_columns [MDD] df); cbn [negb]; [|discriminate].
  destruct (dash_frame df) as [ds|e]; [|discriminate].
  destruct (add_rank _ _) as [|t0 ts] eqn:Htop; [discriminate|].
  intros [= <-]. cbn.
  split; [reflexivity|]. split; [reflexivity|]. split; [exact Hnd|]. split.
  { intros s Hs'. apply not_true_iff_false in Hex. intros Hc. apply Hex.
    apply existsb_exists. exists s. split; [apply list_elem_of_In; exact Hs'|].
    apply bool_decide_eq_true_2. exact Hc. }
  split; [discriminate|]. repeat (split; [reflexivity|]).
  exists ds. repeat split; reflexivity.
Qed.

Lemma manual_winner (benchmarks : list Row) (strategies : list Row) (m : ManualRow) :
  m ∈ filter (λ m, mr_Manual_Beat_Market m = true) (manual_row benchmarks <$> strategies) →
  mr_row m ∈ strategies
  ∧ ∃ x b, num (mr_row m) TR = Some x
      ∧ mr_Benchmark_Return m = Some b
      ∧ benchmark_map benchmarks (Ticker (mr_row m)) = Some b
      ∧ (b < x)%Q
      ∧ mr_Manual_Outperf m = Some (x - b)%Q.
Proof.
  intros Hm. apply list_elem_of_filter in Hm as [Hbeat Hm].
  apply list_elem_of_fmap in Hm as (r & -> & Hr).
  cbn in *. split; [exact Hr|].
  apply SeriesFacts.gt1_true in Hbeat as (x & b & Hx & Hb & Hlt).
  exists x, b. rewrite Hx, Hb. repeat split; try reflexivity. exact Hlt.
Qed.

Lemma nlargest_sorted {A} (key : A → option Q) (n : nat) (l : list A) :
  StronglySorted (ranks_before key) (nlargest n key l).
Proof.
  unfold nlargest. pose proof (sort_desc_sorted key l) as Hs.
  rewrite <- (take_drop n (sort_desc key l)) in Hs.
  eapply StronglySorted_app_1_l. exact Hs.
Qed.

Lemma nlargest_subset {A} (key : A → option Q) (n : nat) (l : list A) (x : A) :
  x ∈ nlargest n key l → x ∈ l.
Proof.
  unfold nlargest. intros Hx. apply (subseteq_take n) in Hx.
  rewrite sort_desc_perm in Hx. exact Hx.
Qed.

Lemma is_sorted_desc_sorted {A} (key : A → option Q) (l : list A) :
  StronglySorted (ranks_before key) l → (∀ x, x ∈ l → is_Some (key x)) →
  is_sorted_desc (key <$> l) = true.
Proof.
  induction 1 as [|a l Hs IH Ha]; intros Hsome; [reflexivity|].
  destruct l as [|b l]; [reflexivity|].
  change (is_sorted_desc (key <$> a :: b :: l))
    with (ge1 (key a) (key b) && is_sorted_desc (key <$> b :: l)).
  rewrite IH by (intros x Hx; apply Hsome; right; exact Hx).
  rewrite andb_true_r. apply Forall_cons in Ha as [Hab _].
  unfold ranks_before in Hab.
  destruct (Hsome a ltac:(left)) as [x Hx]. destruct (Hsome b ltac:(right; left)) as [y Hy].
  rewrite Hx, Hy in Hab |- *. exact Hab.
Qed.

Lemma rm_row_add_rank (l : list ManualRow) :
  rm_row <$> add_rank (λ i m, {| rm_Rank := i; rm_row := m |}) l = l.
Proof.
  apply list_eq. intros i. rewrite list_lookup_fmap, add_rank_lookup.
  destruct (l !! i); reflexivity.
Qed.

(** X20: the sanity checks of the verification script cannot fail.  When the
    script runs to its end, the check "all top 20 beat their benchmark"
    finds no offending line and the check "rankings properly sorted" holds:
    every line of the manual top 20 is a strategy row of the table whose
    total return exceeds the return of its ticker's Benchmark row, with a
    positive outperformance; the lines carry the ranks 1, 2, ... and there
    are between 1 and 20 of them.  A negative return in the top 20 (the
    warning of check 1) is possible and is reported exactly when a line has
    a total return below zero. *)
Theorem verify_sanity_checks_pass (df : Table) (rep : VerifyReport) :
  verify_methodology df = Ok rep →
  vr_not_beating rep = []
  ∧ vr_is_sorted rep = true
  ∧ (1 ≤ length (vr_top20_manual rep) ≤ 20)%nat
  ∧ length (vr_top20_manual rep) = Nat.min 20 (length (vr_outperformers rep))
  ∧ (∀ i t, vr_top20_manual rep !! i = Some t → rm_Rank t = S i)
  ∧ (∀ t, t ∈ vr_top20_manual rep →
       mr_row (rm_row t) ∈ rows df
       ∧ is_benchmark (mr_row (rm_row t)) = false
       ∧ ∃ x b, num (mr_row (rm_row t)) TR = Some x
           ∧ mr_Benchmark_Return (rm_row t) = Some b ∧ (b < x)%Q
           ∧ (∃ bench, bench ∈ rows df ∧ is_benchmark bench = true
                ∧ Ticker bench = Ticker (mr_row (rm_row t)) ∧ num bench TR = Some b)
           ∧ mr_Manual_Outperf (rm_row t) = Some (x - b)%Q)
  ∧ (∀ t, t ∈ vr_negative_in_top rep ↔
       t ∈ vr_top20_manual rep ∧ ∃ x, num (mr_row (rm_row t)) TR = Some x ∧ (x < 0)%Q).
Proof.
  intros Hrep. apply verify_methodology_Ok in Hrep. cbv zeta in Hrep.
  set (benchmarks := filter (λ r, is_benchmark r = true) (rows df)) in *.
  set (strategies := filter (λ r, is_benchmark r = false) (rows df)) in *.
  set (winners := filter (λ m, mr_Manual_Beat_Market m = true)
                    (manual_row benchmarks <$> strategies)) in *.
  set (picked := nlargest 20 (λ m, num (mr_row m) TR) winners) in *.
  destruct Hrep as (_ & _ & _ & _ & Hne & Hout & Htop & Hnb & Hneg & Hsorted & _).
  rewrite Htop, Hnb, Hneg, Hsorted, Hout. clear Htop Hnb Hneg Hsorted Hout rep.
  assert (Hin : ∀ t, t ∈ add_rank (λ i m, {| rm_Rank := i; rm_row := m |}) picked →
                     rm_row t ∈ winners).
  { intros t Ht. apply (nlargest_subset (λ m, num (mr_row m) TR) 20). fold picked.
    assert (rm_row t ∈ rm_row <$> add_rank (λ i m, {| rm_Rank := i; rm_row := m |}) picked)
      as Hc by (apply list_elem_of_fmap; eauto).
    rewrite rm_row_add_rank in Hc. exact Hc. }
  assert (Hlen : length (add_rank (λ i m, {| rm_Rank := i; rm_row := m |}) picked)
                 = Nat.min 20 (length winners)).
  { rewrite <- (length_fmap rm_row), rm_row_add_rank. unfold picked.
    apply (nlargest_spec (λ m, num (mr_row m) TR) 20 winners). }
  split; [|split; [|split; [|split; [exact Hlen|split; [|split]]]]].
  - apply elem_of_nil_inv. intros t Ht. apply list_elem_of_filter in Ht as [Hle Ht].
    apply Hin, manual_winner in Ht as (_ & x & b & _ & _ & _ & Hlt & Ho).
    rewrite Ho in Hle. unfold le0 in Hle.
    destruct (Qlt_le_dec 0 (x - b)) as [_|Hc]; [discriminate | lra].
  - replace ((λ t, num (mr_row (rm_row t)) TR) <$> add_rank _ picked)
      with ((λ m, num (mr_row m) TR) <$> picked).
    + apply is_sorted_desc_sorted; [apply nlargest_sorted|].
      intros m Hm. apply nlargest_subset, manual_winner in Hm as (_ & x & _ & Hx & _).
      eauto.
    + rewrite <- (rm_row_add_rank picked) at 1. rewrite <- list_fmap_compose. reflexivity.
  - split; [|rewrite Hlen; lia].
    destruct (add_rank _ picked); [congruence | cbn [length]; lia].
  - intros i t Hi. rewrite add_rank_lookup in Hi.
    destruct (picked !! i); [|discriminate]. injection Hi as <-. reflexivity.
  - intros t Ht. apply Hin, manual_winner in Ht as (Hr & x & b & Hx & Hb & Hmap & Hlt & Ho).
    apply list_elem_of_filter in Hr as [Hnb Hr].
    split; [exact Hr|]. split; [exact Hnb|].
    exists x, b. split; [exact Hx|]. split; [exact Hb|]. split; [exact Hlt|].
    split; [|exact Ho].
    unfold benchmark_map in Hmap.
    destruct (filter _ benchmarks) as [|bench rest] eqn:Hf; [discriminate|].
    assert (bench ∈ filter (λ b, Ticker b = Ticker (mr_row (rm_row t))) benchmarks) as Hbe
      by (rewrite Hf; left).
    apply list_elem_of_filter in Hbe as [Ht Hbe].
    apply list_elem_of_filter in Hbe as [Hisb Hbe]. exists bench. auto.
  - intros t. rewrite list_elem_of_filter. unfold lt0. rewrite SeriesFacts.gt1_true. split.
    + intros [(z & x & [= <-] & Hx & Hlt) Ht]. eauto.
    + intros [Ht (x & Hx & Hlt)]. split; [|exact Ht]. exists 0%Q, x. auto.
Qed.

Lemma filter_ext_elem {A} (P Q : A → Prop) `{!∀ x, Decision (P x)} `{!∀ x, Decision (Q x)}
    (l : list A) :
  (∀ x, x ∈ l → (P x ↔ Q x)) → filter P l = filter Q l.
Proof.
  induction l as [|x l IH]; intros Hext; [reflexivity|]. rewrite !filter_cons.
  rewrite IH by (intros y Hy; apply Hext; right; exact Hy).
  destruct (decide (P x)) as [Hp|Hp], (decide (Q x)) as [Hq|Hq]; try reflexivity.
  - exfalso. apply Hq, (Hext x ltac:(left)), Hp.
  - exfalso. apply Hp, (Hext x ltac:(left)), Hq.
Qed.

Lemma NoDup_fmap_filter {A B} (f : A → B) (P : A → Prop) `{!∀ x, Decision (P x)}
    (l : list A) :
  NoDup (f <$> l) → NoDup (f <$> filter P l).
Proof.
  induction l as [|x l IH]; [intros _; constructor|].
  cbn [fmap list_fmap]. rewrite NoDup_cons. intros [Hx Hnd]. rewrite filter_cons.
  destruct (decide (P x)); [|apply IH, Hnd].
  cbn [fmap list_fmap]. apply NoDup_cons. split; [|apply IH, Hnd].
  intros Hc. apply Hx. apply list_elem_of_fmap in Hc as (y & Hy & Hin).
  apply list_elem_of_filter in Hin as [_ Hin]. apply list_elem_of_fmap. eauto.
Qed.

(** At most one row per ticker in a benchmark list without repeats. *)
Lemma filter_ticker_unique (bench : list Row) (t : string) :
  NoDup (Ticker <$> bench) →
  filter (λ b, Ticker b = t) bench = []
  ∨ ∃ b, filter (λ b, Ticker b = t) bench = [b].
Proof.
  induction bench as [|b bench IH]; [left; reflexivity|].
  cbn [fmap list_fmap]. rewrite NoDup_cons. intros [Hb Hnd]. rewrite filter_cons.
  destruct (decide (Ticker b = t)) as [Ht|Ht]; [|apply IH, Hnd].
  right. exists b. f_equal. apply elem_of_nil_inv. intros b' Hb'.
  apply list_elem_of_filter in Hb' as [Ht' Hb']. apply Hb.
  apply list_elem_of_fmap. exists b'. split; [congruence | exact Hb'].
Qed.

Lemma apply_rows_total {A B} (f : A → result B) (l : list A) :
  (∀ x, x ∈ l → ∃ y, f x = Ok y) → ∃ ys, apply_rows f l = Ok ys.
Proof.
  induction l as [|x l IH]; intros Hall; [exists []; reflexivity|].
  cbn [apply_rows]. destruct (Hall x ltac:(left)) as [y ->].
  destruct IH as [ys ->]; [intros z Hz; apply Hall; right; exact Hz|]. eauto.
Qed.

(** The frame of the dashboard exists when the table has the columns and
    no ticker has two Benchmark rows. *)
Lemma dash_frame_total (df : Table) :
  has_columns ["Ticker"; "Strategy"; TR; SR]%string df = true →
  NoDup (Ticker <$> filter (λ r, is_benchmark r = true) (rows df)) →
  ∃ ds, dash_frame df = Ok ds.
Proof.
  intros Hcols Hnd. unfold dash_frame. rewrite Hcols. cbn [negb].
  apply apply_rows_total. intros r _. unfold add_beat_market.
  destruct (is_benchmark r); [eauto|].
  assert (Hnd' : NoDup (Ticker <$> filter (λ r, is_benchmark r = true)
                                     (dropna_subset (rows df)))).
  { unfold dropna_subset. rewrite list_filter_filter.
    rewrite (list_filter_iff _ (λ r, (is_Some (num r TR) ∧ is_Some (num r SR))
                                      ∧ is_benchmark r = true)) by (intros; tauto).
    rewrite <- list_filter_filter. apply NoDup_fmap_filter, Hnd. }
  unfold benchmark_get.
  destruct (filter_ticker_unique _ (Ticker r) Hnd') as [->|[b Hb]]; [eauto|].
  rewrite Hb.
  assert (b ∈ filter (λ b, Ticker b = Ticker r)
                (filter (λ r, is_benchmark r = true) (dropna_subset (rows df)))) as Hin
    by (rewrite Hb; left).
  apply list_elem_of_filter in Hin as [_ Hin]. apply list_elem_of_filter in Hin as [_ Hin].
  apply dropna_subset_spec in Hin as (_ & [x ->] & _). eauto.
Qed.

Lemma add_rank_nil {A B} (mk : nat → A → B) (l : list A) : add_rank mk l = [] ↔ l = [].
Proof.
  unfold add_rank. split; [|intros ->; reflexivity].
  intros H. apply (f_equal length) in H. rewrite length_imap in H.
  apply nil_length_inv, H.
Qed.

(** X21: when the verification script divides by zero.  On a table with the
    five columns it reads, a complete row, and no ticker with two Benchmark
    rows, the script runs to its end unless it stops with a
    ZeroDivisionError, and it stops exactly when one of the strategies
    Trend, High_Vol, Low_Vol has no row at all or when no strategy row has
    a total return above its benchmark return. *)
Theorem verify_methodology_stops (df : Table) :
  has_columns ["Ticker"; "Strategy"; TR; SR]%string df = true →
  has_columns [MDD] df = true →
  NoDup (Ticker <$> filter (λ r, is_benchmark r = true) (rows df)) →
  dropna_subset (rows df) ≠ [] →
  let benchmarks := filter (λ r, is_benchmark r = true) (rows df) in
  let strategies := filter (λ r, is_benchmark r = false) (rows df) in
  let winners := filter (λ m, mr_Manual_Beat_Market m = true)
                   (manual_row benchmarks <$> strategies) in
  (verify_methodology df = Raised "ZeroDivisionError"
     ↔ (∃ s, s ∈ three_strategies ∧ ∀ r, r ∈ strategies → Strategy r ≠ s)
       ∨ winners = [])
  ∧ (∀ e, verify_methodology df = Raised e → e = "ZeroDivisionError"%string)
  ∧ ((∀ s, s ∈ three_strategies → ∃ r, r ∈ strategies ∧ Strategy r = s) →
     winners ≠ [] → ∃ rep, verify_methodology df = Ok rep).
Proof.
  intros Hcols Hmdd Hnd _. cbv zeta.
  destruct (dash_frame_total df Hcols Hnd) as [ds Hds].
  set (benchmarks := filter (λ r, is_benchmark r = true) (rows df)) in *.
  set (strategies := filter (λ r, is_benchmark r = false) (rows df)).
  set (manual := manual_row benchmarks <$> strategies).
  set (winners := filter (λ m, mr_Manual_Beat_Market m = true) manual).
  assert (Hgroup : ∀ s, filter (λ m, Strategy (mr_row m) = s) manual = []
                        ↔ ∀ r, r ∈ strategies → Strategy r ≠ s).
  { intros s. split.
    - intros Hf r Hr Hs.
      assert (manual_row benchmarks r ∈ filter (λ m, Strategy (mr_row m) = s) manual) as Hc.
      { apply list_elem_of_filter. split; [exact Hs|]. apply list_elem_of_fmap. eauto. }
      rewrite Hf in Hc. inversion Hc.
    - intros Hall. apply elem_of_nil_inv. intros m Hm.
      apply list_elem_of_filter in Hm as [Hs Hm].
      apply list_elem_of_fmap in Hm as (r & -> & Hr). exact (Hall r Hr Hs). }
  assert (Hex : existsb (λ s, bool_decide (filter (λ m, Strategy (mr_row m) = s) manual = []))
                  three_strategies = true
                ↔ ∃ s, s ∈ three_strategies ∧ ∀ r, r ∈ strategies → Strategy r ≠ s).
  { rewrite existsb_exists. split.
    - intros (s & Hs & Hb). exists s. split; [apply list_elem_of_In; exact Hs|].
      apply Hgroup. apply bool_decide_eq_true_1 in Hb. exact Hb.
    - intros (s & Hs & Hall). exists s. split; [apply list_elem_of_In; exact Hs|].
      apply bool_decide_eq_true_2, Hgroup, Hall. }
  assert (Htopnil : add_rank (λ i m, {| rm_Rank := i; rm_row := m |})
                      (nlargest 20 (λ m, num (mr_row m) TR) winners) = []
                    ↔ winners = []).
  { rewrite add_rank_nil. apply nlargest_nil. lia. }
  unfold verify_methodology. rewrite Hcols, Hmdd, Hds. cbn [negb].
  rewrite bool_decide_eq_true_2 by exact Hnd. cbn [negb].
  fold benchmarks strategies manual winners.
  destruct strategies as [|s0 ss] eqn:Hstrat.
  { split; [|split].
    - split; [|reflexivity]. intros _. left. exists "Trend"%string.
      split; [left|]. intros r Hr. inversion Hr.
    - intros e [= <-]. reflexivity.
    - intros Hall _. destruct (Hall "Trend"%string ltac:(left)) as (r & Hr & _). inversion Hr. }
  destruct (existsb _ three_strategies) eqn:Hexb.
  { split; [|split].
    - split; [|reflexivity]. intros _. left. apply Hex. reflexivity.
    - intros e [= <-]. reflexivity.
    - intros Hall _. exfalso. destruct (proj1 Hex eq_refl) as (s & Hs & Hno).
      destruct (Hall s Hs) as (r & Hr & Hrs). exact (Hno r Hr Hrs). }
  destruct (add_rank _ _) as [|t0 ts] eqn:Htop.
  { split; [|split].
    - split; [|reflexivity]. intros _. right. apply Htopnil. reflexivity.
    - intros e [= <-]. reflexivity.
    - intros _ Hw. exfalso. apply Hw, Htopnil. reflexivity. }
  split; [|split].
  - split; [discriminate|]. intros [Hs|Hw].
    + apply Hex in Hs. congruence.
    + apply Htopnil in Hw. discriminate Hw.
  - discriminate.
  - intros _ _. eauto.
Qed.

Lemma dash_top_rows (df : Table) (ds : list DashRow) :
  dash_frame df = Ok ds →
  let rs := dropna_subset (rows df) in
  let bench := filter (λ r, is_benchmark r = true) rs in
  dr_row <$> nlargest 20 dash_return (outperformers ds)
  = nlargest 20 (λ r, num r TR) (filter (λ r, qualifies bench r = true) rs).
Proof.
  intros Hds. apply dash_frame_Ok in Hds as [_ Hall]. cbv zeta in *.
  unfold nlargest. rewrite fmap_take.
  change dash_return with ((λ r, num r TR) ∘ dr_row).
  rewrite fmap_sort_desc, (outperformers_rows _ _ _ Hall). reflexivity.
Qed.

Lemma manual_top_rows (benchmarks strategies : list Row) :
  mr_row <$> nlargest 20 (λ m, num (mr_row m) TR)
               (filter (λ m, mr_Manual_Beat_Market m = true)
                  (manual_row benchmarks <$> strategies))
  = nlargest 20 (λ r, num r TR)
      (filter (λ r, Series.gt1 (num r TR) (benchmark_map benchmarks (Ticker r)) = true)
         strategies).
Proof.
  unfold nlargest. rewrite fmap_take.
  change (λ m, num (mr_row m) TR) with ((λ r, num r TR) ∘ mr_row).
  rewrite fmap_sort_desc. do 2 f_equal.
  induction strategies as [|r rs IH]; [reflexivity|].
  cbn [fmap list_fmap]. rewrite !filter_cons. cbn [manual_row mr_Manual_Beat_Market].
  destruct (decide (Series.gt1 (num r TR) (benchmark_map benchmarks (Ticker r)) = true));
    cbn [fmap list_fmap mr_row]; rewrite IH; reflexivity.
Qed.

(** X22: the verification script agrees with the dashboard on a complete
    table.  When the script runs to its end on a table in which every row
    has a total return and a Sharpe ratio and every strategy row has a
    Benchmark row for its ticker, its manual top 20 and the top 20 of the
    dashboard logic are the same rows in the same order, so the comparison
    of section 8 reports the same count and the same first performer. *)
Theorem verify_agrees_with_dashboard (df : Table) (rep : VerifyReport) :
  verify_methodology df = Ok rep →
  (∀ r, r ∈ rows df → is_Some (num r TR) ∧ is_Some (num r SR)) →
  (∀ r, r ∈ rows df → is_benchmark r = false →
     ∃ b, b ∈ rows df ∧ is_benchmark b = true ∧ Ticker b = Ticker r) →
  dr_row <$> vr_top20_check rep = (λ t, mr_row (rm_row t)) <$> vr_top20_manual rep
  ∧ vr_same_count rep = true
  ∧ vr_same_top rep = Some true.
Proof.
  intros Hrep Hcomplete Hbench. apply verify_methodology_Ok in Hrep. cbv zeta in Hrep.
  set (benchmarks := filter (λ r, is_benchmark r = true) (rows df)) in *.
  set (strategies := filter (λ r, is_benchmark r = false) (rows df)) in *.
  set (winners := filter (λ m, mr_Manual_Beat_Market m = true)
                    (manual_row benchmarks <$> strategies)) in *.
  set (picked := nlargest 20 (λ m, num (mr_row m) TR) winners) in *.
  destruct Hrep as (_ & _ & Hnd & _ & Hne & _ & Htop & _ & _ & _ & ds & Hds & Hcheck & Hcount & Hsame).
  assert (Hclean : dropna_subset (rows df) = rows df).
  { unfold dropna_subset. apply filter_all, Forall_forall. exact Hcomplete. }
  assert (Hrows : dr_row <$> nlargest 20 dash_return (outperformers ds) = mr_row <$> picked).
  { rewrite (dash_top_rows df ds Hds). cbv zeta. rewrite Hclean. fold benchmarks.
    unfold picked, winners. rewrite manual_top_rows. f_equal.
    unfold strategies. rewrite list_filter_filter. apply filter_ext_elem.
    intros r Hr. unfold qualifies. rewrite andb_true_iff, negb_true_iff.
    split.
    - intros [Hnb Hq]. split; [|exact Hnb].
      destruct (Hbench r Hr Hnb) as (b & Hb & Hisb & Ht).
      unfold benchmark_get in Hq. unfold benchmark_map.
      destruct (filter_ticker_unique benchmarks (Ticker r) Hnd) as [Hf|[b' Hf]];
        rewrite Hf in Hq |- *.
      + exfalso. assert (b ∈ filter (λ b, Ticker b = Ticker r) benchmarks) as Hc.
        { apply list_elem_of_filter. split; [exact Ht|].
          apply list_elem_of_filter. split; assumption. }
        rewrite Hf in Hc. inversion Hc.
      + destruct (num b' TR); [exact Hq | discriminate Hq].
    - intros [Hgt Hnb]. split; [exact Hnb|].
      unfold benchmark_get. unfold benchmark_map in Hgt.
      destruct (filter_ticker_unique benchmarks (Ticker r) Hnd) as [Hf|[b' Hf]];
        rewrite Hf in Hgt |- *.
      + apply SeriesFacts.gt1_true in Hgt as (? & ? & _ & Hc & _). discriminate Hc.
      + destruct (num b' TR) as [y|] eqn:Hy; [exact Hgt|].
        apply SeriesFacts.gt1_true in Hgt as (? & ? & _ & Hc & _). discriminate Hc. }
  assert (Hmanual : (λ t, mr_row (rm_row t)) <$> vr_top20_manual rep = mr_row <$> picked).
  { rewrite Htop. rewrite <- (rm_row_add_rank picked) at 2.
    rewrite <- list_fmap_compose. reflexivity. }
  split; [|split].
  - rewrite Hcheck, Hmanual. exact Hrows.
  - rewrite Hcount. apply bool_decide_eq_true_2.
    apply (f_equal length) in Hrows. rewrite !length_fmap in Hrows. rewrite Hrows.
    rewrite <- (length_fmap rm_row), rm_row_add_rank. reflexivity.
  - rewrite Hsame.
    destruct (add_rank (λ i m, {| rm_Rank := i; rm_row := m |}) picked) as [|m ms] eqn:Hm;
      [congruence|].
    assert (Hpm : mr_row <$> picked = mr_row (rm_row m) :: (mr_row <$> (rm_row <$> ms))).
    { rewrite <- (rm_row_add_rank picked), Hm. reflexivity. }
    rewrite Hpm in Hrows.
    destruct (nlargest 20 dash_return (outperformers ds)) as [|c cs]; [discriminate Hrows|].
    injection Hrows as Hc _. rewrite Hc. rewrite bool_decide_eq_true_2 by reflexivity.
    reflexivity.
Qed.

(** ** The reports, the dashboards and the verification script on explicit inputs *)

Lemma trade_block_rates_input_1 :
  let pf := Samples.mixed_log in
  let t := Samples.mixed_trades in
  pf_trades pf = Some (Some t).
Proof. cbv zeta. reflexivity. Qed.

Lemma trade_block_rates_input_2 :
  let t := Samples.mixed_trades in
  tf_rows t ≠ [].
Proof. cbv zeta. discriminate. Qed.

Lemma trade_block_rates_input_3 :
  let pf := Samples.mixed_log in
  let s := Samples.mixed_stats in
  trade_block pf = Some s.
Proof. cbv zeta. vm_compute. reflexivity. Qed.

Lemma trade_block_rates_witness :
  let pf := Samples.mixed_log in
  let t := Samples.mixed_trades in
  let s := Samples.mixed_stats in
  pf_trades pf = Some (Some t)
  ∧ tf_rows t ≠ []
  ∧ trade_block pf = Some s
  ∧ (let rows := tf_rows t in
  let wins := filter (λ r, Qpos (PnL r) = true) rows in
  let losses := filter (λ r, Qneg (PnL r) = true) rows in
  (∀ r, r ∈ wins ↔ r ∈ rows ∧ (0 < PnL r)%Q)
  ∧ (∀ r, r ∈ losses ↔ r ∈ rows ∧ (PnL r < 0)%Q)
  ∧ (length wins + length losses ≤ length rows)%nat
  ∧ ts_total_trades s = Some (inject_Z (Z.of_nat (length rows)))
  ∧ (∃ w, ts_win_rate s = Some w ∧ (0 <= w <= 100)%Q
          ∧ (w * inject_Z (Z.of_nat (length rows))
             == 100 * inject_Z (Z.of_nat (length wins)))%Q)
  ∧ (ts_profit_factor s = None ↔ losses = [])
  ∧ (∀ f, ts_profit_factor s = Some f →
       (0 <= f)%Q
       ∧ (f * - Qsum (PnL <$> losses) == Qsum (PnL <$> wins))%Q
       ∧ ((f == 0)%Q ↔ wins = []))).
Proof.
  intros pf t s.
  split; [exact trade_block_rates_input_1|].
  split; [exact trade_block_rates_input_2|].
  split; [exact trade_block_rates_input_3|].
  exact (trade_block_rates pf t s trade_block_rates_input_1 trade_block_rates_input_2
           trade_block_rates_input_3).
Defined.

Lemma trade_block_returns_input_1 :
  let pf := Samples.mixed_log in
  let t := Samples.mixed_trades in
  pf_trades pf = Some (Some t).
Proof. cbv zeta. reflexivity. Qed.

Lemma trade_block_returns_input_2 :
  let t := Samples.mixed_trades in
  tf_rows t ≠ [].
Proof. cbv zeta. discriminate. Qed.

Lemma trade_block_returns_input_3 :
  let pf := Samples.mixed_log in
  let s := Samples.mixed_stats in
  trade_block pf = Some s.
Proof. cbv zeta. vm_compute. reflexivity. Qed.

Lemma trade_block_returns_witness :
  let pf := Samples.mixed_log in
  let t := Samples.mixed_trades in
  let s := Samples.mixed_stats in
  pf_trades pf = Some (Some t)
  ∧ tf_rows t ≠ []
  ∧ trade_block pf = Some s
  ∧ (let rows := tf_rows t in
  let wins := filter (λ r, Qpos (PnL r) = true) rows in
  let losses := filter (λ r, Qneg (PnL r) = true) rows in
  (has_column t "Return" = false →
     ts_best_return s = None ∧ ts_worst_return s = None
     ∧ ts_avg_winning_trade s = None ∧ ts_avg_losing_trade s = None)
  ∧ (has_column t "Return" = true →
       ∃ b w, ts_best_return s = Some b ∧ ts_worst_return s = Some w
         ∧ (∃ r, r ∈ rows ∧ b = (Return r * 100)%Q)
         ∧ (∃ r, r ∈ rows ∧ w = (Return r * 100)%Q)
         ∧ (∀ r, r ∈ rows → (w <= Return r * 100 <= b)%Q)
         ∧ (ts_avg_winning_trade s = None ↔ wins = [])
         ∧ (ts_avg_losing_trade s = None ↔ losses = [])
         ∧ (∀ a, ts_avg_winning_trade s = Some a →
              (a == Qmean (Return <$> wins) * 100)%Q ∧ (w <= a <= b)%Q)
         ∧ (∀ a, ts_avg_losing_trade s = Some a →
              (a == Qmean (Return <$> losses) * 100)%Q ∧ (w <= a <= b)%Q))).
Proof.
  intros pf t s.
  split; [exact trade_block_returns_input_1|].
  split; [exact trade_block_returns_input_2|].
  split; [exact trade_block_returns_input_3|].
  exact (trade_block_returns pf t s trade_block_returns_input_1
           trade_block_returns_input_2 trade_block_returns_input_3).
Defined.

Lemma align_weekly_to_daily_spec_input_1 :
  let widx := Samples.two_weeks in
  StronglySorted Z.lt widx.
Proof. cbv zeta. repeat (constructor; try lia). Qed.

Lemma align_weekly_to_daily_spec_input_2 :
  let daily_index := Samples.three_days in
  StronglySorted Z.lt daily_index.
Proof. cbv zeta. repeat (constructor; try lia). Qed.

Lemma align_weekly_to_daily_spec_input_3 :
  let widx := Samples.two_weeks in
  let series := [Some 10000; Some 10196]%Q : Series.t Q in
  length series = length widx.
Proof. cbv zeta. reflexivity. Qed.

Lemma align_weekly_to_daily_spec_input_4 :
  let daily_index := Samples.three_days in
  let start := 738165 in
  start ∈ daily_index.
Proof. cbv zeta. right; left. Qed.

Lemma align_weekly_to_daily_spec_witness :
  let widx := Samples.two_weeks in
  let series := [Some 10000; Some 10196]%Q : Series.t Q in
  let daily_index := Samples.three_days in
  let start := 738165 in
  StronglySorted Z.lt widx
  ∧ StronglySorted Z.lt daily_index
  ∧ length series = length widx
  ∧ start ∈ daily_index
  ∧ (let idx := (align_weekly_to_daily widx series daily_index start).1 in
  let vals := (align_weekly_to_daily widx series daily_index start).2 in
  idx = filter (λ d, start ≤ d) daily_index
  ∧ head idx = Some start
  ∧ length vals = length idx
  ∧ ∀ i d, idx !! i = Some d →
      (∀ j k v, widx !! j = Some k → series !! j = Some v → k ≤ d →
         (∀ k', k' ∈ widx → k' ≤ d → k' ≤ k) → vals !! i = Some v)
      ∧ ((∀ k, k ∈ widx → d < k) → vals !! i = Some None)).
Proof.
  intros widx series daily_index start.
  split; [exact align_weekly_to_daily_spec_input_1|].
  split; [exact align_weekly_to_daily_spec_input_2|].
  split; [exact align_weekly_to_daily_spec_input_3|].
  split; [exact align_weekly_to_daily_spec_input_4|].
  exact (align_weekly_to_daily_spec widx series daily_index start
           align_weekly_to_daily_spec_input_1 align_weekly_to_daily_spec_input_2
           align_weekly_to_daily_spec_input_3 align_weekly_to_daily_spec_input_4).
Defined.

Lemma weekly_filter_no_lookahead_input_1 :
  let widx := Samples.two_weeks in
  StronglySorted Z.lt widx.
Proof. cbv zeta. repeat (constructor; try lia). Qed.

Lemma weekly_filter_no_lookahead_input_2 :
  let widx := Samples.two_weeks in
  let weekly_supertrend_dir := [Some 1; Some (-1)] : Series.t Z in
  length weekly_supertrend_dir = length widx.
Proof. cbv zeta. reflexivity. Qed.

Lemma weekly_filter_no_lookahead_input_3 :
  let didx := Samples.three_days in
  let i := 2%nat in
  let d := 738172 in
  didx !! i = Some d.
Proof. cbv zeta. reflexivity. Qed.

Lemma weekly_filter_no_lookahead_witness :
  let fast := [Some 1; Some 3; Some 1]%Q : Series.t Q in
  let slow := [Some 2; Some 2; Some 2]%Q : Series.t Q in
  let widx := Samples.two_weeks in
  let didx := Samples.three_days in
  let weekly_supertrend_dir := [Some 1; Some (-1)] : Series.t Z in
  let i := 2%nat in
  let d := 738172 in
  StronglySorted Z.lt widx
  ∧ length weekly_supertrend_dir = length widx
  ∧ didx !! i = Some d
  ∧ (let sd := st_daily widx weekly_supertrend_dir didx in
  let sg := daily_volatility_signals fast slow widx weekly_supertrend_dir didx in
  (∀ j k v, widx !! j = Some k → weekly_supertrend_dir !! j = Some v → k ≤ d →
     (∀ k', k' ∈ widx → k' ≤ d → k' ≤ k) → sd !! i = Some (default 0 v))
  ∧ ((∀ k, k ∈ widx → d < k) →
       sd !! i = Some 0
       ∧ hv_entries sg !! i ≠ Some true ∧ lv_entries sg !! i ≠ Some true)
  ∧ (hv_entries sg !! i = Some true ∨ lv_entries sg !! i = Some true →
       ∃ j k, widx !! j = Some k ∧ k ≤ d
         ∧ (∀ k', k' ∈ widx → k' ≤ d → k' ≤ k)
         ∧ weekly_supertrend_dir !! j = Some (Some (-1)))).
Proof.
  intros fast slow widx didx weekly_supertrend_dir i d.
  split; [exact weekly_filter_no_lookahead_input_1|].
  split; [exact weekly_filter_no_lookahead_input_2|].
  split; [exact weekly_filter_no_lookahead_input_3|].
  exact (weekly_filter_no_lookahead fast slow widx didx weekly_supertrend_dir i d
           weekly_filter_no_lookahead_input_1 weekly_filter_no_lookahead_input_2
           weekly_filter_no_lookahead_input_3).
Defined.

Lemma download_weekly_well_formed_input_1 :
  let yf_download := Examples.provider in
  let ticker := "NVDA"%string in
  let weekly := Examples.nvda_weekly in
  download_weekly yf_download ticker = Some weekly.
Proof. cbv zeta. vm_compute. reflexivity. Qed.

Lemma download_weekly_well_formed_witness :
  let yf_download := Examples.provider in
  let ticker := "NVDA"%string in
  let weekly := Examples.nvda_weekly in
  download_weekly yf_download ticker = Some weekly
  ∧ (let bs := bars (rename_title (yf_download ticker)) in
  StronglySorted Z.lt (b_date <$> weekly)
  ∧ NoDup (b_date <$> weekly)
  ∧ (∀ w, w ∈ weekly → b_date w mod 7 = 0)
  ∧ ((∀ b, b ∈ bs → ohlc_consistent b) →
       (∀ w, w ∈ weekly → ohlc_consistent w)
       ∧ ∀ b, b ∈ bs → ∃ w, w ∈ weekly ∧ b_date w - 6 ≤ b_date b ≤ b_date w)).
Proof.
  intros yf_download ticker weekly.
  split; [exact download_weekly_well_formed_input_1|].
  exact (download_weekly_well_formed yf_download ticker weekly
           download_weekly_well_formed_input_1).
Defined.

Lemma download_weekly_ignores_case_input_1 :
  let yf1 := λ _ : string, Examples.small_frame in
  let yf2 := λ _ : string, Samples.upper_frame in
  let ticker := "ARM"%string in
  df_index (yf1 ticker) = df_index (yf2 ticker).
Proof. cbv zeta. reflexivity. Qed.

Lemma download_weekly_ignores_case_input_2 :
  let yf1 := λ _ : string, Examples.small_frame in
  let yf2 := λ _ : string, Samples.upper_frame in
  let ticker := "ARM"%string in
  df_data (yf1 ticker) = df_data (yf2 ticker).
Proof. cbv zeta. reflexivity. Qed.

Lemma download_weekly_ignores_case_input_3 :
  let yf1 := λ _ : string, Examples.small_frame in
  let yf2 := λ _ : string, Samples.upper_frame in
  let ticker := "ARM"%string in
  lower <$> df_columns (yf1 ticker) = lower <$> df_columns (yf2 ticker).
Proof. cbv zeta. reflexivity. Qed.

Lemma download_weekly_ignores_case_witness :
  let yf1 := λ _ : string, Examples.small_frame in
  let yf2 := λ _ : string, Samples.upper_frame in
  let ticker := "ARM"%string in
  df_index (yf1 ticker) = df_index (yf2 ticker)
  ∧ df_data (yf1 ticker) = df_data (yf2 ticker)
  ∧ lower <$> df_columns (yf1 ticker) = lower <$> df_columns (yf2 ticker)
  ∧ ((∀ s1 s2, lower s1 = lower s2 → title s1 = title s2)
  ∧ download_weekly yf1 ticker = download_weekly yf2 ticker).
Proof.
  intros yf1 yf2 ticker.
  split; [exact download_weekly_ignores_case_input_1|].
  split; [exact download_weekly_ignores_case_input_2|].
  split; [exact download_weekly_ignores_case_input_3|].
  exact (download_weekly_ignores_case yf1 yf2 ticker download_weekly_ignores_case_input_1
           download_weekly_ignores_case_input_2 download_weekly_ignores_case_input_3).
Defined.

Lemma summary_rows_order_witness :
  let yf_download := Examples.provider in
  let tickers := TICKERS in
  let rs := Examples.rows0 in
  @strategy_backtest ref_indicators ref_stats yf_download tickers = Ok rs
  ∧ (let kept := filter (λ T, @has_results ref_indicators ref_stats yf_download T = true) tickers in
  length rs = (4 * length kept)%nat
  ∧ Ticker <$> rs = kept ≫= (λ T, [T; T; T; T])
  ∧ Strategy <$> rs = kept ≫= (λ _, STRATEGY_ORDER)
  ∧ ∀ i r, rs !! i = Some r →
      kept !! (i / 4)%nat = Some (Ticker r)
      ∧ STRATEGY_ORDER !! (i mod 4)%nat = Some (Strategy r)).
Proof.
  intros yf_download tickers rs.
  split; [exact run_backtest_rows0|].
  exact (@summary_rows_order ref_indicators ref_stats yf_download tickers rs run_backtest_rows0).
Defined.

Lemma pipeline_table_stops_composite_ranking_input_1 :
  (∀ kw idx vals trades m k,
     @vbt_stats ref_stats kw idx vals trades METRICS = Some m →
     is_Some (m !! k) → k ∈ METRIC_TITLES).
Proof.
  intros kw idx vals trades m k [= <-] [v Hv].
  apply lookup_singleton_Some in Hv as [<- _]. left.
Qed.

Lemma pipeline_table_stops_composite_ranking_input_3 :
  let rs := Examples.rows0 in
  rs ≠ [].
Proof. cbv zeta. intros H. apply (f_equal length) in H. vm_compute in H. discriminate H. Qed.

Lemma pipeline_table_stops_composite_ranking_input_4 :
  let rs := Examples.rows0 in
  let df := Samples.run_table in
  rows df = rs.
Proof. cbv zeta. reflexivity. Qed.

Lemma pipeline_table_stops_composite_ranking_input_5 :
  let rs := Examples.rows0 in
  let df := Samples.run_table in
  (∀ c, c ∈ columns df →
     c = "Ticker"%string ∨ c = "Strategy"%string
     ∨ ∃ r, r ∈ rs ∧ is_Some (metrics r !! c)).
Proof.
  cbv zeta. intros c Hc.
  apply elem_of_cons in Hc as [->|Hc]; [left; reflexivity|].
  apply elem_of_cons in Hc as [->|Hc]; [right; left; reflexivity|].
  apply list_elem_of_singleton in Hc as ->. right. right.
  destruct Examples.rows0 as [|r rest] eqn:Hr; [vm_compute in Hr; discriminate Hr|].
  exists r. split; [left|].
  assert (Hh : head Examples.rows0 = Some r) by (rewrite Hr; reflexivity).
  vm_compute in Hh. injection Hh as <-. eexists. reflexivity.
Qed.

Lemma pipeline_table_stops_composite_ranking_witness :
  let yf_download := Examples.provider in
  let tickers := TICKERS in
  let rs := Examples.rows0 in
  let df := Samples.run_table in
  (∀ kw idx vals trades m k,
     @vbt_stats ref_stats kw idx vals trades METRICS = Some m →
     is_Some (m !! k) → k ∈ METRIC_TITLES)
  ∧ @strategy_backtest ref_indicators ref_stats yf_download tickers = Ok rs
  ∧ rs ≠ []
  ∧ rows df = rs
  ∧ (∀ c, c ∈ columns df →
     c = "Ticker"%string ∨ c = "Strategy"%string
     ∨ ∃ r, r ∈ rs ∧ is_Some (metrics r !! c))
  ∧ ((∀ c, c ∈ columns df →
     c ∈ "Ticker"%string :: "Strategy"%string :: METRIC_TITLES ++ METRICS)
  ∧ ("Total Trades"%string ∉ columns df)
  ∧ ("Win Rate [%]"%string ∉ columns df)
  ∧ top_performers_analysis df = Raised "KeyError").
Proof.
  intros yf_download tickers rs df.
  split; [exact pipeline_table_stops_composite_ranking_input_1|].
  split; [exact run_backtest_rows0|].
  split; [exact pipeline_table_stops_composite_ranking_input_3|].
  split; [exact pipeline_table_stops_composite_ranking_input_4|].
  split; [exact pipeline_table_stops_composite_ranking_input_5|].
  exact (@pipeline_table_stops_composite_ranking ref_indicators ref_stats yf_download
           pipeline_table_stops_composite_ranking_input_1 tickers rs df
           run_backtest_rows0 pipeline_table_stops_composite_ranking_input_3
           pipeline_table_stops_composite_ranking_input_4
           pipeline_table_stops_composite_ranking_input_5).
Defined.

Lemma beat_market_matches_outperformance_input_1 :
  let df := Examples.metrics_table in
  let ds := Samples.dash_rows in
  dash_frame df = Ok ds.
Proof. cbv zeta. vm_compute. reflexivity. Qed.

Lemma beat_market_matches_outperformance_witness :
  let df := Examples.metrics_table in
  let ds := Samples.dash_rows in
  dash_frame df = Ok ds
  ∧ (dr_row <$> ds = dropna_subset (rows df)
  ∧ ∀ d, d ∈ ds →
      (∃ x s, num (dr_row d) TR = Some x ∧ num (dr_row d) SR = Some s)
      ∧ (is_benchmark (dr_row d) = true →
           dr_Beat_Market d = "No"%string ∧ dr_Market_Outperf d = Some 0%Q)
      ∧ (is_benchmark (dr_row d) = false →
           (dr_Beat_Market d = "Yes"%string ∨ dr_Beat_Market d = "No"%string)
           ∧ (∃ o, dr_Market_Outperf d = Some o)
           ∧ (dr_Beat_Market d = "Yes"%string
              ↔ ∃ o, dr_Market_Outperf d = Some o ∧ (0 < o)%Q))).
Proof.
  intros df ds.
  split; [exact beat_market_matches_outperformance_input_1|].
  exact (beat_market_matches_outperformance df ds beat_market_matches_outperformance_input_1).
Defined.

Lemma strategy_summary_totals_input_1 :
  let df := Examples.metrics_table in
  let ds := Samples.dash_rows in
  dash_frame df = Ok ds.
Proof. cbv zeta. vm_compute. reflexivity. Qed.

Lemma strategy_summary_totals_witness :
  let np_round := Samples.round_dec in
  let df := Examples.metrics_table in
  let ds := Samples.dash_rows in
  dash_frame df = Ok ds
  ∧ (let sm := strategy_summary np_round ds in
  let strategies := strategies_of ds in
  Sorted str_le (sm_Strategy <$> sm)
  ∧ NoDup (sm_Strategy <$> sm)
  ∧ (∀ s, s ∈ sm_Strategy <$> sm ↔ ∃ d, d ∈ strategies ∧ Strategy (dr_row d) = s)
  ∧ ("Benchmark"%string ∉ sm_Strategy <$> sm)
  ∧ (∀ r, r ∈ sm →
       (1 ≤ sm_Count r)%nat ∧ (sm_Wins r ≤ sm_Count r)%nat
       ∧ sm_Count r = length (strategy_group strategies (sm_Strategy r))
       ∧ sm_Wins r = length (filter beat_yes (strategy_group strategies (sm_Strategy r)))
       ∧ is_Some (sm_Avg_Return r) ∧ is_Some (sm_Avg_Sharpe r))
  ∧ sum_list_with sm_Count sm = length strategies
  ∧ sum_list_with sm_Wins sm = length (filter beat_yes strategies)).
Proof.
  intros np_round df ds.
  split; [exact strategy_summary_totals_input_1|].
  exact (strategy_summary_totals np_round df ds strategy_summary_totals_input_1).
Defined.

Lemma build_dashboard_findings_input_1 :
  let df := Examples.metrics_table in
  dropna_subset (rows df) ≠ [].
Proof. cbv zeta. intros H. apply (f_equal length) in H. vm_compute in H. discriminate H. Qed.

Lemma build_dashboard_findings_input_2 :
  let df := Examples.metrics_table in
  let ds := Samples.dash_rows in
  dash_frame df = Ok ds.
Proof. cbv zeta. vm_compute. reflexivity. Qed.

Lemma build_dashboard_findings_witness :
  let np_round := Samples.round_dec in
  let df := Examples.metrics_table in
  let ds := Samples.dash_rows in
  let top := Examples.top10_example in
  dropna_subset (rows df) ≠ []
  ∧ dash_frame df = Ok ds
  ∧ top10 df = Ok top
  ∧ (let strategies := strategies_of ds in
  let wins := filter beat_yes strategies in
  (top = [] ↔ wins = [])
  ∧ (build_dashboard np_round df = Raised "IndexError"
       ↔ wins = [] ∨ ∀ d, d ∈ strategies → Strategy (dr_row d) ≠ "Trend"%string)
  ∧ (∀ e, build_dashboard np_round df = Raised e → e = "IndexError"%string)
  ∧ (0 <= findings_win_rate (length wins) (length strategies) <= 100)%Q
  ∧ ∀ out, build_dashboard np_round df = Ok out →
      dash_top10 out = top
      ∧ dash_summary out = strategy_summary np_round ds
      ∧ length (dash_findings out) = 4%nat
      ∧ ∃ best, head top = Some best ∧ rd_Rank best = 1%nat
          ∧ rd_row best ∈ wins
          ∧ ∀ d, d ∈ wins →
              ∃ x y, num (ranked_row best) TR = Some x
                     ∧ num (dr_row d) TR = Some y ∧ (y <= x)%Q).
Proof.
  intros np_round df ds top.
  split; [exact build_dashboard_findings_input_1|].
  split; [exact build_dashboard_findings_input_2|].
  split; [exact top10_example_run|].
  exact (build_dashboard_findings np_round df ds top build_dashboard_findings_input_1
           build_dashboard_findings_input_2 top10_example_run).
Defined.

Lemma best_per_strategy_spec_witness :
  let df := Examples.metrics_table in
  let ts := Examples.top_strategies_example in
  top_strategies df = Ok ts
  ∧ (let best := best_per_strategy ts in
  let named := (λ k, Strategy (rk_row k)) <$> ts in
  (length best ≤ 3)%nat
  ∧ bs_Strategy <$> best
    = filter (λ s, s ∈ named) ["Trend"; "High_Vol"; "Low_Vol"]%string
  ∧ ∀ b, b ∈ best →
      ∃ k, k ∈ ts ∧ Strategy (rk_row k) = bs_Strategy b
        ∧ bs_Best_Stock b = Ticker (rk_row k) ∧ bs_Rank b = Rank k
        ∧ (∀ k', k' ∈ ts → Strategy (rk_row k') = bs_Strategy b →
             (Rank k ≤ Rank k')%nat ∧ ranks_before Composite_Score k k')
        ∧ ∃ body x v, bs_Return b = body +:+ "%"
            ∧ decimal_value body = Some x
            ∧ num (rk_row k) TR = Some v ∧ (Qabs (x - v) <= 1 # 200)%Q).
Proof.
  intros df ts.
  split; [exact top_strategies_example_run|].
  exact (best_per_strategy_spec df ts top_strategies_example_run).
Defined.

Lemma verify_sanity_checks_pass_input_1 :
  let df := Examples.metrics_table in
  let rep := Samples.report in
  verify_methodology df = Ok rep.
Proof. cbv zeta. vm_compute. reflexivity. Qed.

Lemma verify_sanity_checks_pass_witness :
  let df := Examples.metrics_table in
  let rep := Samples.report in
  verify_methodology df = Ok rep
  ∧ (vr_not_beating rep = []
  ∧ vr_is_sorted rep = true
  ∧ (1 ≤ length (vr_top20_manual rep) ≤ 20)%nat
  ∧ length (vr_top20_manual rep) = Nat.min 20 (length (vr_outperformers rep))
  ∧ (∀ i t, vr_top20_manual rep !! i = Some t → rm_Rank t = S i)
  ∧ (∀ t, t ∈ vr_top20_manual rep →
       mr_row (rm_row t) ∈ rows df
       ∧ is_benchmark (mr_row (rm_row t)) = false
       ∧ ∃ x b, num (mr_row (rm_row t)) TR = Some x
           ∧ mr_Benchmark_Return (rm_row t) = Some b ∧ (b < x)%Q
           ∧ (∃ bench, bench ∈ rows df ∧ is_benchmark bench = true
                ∧ Ticker bench = Ticker (mr_row (rm_row t)) ∧ num bench TR = Some b)
           ∧ mr_Manual_Outperf (rm_row t) = Some (x - b)%Q)
  ∧ (∀ t, t ∈ vr_negative_in_top rep ↔
       t ∈ vr_top20_manual rep ∧ ∃ x, num (mr_row (rm_row t)) TR = Some x ∧ (x < 0)%Q)).
Proof.
  intros df rep.
  split; [exact verify_sanity_checks_pass_input_1|].
  exact (verify_sanity_checks_pass df rep verify_sanity_checks_pass_input_1).
Defined.

Lemma verify_methodology_stops_input_1 :
  let df := Examples.metrics_table in
  has_columns ["Ticker"; "Strategy"; TR; SR]%string df = true.
Proof. cbv zeta. reflexivity. Qed.

Lemma verify_methodology_stops_input_2 :
  let df := Examples.metrics_table in
  has_columns [MDD] df = true.
Proof. cbv zeta. reflexivity. Qed.

Lemma verify_methodology_stops_input_3 :
  let df := Examples.metrics_table in
  NoDup (Ticker <$> filter (λ r, is_benchmark r = true) (rows df)).
Proof. cbv zeta. apply (bool_decide_eq_true_1 _). vm_compute. reflexivity. Qed.

Lemma verify_methodology_stops_input_4 :
  let df := Examples.metrics_table in
  dropna_subset (rows df) ≠ [].
Proof. cbv zeta. intros H. apply (f_equal length) in H. vm_compute in H. discriminate H. Qed.

Lemma verify_methodology_stops_witness :
  let df := Examples.metrics_table in
  has_columns ["Ticker"; "Strategy"; TR; SR]%string df = true
  ∧ has_columns [MDD] df = true
  ∧ NoDup (Ticker <$> filter (λ r, is_benchmark r = true) (rows df))
  ∧ dropna_subset (rows df) ≠ []
  ∧ (let benchmarks := filter (λ r, is_benchmark r = true) (rows df) in
  let strategies := filter (λ r, is_benchmark r = false) (rows df) in
  let winners := filter (λ m, mr_Manual_Beat_Market m = true)
                   (manual_row benchmarks <$> strategies) in
  (verify_methodology df = Raised "ZeroDivisionError"
     ↔ (∃ s, s ∈ three_strategies ∧ ∀ r, r ∈ strategies → Strategy r ≠ s)
       ∨ winners = [])
  ∧ (∀ e, verify_methodology df = Raised e → e = "ZeroDivisionError"%string)
  ∧ ((∀ s, s ∈ three_strategies → ∃ r, r ∈ strategies ∧ Strategy r = s) →
     winners ≠ [] → ∃ rep, verify_methodology df = Ok rep)).
Proof.
  intros df.
  split; [exact verify_methodology_stops_input_1|].
  split; [exact verify_methodology_stops_input_2|].
  split; [exact verify_methodology_stops_input_3|].
  split; [exact verify_methodology_stops_input_4|].
  exact (verify_methodology_stops df verify_methodology_stops_input_1
           verify_methodology_stops_input_2 verify_methodology_stops_input_3
           verify_methodology_stops_input_4).
Defined.

Lemma verify_agrees_with_dashboard_input_1 :
  let df := Examples.metrics_table in
  let rep := Samples.report in
  verify_methodology df = Ok rep.
Proof. cbv zeta. vm_compute. reflexivity. Qed.

Lemma verify_agrees_with_dashboard_input_2 :
  let df := Examples.metrics_table in
  (∀ r, r ∈ rows df → is_Some (num r TR) ∧ is_Some (num r SR)).
Proof. cbv zeta. apply Forall_forall. repeat constructor; eexists; vm_compute; reflexivity. Qed.

Lemma verify_agrees_with_dashboard_input_3 :
  let df := Examples.metrics_table in
  (∀ r, r ∈ rows df → is_benchmark r = false →
     ∃ b, b ∈ rows df ∧ is_benchmark b = true ∧ Ticker b = Ticker r).
Proof.
  cbv zeta. apply (Forall_forall (λ r, is_benchmark r = false →
      ∃ b, b ∈ rows Examples.metrics_table ∧ is_benchmark b = true ∧ Ticker b = Ticker r)).
  repeat constructor; intros Hb; try discriminate Hb.
  all: first [ exists (Examples.csv_row "INTC" "Benchmark" (-(57 # 10)) (-(1 # 10)) (-30));
               split; [do 3 right; left|split; reflexivity]
             | exists (Examples.csv_row "NVDA" "Benchmark" 30 1 (-25));
               split; [do 7 right; left|split; reflexivity] ].
Qed.

Lemma verify_agrees_with_dashboard_witness :
  let df := Examples.metrics_table in
  let rep := Samples.report in
  verify_methodology df = Ok rep
  ∧ (∀ r, r ∈ rows df → is_Some (num r TR) ∧ is_Some (num r SR))
  ∧ (∀ r, r ∈ rows df → is_benchmark r = false →
     ∃ b, b ∈ rows df ∧ is_benchmark b = true ∧ Ticker b = Ticker r)
  ∧ (dr_row <$> vr_top20_check rep = (λ t, mr_row (rm_row t)) <$> vr_top20_manual rep
  ∧ vr_same_count rep = true
  ∧ vr_same_top rep = Some true).
Proof.
  intros df rep.
  split; [exact verify_agrees_with_dashboard_input_1|].
  split; [exact verify_agrees_with_dashboard_input_2|].
  split; [exact verify_agrees_with_dashboard_input_3|].
  exact (verify_agrees_with_dashboard df rep verify_agrees_with_dashboard_input_1
           verify_agrees_with_dashboard_input_2 verify_agrees_with_dashboard_input_3).
Defined.
